(** * redditclone: vote/karma engine and comment/message threading

    A shallow embedding of the service and repository layers of the
    redditclone backend (packages [internal/models], [internal/repository],
    [internal/service] and the schema of [pkg/database]), together with the
    properties of the vote ledger, the karma update and the reply threads.

    Conventions of the embedding
    - Go [int] is [Z]; the one place where the Go code does arithmetic on an
      [int] ([Karma += delta]) has its 64-bit wrap-around written out.
    - A nullable pointer [*int] is [option Z].
    - A Go [error] is its message (a [string]); [nil] is the absence of one.
      [fmt.Errorf("Op: %v", err)] is concatenation.
    - The SQLite database is a record of tables, each a list of rows in rowid
      order.  Every repository method is one statement sent to the driver:
      it is recorded in a trace, and the driver may refuse it (the
      [err != nil] branches that are not [sql.ErrNoRows]); refusals are read
      from a schedule carried by the world.
    - The CHECK and UNIQUE constraints belong to the tables.  The foreign
      keys are enforced by a connection on which [PRAGMA foreign_keys = ON]
      was run; [Connect] runs it once, so the world carries whether the
      connection in use is that one.
    - [ORDER BY created_at] is read twice: as the relation between the
      selected rows and any arrangement the statement allows, and as the
      arrangement SQLite produces, a stable sort of the rows in rowid
      order. *)

From Stdlib Require Import ZArith List String Bool Lia Permutation Sorted.
Import ListNotations.

Local Open Scope Z_scope.
Local Open Scope list_scope.

(** ** Models ([internal/models]) *)

Definition time := Z.

Module User.
Record t := mk
  { ID : Z; Username : string; Email : string; Password : string;
    CreatedAt : time; UpdatedAt : time }.
End User.

Module Post.
Record t := mk
  { ID : Z; Title : string; Content : string; AuthorID : Z;
    SubredditID : Z; Karma : Z; CreatedAt : time; UpdatedAt : time }.

Definition with_Karma (p : t) (k : Z) : t :=
  mk (ID p) (Title p) (Content p) (AuthorID p) (SubredditID p) k
     (CreatedAt p) (UpdatedAt p).
End Post.

Module Comment.
Record t := mk
  { ID : Z; Content : string; AuthorID : Z; PostID : Z;
    ParentID : option Z; Karma : Z; CreatedAt : time; UpdatedAt : time }.

Definition with_Karma (c : t) (k : Z) : t :=
  mk (ID c) (Content c) (AuthorID c) (PostID c) (ParentID c) k
     (CreatedAt c) (UpdatedAt c).

Definition with_PostID (c : t) (p : Z) : t :=
  mk (ID c) (Content c) (AuthorID c) p (ParentID c) (Karma c)
     (CreatedAt c) (UpdatedAt c).
End Comment.

Module Vote.
Record t := mk
  { ID : Z; UserID : Z; PostID : option Z; CommentID : option Z;
    VoteType : string; CreatedAt : time; UpdatedAt : time }.

Definition with_VoteType (v : t) (ty : string) : t :=
  mk (ID v) (UserID v) (PostID v) (CommentID v) ty
     (CreatedAt v) (UpdatedAt v).
End Vote.

Module Message.
Record t := mk
  { ID : Z; SenderID : Z; ReceiverID : Z; Content : string;
    ParentID : option Z; CreatedAt : time; UpdatedAt : time }.

Definition with_ReceiverID (m : t) (r : Z) : t :=
  mk (ID m) (SenderID m) r (Content m) (ParentID m)
     (CreatedAt m) (UpdatedAt m).
End Message.

(** ** The database and its environment *)

(** The tables of [InitializeSchema] that the vote, comment and message
    services touch.  [seq_*] is the [sqlite_sequence] entry of an
    [AUTOINCREMENT] table: the largest rowid ever handed out. *)
Record DB := mkDB
  { users : list User.t;
    posts : list Post.t;
    comments : list Comment.t;
    votes : list Vote.t;
    messages : list Message.t;
    seq_comments : Z;
    seq_votes : Z;
    seq_messages : Z }.

(** One entry per repository method call, with its arguments. *)
Inductive call :=
| QGetUserByID (id : Z)
| QGetPostByID (id : Z)
| QUpdatePost (p : Post.t)
| QCreateComment (c : Comment.t)
| QGetCommentByID (id : Z)
| QUpdateComment (c : Comment.t)
| QCreateVote (v : Vote.t)
| QGetVoteByUserAndPost (userID postID : Z)
| QGetVoteByUserAndComment (userID commentID : Z)
| QUpdateVote (v : Vote.t)
| QDeleteVote (v : Vote.t)
| QSendMessage (m : Message.t)
| QGetMessageByID (id : Z).

(** The world a service method runs in: the database, the value of
    [CURRENT_TIMESTAMP], the driver's refusals still to come ([true]: the next
    statement fails), the statements issued so far, oldest first, and
    whether the connection that the pool hands out enforces the foreign keys.
    [Connect] ([pkg/database/db.go]) opens the pool and runs
    [PRAGMA foreign_keys = ON] once with [db.Exec]: the setting belongs to
    the connection that ran it, not to the database file or to the pool. *)
Record World := mkConn
  { store : DB;
    clock : time;
    faults : list bool;
    trace : list call;
    foreign_keys : bool }.

(** A world on the connection that [Connect] prepared. *)
Definition mkWorld (d : DB) (now : time) (fs : list bool) (tr : list call)
  : World :=
  mkConn d now fs tr true.

Definition with_store (w : World) (d : DB) : World :=
  mkConn d (clock w) (faults w) (trace w) (foreign_keys w).

Definition set_posts (d : DB) (l : list Post.t) : DB :=
  mkDB (users d) l (comments d) (votes d) (messages d)
       (seq_comments d) (seq_votes d) (seq_messages d).

Definition set_comments (d : DB) (l : list Comment.t) (s : Z) : DB :=
  mkDB (users d) (posts d) l (votes d) (messages d)
       s (seq_votes d) (seq_messages d).

Definition set_votes (d : DB) (l : list Vote.t) (s : Z) : DB :=
  mkDB (users d) (posts d) (comments d) l (messages d)
       (seq_comments d) s (seq_messages d).

Definition set_messages (d : DB) (l : list Message.t) (s : Z) : DB :=
  mkDB (users d) (posts d) (comments d) (votes d) l
       (seq_comments d) (seq_votes d) s.

(** Go's [(T, error)]: [inl] carries the error message. *)
Definition result (A : Type) : Type := (string + A)%type.

(** A method with access to the world. *)
Definition M (A : Type) : Type := World -> A * World.

(** What a service method hands back: [nil], an error, or a run-time panic
    (dereferencing a nil [ParentID]). *)
Inductive ret :=
| OK
| Err (msg : string)
| NilDeref.

(** Does the driver refuse the next statement? *)
Definition failing (w : World) : bool :=
  match faults w with
  | [] => false
  | f :: _ => f
  end.

(** The world once statement [c] has been sent.  A refused statement is a
    bad connection: database/sql drops it, and the statements that follow
    run on a connection opened afresh, on which no PRAGMA was run. *)
Definition sent (c : call) (w : World) : World :=
  mkConn (store w) (clock w) (tl (faults w)) (trace w ++ [c])
         (foreign_keys w && negb (failing w)).

(** The message of a refused statement (database/sql's [ErrBadConn]). *)
Definition driver_error : string := "driver: bad connection".

(** [sql.ErrNoRows]. *)
Definition ErrNoRows : string := "sql: no rows in result set".

(** SQLite's constraint failures, by the name of the constraint (the
    driver's message puts a prefix before it and the constraint's detail and
    the result code after it). *)
Definition check_failed : string := "CHECK constraint failed".
Definition unique_failed : string := "UNIQUE constraint failed".
Definition foreign_key_failed : string := "FOREIGN KEY constraint failed".

(** [fmt.Errorf("<op>: %v", err)]. *)
Definition Errorf (op err : string) : string :=
  (op ++ ": " ++ err)%string.

(** Go [int] addition on a 64-bit platform. *)
Definition int_add (x y : Z) : Z :=
  (x + y + 2 ^ 63) mod 2 ^ 64 - 2 ^ 63.

(** [AUTOINCREMENT]: one more than the largest rowid in the table or ever
    handed out. *)
Definition max_id (ids : list Z) : Z := fold_right Z.max 0 ids.

Definition next_id (seq : Z) (ids : list Z) : Z :=
  Z.max seq (max_id ids) + 1.

Definition opt_eqb (a : option Z) (b : Z) : bool :=
  match a with
  | Some x => x =? b
  | None => false
  end.

Definition is_null (a : option Z) : bool :=
  match a with
  | Some _ => false
  | None => true
  end.

(** ** Repositories ([internal/repository]) *)

Definition user_exists (d : DB) (id : Z) : bool :=
  existsb (fun u => User.ID u =? id) (users d).

Definition post_exists (d : DB) (id : Z) : bool :=
  existsb (fun p => Post.ID p =? id) (posts d).

Definition comment_exists (d : DB) (id : Z) : bool :=
  existsb (fun c => Comment.ID c =? id) (comments d).

Definition message_exists (d : DB) (id : Z) : bool :=
  existsb (fun m => Message.ID m =? id) (messages d).

(** A foreign key column that may be NULL. *)
Definition fk_ok (exists_ : Z -> bool) (ref : option Z) : bool :=
  match ref with
  | Some id => exists_ id
  | None => true
  end.

(** The foreign keys of a row are checked on a connection that enforces
    them, and not looked at on any other. *)
Definition references_ok (w : World) (found : bool) : bool :=
  negb (foreign_keys w) || found.

(** *** users *)

Definition GetUserByID (id : Z) : M (result User.t) := fun w =>
  let w1 := sent (QGetUserByID id) w in
  if failing w then (inl (Errorf "GetUserByID" driver_error), w1)
  else match find (fun u => User.ID u =? id) (users (store w)) with
       | Some u => (inr u, w1)
       | None => (inl "GetUserByID: user not found"%string, w1)
       end.

(** *** posts *)

Definition GetPostByID (id : Z) : M (result Post.t) := fun w =>
  let w1 := sent (QGetPostByID id) w in
  if failing w then (inl (Errorf "GetPostByID" driver_error), w1)
  else match find (fun p => Post.ID p =? id) (posts (store w)) with
       | Some p => (inr p, w1)
       | None => (inl "GetPostByID: post not found"%string, w1)
       end.

(** [UPDATE posts SET title = $1, content = $2, updated_at =
    CURRENT_TIMESTAMP WHERE id = $3 RETURNING updated_at].  The columns
    written are the title, the content and the update time. *)
Definition update_post_row (p : Post.t) (now : time) (row : Post.t) : Post.t :=
  if Post.ID row =? Post.ID p
  then Post.mk (Post.ID row) (Post.Title p) (Post.Content p)
               (Post.AuthorID row) (Post.SubredditID row) (Post.Karma row)
               (Post.CreatedAt row) now
  else row.

Definition UpdatePost (p : Post.t) : M (result Post.t) := fun w =>
  let w1 := sent (QUpdatePost p) w in
  if failing w then (inl (Errorf "UpdatePost" driver_error), w1)
  else if post_exists (store w) (Post.ID p)
       then (inr (Post.mk (Post.ID p) (Post.Title p) (Post.Content p)
                          (Post.AuthorID p) (Post.SubredditID p)
                          (Post.Karma p) (Post.CreatedAt p) (clock w)),
             with_store w1
               (set_posts (store w)
                  (map (update_post_row p (clock w)) (posts (store w)))))
       else (inl (Errorf "UpdatePost" ErrNoRows), w1).

(** *** comments *)

Definition CreateComment (c : Comment.t) : M (result Comment.t) := fun w =>
  let w1 := sent (QCreateComment c) w in
  let d := store w in
  if failing w then (inl (Errorf "CreateComment" driver_error), w1)
  else if references_ok w
            (user_exists d (Comment.AuthorID c)
             && post_exists d (Comment.PostID c)
             && fk_ok (comment_exists d) (Comment.ParentID c))
       then
         let id := next_id (seq_comments d) (map Comment.ID (comments d)) in
         let row := Comment.mk id (Comment.Content c) (Comment.AuthorID c)
                      (Comment.PostID c) (Comment.ParentID c) 0
                      (clock w) (clock w) in
         (inr (Comment.mk id (Comment.Content c) (Comment.AuthorID c)
                 (Comment.PostID c) (Comment.ParentID c) (Comment.Karma c)
                 (clock w) (clock w)),
          with_store w1 (set_comments d (comments d ++ [row]) id))
       else (inl (Errorf "CreateComment" foreign_key_failed), w1).

Definition GetCommentByID (id : Z) : M (result Comment.t) := fun w =>
  let w1 := sent (QGetCommentByID id) w in
  if failing w then (inl (Errorf "GetCommentByID" driver_error), w1)
  else match find (fun c => Comment.ID c =? id) (comments (store w)) with
       | Some c => (inr c, w1)
       | None => (inl "GetCommentByID: comment not found"%string, w1)
       end.

(** [UPDATE comments SET content = $1, updated_at = CURRENT_TIMESTAMP
    WHERE id = $2 RETURNING updated_at]. *)
Definition update_comment_row (c : Comment.t) (now : time) (row : Comment.t)
  : Comment.t :=
  if Comment.ID row =? Comment.ID c
  then Comment.mk (Comment.ID row) (Comment.Content c) (Comment.AuthorID row)
                  (Comment.PostID row) (Comment.ParentID row)
                  (Comment.Karma row) (Comment.CreatedAt row) now
  else row.

Definition UpdateComment (c : Comment.t) : M (result Comment.t) := fun w =>
  let w1 := sent (QUpdateComment c) w in
  if failing w then (inl (Errorf "UpdateComment" driver_error), w1)
  else if comment_exists (store w) (Comment.ID c)
       then (inr (Comment.mk (Comment.ID c) (Comment.Content c)
                    (Comment.AuthorID c) (Comment.PostID c)
                    (Comment.ParentID c) (Comment.Karma c)
                    (Comment.CreatedAt c) (clock w)),
             with_store w1
               (set_comments (store w)
                  (map (update_comment_row c (clock w)) (comments (store w)))
                  (seq_comments (store w))))
       else (inl (Errorf "UpdateComment" ErrNoRows), w1).

(** *** votes *)

(** [CHECK (vote_type IN ('upvote', 'downvote'))]. *)
Definition vote_type_ok (ty : string) : bool :=
  (ty =? "upvote")%string || (ty =? "downvote")%string.

(** [UNIQUE(user_id, post_id, comment_id)]: SQLite treats NULLs as distinct,
    so two rows collide only when all three columns are non-NULL and equal. *)
Definition unique_clash (v row : Vote.t) : bool :=
  (Vote.UserID v =? Vote.UserID row)
  && match Vote.PostID v, Vote.PostID row,
           Vote.CommentID v, Vote.CommentID row with
     | Some p, Some p', Some c, Some c' => (p =? p') && (c =? c')
     | _, _, _, _ => false
     end.

Definition CreateVote (v : Vote.t) : M (result Vote.t) := fun w =>
  let w1 := sent (QCreateVote v) w in
  let d := store w in
  if failing w then (inl (Errorf "CreateVote" driver_error), w1)
  else if negb (vote_type_ok (Vote.VoteType v))
       then (inl (Errorf "CreateVote" check_failed), w1)
  else if existsb (unique_clash v) (votes d)
       then (inl (Errorf "CreateVote" unique_failed), w1)
  else if references_ok w
            (user_exists d (Vote.UserID v)
             && fk_ok (post_exists d) (Vote.PostID v)
             && fk_ok (comment_exists d) (Vote.CommentID v))
       then
         let id := next_id (seq_votes d) (map Vote.ID (votes d)) in
         let row := Vote.mk id (Vote.UserID v) (Vote.PostID v)
                      (Vote.CommentID v) (Vote.VoteType v)
                      (clock w) (clock w) in
         (inr row, with_store w1 (set_votes d (votes d ++ [row]) id))
       else (inl (Errorf "CreateVote" foreign_key_failed), w1).

(** [WHERE user_id = $1 AND post_id = $2 AND comment_id IS NULL]. *)
Definition on_post (userID postID : Z) (row : Vote.t) : bool :=
  (Vote.UserID row =? userID)
  && opt_eqb (Vote.PostID row) postID
  && is_null (Vote.CommentID row).

(** [WHERE user_id = $1 AND comment_id = $2 AND post_id IS NULL]. *)
Definition on_comment (userID commentID : Z) (row : Vote.t) : bool :=
  (Vote.UserID row =? userID)
  && opt_eqb (Vote.CommentID row) commentID
  && is_null (Vote.PostID row).

Definition GetVoteByUserAndPost (userID postID : Z) : M (result Vote.t) :=
  fun w =>
  let w1 := sent (QGetVoteByUserAndPost userID postID) w in
  if failing w then (inl (Errorf "GetVoteByUserAndPost" driver_error), w1)
  else match find (on_post userID postID) (votes (store w)) with
       | Some v => (inr v, w1)
       | None => (inl "GetVoteByUserAndPost: vote not found"%string, w1)
       end.

Definition GetVoteByUserAndComment (userID commentID : Z)
  : M (result Vote.t) := fun w =>
  let w1 := sent (QGetVoteByUserAndComment userID commentID) w in
  if failing w then (inl (Errorf "GetVoteByUserAndComment" driver_error), w1)
  else match find (on_comment userID commentID) (votes (store w)) with
       | Some v => (inr v, w1)
       | None => (inl "GetVoteByUserAndComment: vote not found"%string, w1)
       end.

(** [UPDATE votes SET vote_type = $1, updated_at = CURRENT_TIMESTAMP
    WHERE id = $2 RETURNING updated_at]. *)
Definition update_vote_row (v : Vote.t) (now : time) (row : Vote.t) : Vote.t :=
  if Vote.ID row =? Vote.ID v
  then Vote.mk (Vote.ID row) (Vote.UserID row) (Vote.PostID row)
               (Vote.CommentID row) (Vote.VoteType v)
               (Vote.CreatedAt row) now
  else row.

Definition UpdateVote (v : Vote.t) : M (result Vote.t) := fun w =>
  let w1 := sent (QUpdateVote v) w in
  let d := store w in
  if failing w then (inl (Errorf "UpdateVote" driver_error), w1)
  else if negb (existsb (fun row => Vote.ID row =? Vote.ID v) (votes d))
       then (inl (Errorf "UpdateVote" ErrNoRows), w1)
  else if negb (vote_type_ok (Vote.VoteType v))
       then (inl (Errorf "UpdateVote" check_failed), w1)
  else (inr (Vote.mk (Vote.ID v) (Vote.UserID v) (Vote.PostID v)
               (Vote.CommentID v) (Vote.VoteType v) (Vote.CreatedAt v)
               (clock w)),
        with_store w1
          (set_votes d (map (update_vote_row v (clock w)) (votes d))
             (seq_votes d))).

(** [DELETE FROM votes WHERE id = $1], then [RowsAffected]. *)
Definition DeleteVote (v : Vote.t) : M (option string) := fun w =>
  let w1 := sent (QDeleteVote v) w in
  let d := store w in
  if failing w then (Some (Errorf "DeleteVote" driver_error), w1)
  else if existsb (fun row => Vote.ID row =? Vote.ID v) (votes d)
       then (None,
             with_store w1
               (set_votes d
                  (filter (fun row => negb (Vote.ID row =? Vote.ID v))
                     (votes d))
                  (seq_votes d)))
       else (Some "DeleteVote: no vote found to delete"%string, w1).

(** ** Vote service ([internal/service/vote_service.go]) *)

(** The target of a vote: the one of [PostID], [CommentID] that is set. *)
Inductive target :=
| OnPost (postID : Z)
| OnComment (commentID : Z).

(** [(PostID == nil && CommentID == nil) || (PostID != nil && CommentID != nil)]
    is the [None] case. *)
Definition target_of (vote : Vote.t) : option target :=
  match Vote.PostID vote, Vote.CommentID vote with
  | Some p, None => Some (OnPost p)
  | None, Some c => Some (OnComment c)
  | _, _ => None
  end.

Definition GetVoteByUserAndTarget (userID : Z) (t : target)
  : M (result Vote.t) :=
  match t with
  | OnPost p => GetVoteByUserAndPost userID p
  | OnComment c => GetVoteByUserAndComment userID c
  end.

(** [UpdateKarma]: load the row, add [delta] to the [Karma] field of the
    struct, pass the struct to [UpdatePost]/[UpdateComment]. *)
Definition UpdateKarma (targetType : string) (targetID delta : Z) : M ret :=
  fun w =>
  if (targetType =? "post")%string then
    match GetPostByID targetID w with
    | (inl e, w1) => (Err e, w1)
    | (inr post, w1) =>
        let post := Post.with_Karma post (int_add (Post.Karma post) delta) in
        match UpdatePost post w1 with
        | (inl e, w2) => (Err e, w2)
        | (inr _, w2) => (OK, w2)
        end
    end
  else if (targetType =? "comment")%string then
    match GetCommentByID targetID w with
    | (inl e, w1) => (Err e, w1)
    | (inr comment, w1) =>
        let comment :=
          Comment.with_Karma comment
            (int_add (Comment.Karma comment) delta) in
        match UpdateComment comment w1 with
        | (inl e, w2) => (Err e, w2)
        | (inr _, w2) => (OK, w2)
        end
    end
  else (Err "UpdateKarma: invalid target type", w).

(** [if vote.PostID != nil { UpdateKarma("post", ...) } else
    { UpdateKarma("comment", ...) }]. *)
Definition UpdateKarmaOn (t : target) (delta : Z) : M ret :=
  match t with
  | OnPost p => UpdateKarma "post" p delta
  | OnComment c => UpdateKarma "comment" c delta
  end.

(** [CastVote]: the target check, the lookup of an existing vote, the insert,
    the karma update.  After the target check exactly one of [PostID] and
    [CommentID] is set, so both [if vote.PostID != nil] branches are decided
    by [t]. *)
Definition CastVote (vote : Vote.t) : M ret := fun w =>
  match target_of vote with
  | None => (Err "CastVote: vote must be on either a post or a comment", w)
  | Some t =>
      match GetVoteByUserAndTarget (Vote.UserID vote) t w with
      | (inr _, w1) =>
          (Err "CastVote: user has already voted on this target", w1)
      | (inl e, w1) =>
          if negb (e =? "GetVoteByUserAndPost: vote not found")%string
             && negb (e =? "GetVoteByUserAndComment: vote not found")%string
          then (Err (Errorf "CastVote" e), w1)
          else
            match CreateVote vote w1 with
            | (inl e, w2) => (Err e, w2)
            | (inr _, w2) =>
                let delta :=
                  if (Vote.VoteType vote =? "upvote")%string then 1 else -1 in
                UpdateKarmaOn t delta w2
            end
      end
  end.

(** [ChangeVote]: the type check, the target check, the lookup, the no-op
    check, [existingVote.VoteType = vote.VoteType] and the update, the karma
    update. *)
Definition ChangeVote (vote : Vote.t) : M ret := fun w =>
  if negb (Vote.VoteType vote =? "upvote")%string
     && negb (Vote.VoteType vote =? "downvote")%string
  then (Err "ChangeVote: invalid vote type", w)
  else
    match target_of vote with
    | None => (Err "ChangeVote: vote must be on either a post or a comment", w)
    | Some t =>
        match GetVoteByUserAndTarget (Vote.UserID vote) t w with
        | (inl e, w1) => (Err (Errorf "ChangeVote" e), w1)
        | (inr existingVote, w1) =>
            if (Vote.VoteType existingVote =? Vote.VoteType vote)%string
            then (Err "ChangeVote: vote type is already set to the desired value",
                  w1)
            else
              let existingVote :=
                Vote.with_VoteType existingVote (Vote.VoteType vote) in
              match UpdateVote existingVote w1 with
              | (inl e, w2) => (Err e, w2)
              | (inr _, w2) =>
                  let delta :=
                    if (Vote.VoteType vote =? "upvote")%string
                    then 2 else -2 in
                  UpdateKarmaOn t delta w2
              end
        end
    end.

(** [RemoveVote]: the lookup chosen by [postID != 0], the delete, the karma
    update on the target of the row that was found. *)
Definition RemoveVote (userID postID commentID : Z) : M ret := fun w =>
  match (if negb (postID =? 0)
         then GetVoteByUserAndPost userID postID w
         else GetVoteByUserAndComment userID commentID w) with
  | (inl e, w1) => (Err (Errorf "RemoveVote" e), w1)
  | (inr existingVote, w1) =>
      let delta :=
        if (Vote.VoteType existingVote =? "upvote")%string then -1 else 1 in
      match DeleteVote existingVote w1 with
      | (Some e, w2) => (Err e, w2)
      | (None, w2) =>
          match Vote.PostID existingVote, Vote.CommentID existingVote with
          | Some p, _ => UpdateKarma "post" p delta w2
          | None, Some c => UpdateKarma "comment" c delta w2
          | None, None => (Err "RemoveVote: invalid vote target", w2)
          end
      end
  end.

(** ** Queries with [ORDER BY created_at ... LIMIT ... OFFSET ...] *)

Section OrderedQuery.
Variable A : Type.
Variable created_at : A -> time.
Variable id : A -> Z.

(** Non-decreasing creation time. *)
Definition oldest_first (rows : list A) : Prop :=
  StronglySorted (fun a b => created_at a <= created_at b) rows.

(** [ORDER BY created_at ASC] on the selected rows, as the text of the
    statement has it: the same rows arranged by non-decreasing [created_at].
    The statement names no second key; how rows of equal [created_at] are
    arranged is not said by it. *)
Definition order_by_created_at_asc (selected out : list A) : Prop :=
  Permutation selected out /\ oldest_first out.

(** [LIMIT $limit OFFSET $offset]; SQLite reads a negative limit as no
    limit and a negative offset as zero. *)
Definition limit_offset (limit offset : Z) (rows : list A) : list A :=
  let rest := skipn (Z.to_nat offset) rows in
  if limit <? 0 then rest else firstn (Z.to_nat limit) rest.

(** The arrangement SQLite produces.  No index covers [parent_id] or
    [created_at], so the table is read in rowid order; and for a statement
    with a LIMIT the selected rows are sorted by the key of the statement
    followed by the number of the row in the order read.  Rows of equal
    [created_at] stay in the order in which they were read: a stable sort of
    the rows in rowid order. *)
Fixpoint insert_row (x : A) (rows : list A) : list A :=
  match rows with
  | [] => [x]
  | y :: rest =>
      if created_at x <=? created_at y
      then x :: y :: rest
      else y :: insert_row x rest
  end.

Fixpoint sort_rows (rows : list A) : list A :=
  match rows with
  | [] => []
  | x :: rest => insert_row x (sort_rows rest)
  end.

(** Oldest first, rows of equal creation time by ascending id. *)
Definition oldest_first_then_id (rows : list A) : Prop :=
  StronglySorted
    (fun a b => created_at a < created_at b
                \/ (created_at a = created_at b /\ id a <= id b))
    rows.

(** A table holds its rows in rowid order: by strictly ascending id. *)
Definition rowid_order (rows : list A) : Prop :=
  StronglySorted (fun a b => id a < id b) rows.
End OrderedQuery.

Arguments oldest_first {A} created_at rows.
Arguments order_by_created_at_asc {A} created_at selected out.
Arguments limit_offset {A} limit offset rows.
Arguments insert_row {A} created_at x rows.
Arguments sort_rows {A} created_at rows.
Arguments oldest_first_then_id {A} created_at id rows.
Arguments rowid_order {A} id rows.

(** The two [GetReplies] and the repository's [SendMessage] share their
    names with other methods; they live in modules named after their
    repositories. *)
Module CommentRepository.
(** [WHERE parent_id = $1]. *)
Definition children (d : DB) (parentID : Z) : list Comment.t :=
  filter (fun c => opt_eqb (Comment.ParentID c) parentID) (comments d).

(** The row sets a successful [GetReplies(parentID, limit, offset)] can
    return, going by the text of its statement alone. *)
Definition GetReplies (d : DB) (parentID limit offset : Z)
           (replies : list Comment.t) : Prop :=
  exists sorted,
    order_by_created_at_asc Comment.CreatedAt (children d parentID) sorted
    /\ replies = limit_offset limit offset sorted.

(** The rows a successful [GetReplies(parentID, limit, offset)] returns on
    SQLite. *)
Definition GetReplies_rows (d : DB) (parentID limit offset : Z)
  : list Comment.t :=
  limit_offset limit offset
    (sort_rows Comment.CreatedAt (children d parentID)).
End CommentRepository.

Module MessageRepository.
Definition children (d : DB) (parentID : Z) : list Message.t :=
  filter (fun m => opt_eqb (Message.ParentID m) parentID) (messages d).

Definition GetReplies (d : DB) (parentID limit offset : Z)
           (replies : list Message.t) : Prop :=
  exists sorted,
    order_by_created_at_asc Message.CreatedAt (children d parentID) sorted
    /\ replies = limit_offset limit offset sorted.

Definition GetReplies_rows (d : DB) (parentID limit offset : Z)
  : list Message.t :=
  limit_offset limit offset
    (sort_rows Message.CreatedAt (children d parentID)).

Definition SendMessage (m : Message.t) : M (result Message.t) := fun w =>
  let w1 := sent (QSendMessage m) w in
  let d := store w in
  if failing w then (inl (Errorf "SendMessage" driver_error), w1)
  else if references_ok w
            (user_exists d (Message.SenderID m)
             && user_exists d (Message.ReceiverID m)
             && fk_ok (message_exists d) (Message.ParentID m))
       then
         let id := next_id (seq_messages d) (map Message.ID (messages d)) in
         let row := Message.mk id (Message.SenderID m) (Message.ReceiverID m)
                      (Message.Content m) (Message.ParentID m)
                      (clock w) (clock w) in
         (inr row, with_store w1 (set_messages d (messages d ++ [row]) id))
       else (inl (Errorf "SendMessage" foreign_key_failed), w1).

Definition GetMessageByID (id : Z) : M (result Message.t) := fun w =>
  let w1 := sent (QGetMessageByID id) w in
  if failing w then (inl (Errorf "GetMessageByID" driver_error), w1)
  else match find (fun m => Message.ID m =? id) (messages (store w)) with
       | Some m => (inr m, w1)
       | None => (inl "GetMessageByID: message not found"%string, w1)
       end.
End MessageRepository.

(** ** Comment service ([internal/service/comment_service.go]) *)

Definition AddComment (comment : Comment.t) : M ret := fun w =>
  if (Comment.Content comment =? "")%string
  then (Err "AddComment: content is required", w)
  else
    match GetUserByID (Comment.AuthorID comment) w with
    | (inl _, w1) => (Err "AddComment: author does not exist", w1)
    | (inr _, w1) =>
        match GetPostByID (Comment.PostID comment) w1 with
        | (inl _, w2) => (Err "AddComment: post does not exist", w2)
        | (inr _, w2) =>
            match CreateComment comment w2 with
            | (inl e, w3) => (Err e, w3)
            | (inr _, w3) => (OK, w3)
            end
        end
    end.

(** [ReplyToComment]: content, author, parent ([*comment.ParentID] panics
    on nil), [comment.PostID = parentComment.PostID], insert. *)
Definition ReplyToComment (comment : Comment.t) : M ret := fun w =>
  if (Comment.Content comment =? "")%string
  then (Err "ReplyToComment: content is required", w)
  else
    match GetUserByID (Comment.AuthorID comment) w with
    | (inl _, w1) => (Err "ReplyToComment: author does not exist", w1)
    | (inr _, w1) =>
        match Comment.ParentID comment with
        | None => (NilDeref, w1)
        | Some parentID =>
            match GetCommentByID parentID w1 with
            | (inl _, w2) =>
                (Err "ReplyToComment: parent comment does not exist", w2)
            | (inr parentComment, w2) =>
                let comment :=
                  Comment.with_PostID comment (Comment.PostID parentComment) in
                match CreateComment comment w2 with
                | (inl e, w3) => (Err e, w3)
                | (inr _, w3) => (OK, w3)
                end
            end
        end
    end.

(** ** Message service ([internal/service/message_service.go]) *)

Definition SendMessage (message : Message.t) : M ret := fun w =>
  if (Message.Content message =? "")%string
  then (Err "SendMessage: content is required", w)
  else if Message.SenderID message =? Message.ReceiverID message
  then (Err "SendMessage: sender and receiver cannot be the same", w)
  else
    match GetUserByID (Message.SenderID message) w with
    | (inl _, w1) => (Err "SendMessage: sender does not exist", w1)
    | (inr _, w1) =>
        match GetUserByID (Message.ReceiverID message) w1 with
        | (inl _, w2) => (Err "SendMessage: receiver does not exist", w2)
        | (inr _, w2) =>
            match MessageRepository.SendMessage message w2 with
            | (inl e, w3) => (Err e, w3)
            | (inr _, w3) => (OK, w3)
            end
        end
    end.

(** [ReplyToMessage]: content, sender against the receiver as supplied,
    sender exists, parent, [message.ReceiverID = parentMessage.SenderID],
    insert. *)
Definition ReplyToMessage (message : Message.t) : M ret := fun w =>
  if (Message.Content message =? "")%string
  then (Err "ReplyToMessage: content is required", w)
  else if Message.SenderID message =? Message.ReceiverID message
  then (Err "ReplyToMessage: sender and receiver cannot be the same", w)
  else
    match GetUserByID (Message.SenderID message) w with
    | (inl _, w1) => (Err "ReplyToMessage: sender does not exist", w1)
    | (inr _, w1) =>
        match Message.ParentID message with
        | None => (NilDeref, w1)
        | Some parentID =>
            match MessageRepository.GetMessageByID parentID w1 with
            | (inl _, w2) =>
                (Err "ReplyToMessage: parent message does not exist", w2)
            | (inr parentMessage, w2) =>
                let message :=
                  Message.with_ReceiverID message
                    (Message.SenderID parentMessage) in
                match MessageRepository.SendMessage message w2 with
                | (inl e, w3) => (Err e, w3)
                | (inr _, w3) => (OK, w3)
                end
            end
        end
    end.

(** ** What the properties observe *)

(** [vote_on u t]: the row is user [u]'s vote on target [t] (the [WHERE]
    clauses of the two vote lookups). *)
Definition vote_on (userID : Z) (t : target) : Vote.t -> bool :=
  match t with
  | OnPost p => on_post userID p
  | OnComment c => on_comment userID c
  end.

(** The live votes of user [u] on target [t]. *)
Definition live_votes (userID : Z) (t : target) (d : DB) : list Vote.t :=
  filter (vote_on userID t) (votes d).

(** At most one live vote per (user, target). *)
Definition at_most_one_vote (d : DB) : Prop :=
  forall u t, (List.length (live_votes u t d) <= 1)%nat.

(** The stored score of a target: the [karma] column of its row. *)
Definition karma_of (t : target) (d : DB) : option Z :=
  match t with
  | OnPost p =>
      option_map Post.Karma (find (fun x => Post.ID x =? p) (posts d))
  | OnComment c =>
      option_map Comment.Karma (find (fun x => Comment.ID x =? c) (comments d))
  end.

(** The scores that the service handed to the repository: for every
    [UpdatePost]/[UpdateComment] in a trace, the target and the [Karma] field
    of the struct passed. *)
Definition karma_handed (c : call) : list (target * Z) :=
  match c with
  | QUpdatePost p => [(OnPost (Post.ID p), Post.Karma p)]
  | QUpdateComment x => [(OnComment (Comment.ID x), Comment.Karma x)]
  | _ => []
  end.

Definition karma_updates (tr : list call) : list (target * Z) :=
  flat_map karma_handed tr.

(** The value of a vote type, as [CastVote] scores it. *)
Definition vote_value (ty : string) : Z :=
  if (ty =? "upvote")%string then 1 else -1.

(** The vote operations of the service, for sequences of them. *)
Inductive vote_op :=
| Cast (vote : Vote.t)
| Change (vote : Vote.t)
| Remove (userID postID commentID : Z).

Definition run_op (o : vote_op) : M ret :=
  match o with
  | Cast v => CastVote v
  | Change v => ChangeVote v
  | Remove u p c => RemoveVote u p c
  end.

Fixpoint run_ops (os : list vote_op) (w : World) : World :=
  match os with
  | [] => w
  | o :: rest => run_ops rest (snd (run_op o w))
  end.

(** [RemoveVote] as the HTTP handler calls it for a target. *)
Definition RemoveVoteOn (userID : Z) (t : target) : M ret :=
  match t with
  | OnPost p => RemoveVote userID p 0
  | OnComment c => RemoveVote userID 0 c
  end.

(** [d'] shows the same score as [d] for every target. *)
Definition same_scores (d d' : DB) : Prop :=
  forall t, karma_of t d' = karma_of t d.

(** ** A running example *)

Module Example.
Definition alice := User.mk 1 "alice" "alice@example.org" "pw" 0 0.
Definition bob := User.mk 2 "bob" "bob@example.org" "pw" 0 0.
Definition post1 := Post.mk 1 "hello" "first post" 1 1 0 0 0.
Definition comment1 := Comment.mk 1 "nice" 2 1 None 0 0 0.

Definition db0 : DB := mkDB [alice; bob] [post1] [comment1] [] [] 1 0 0.
Definition w0 : World := mkWorld db0 100 [] [].

Definition upvote (u p : Z) := Vote.mk 0 u (Some p) None "upvote" 0 0.
Definition downvote (u p : Z) := Vote.mk 0 u (Some p) None "downvote" 0 0.
End Example.

(** Does the row a vote points at exist? *)
Definition target_exists (d : DB) (t : target) : bool :=
  match t with
  | OnPost p => post_exists d p
  | OnComment c => comment_exists d c
  end.

(** The statement that looks up user [u]'s vote on target [t]. *)
Definition lookup_call (userID : Z) (t : target) : call :=
  match t with
  | OnPost p => QGetVoteByUserAndPost userID p
  | OnComment c => QGetVoteByUserAndComment userID c
  end.

(** The error of a vote lookup that found no row. *)
Definition lookup_not_found_msg (t : target) : string :=
  match t with
  | OnPost _ => "GetVoteByUserAndPost: vote not found"
  | OnComment _ => "GetVoteByUserAndComment: vote not found"
  end.

(** The results of a sequence of vote operations, each with the stored score
    of target [t] once it has run. *)
Fixpoint run_observing (t : target) (os : list vote_op) (w : World)
  : list (ret * option Z) :=
  match os with
  | [] => []
  | o :: rest =>
      let (r, w') := run_op o w in
      (r, karma_of t (store w')) :: run_observing t rest w'
  end.

Module Scenario.
Import Example.

(** Score 0; A casts +1; B casts +1; A changes to -1; B removes. *)
Definition votes_on_post1 : list vote_op :=
  [Cast (upvote 1 1); Cast (upvote 2 1); Change (downvote 1 1); Remove 2 1 0].

(** A's vote on post 1, as stored. *)
Definition alice_vote := Vote.mk 1 1 (Some 1) None "upvote" 100 100.

(** The database once A has upvoted post 1. *)
Definition db1 : DB := mkDB [alice; bob] [post1] [comment1] [alice_vote] [] 1 1 0.

(** A world whose driver accepts two statements and refuses the third. *)
Definition third_statement_fails (d : DB) : World :=
  mkWorld d 100 [false; false; true] [].

(** A has written to B. *)
Definition hello := Message.mk 1 1 2 "hello bob" None 50 50.
Definition db_mail : DB := mkDB [alice; bob] [post1] [comment1] [] [hello] 1 0 1.
Definition w_mail : World := mkWorld db_mail 100 [] [].

(** A answers her own message, naming B as receiver. *)
Definition self_reply := Message.mk 0 1 2 "are you there?" (Some 1) 0 0.

(** B answers A's message, naming himself as receiver. *)
Definition misaddressed_reply := Message.mk 0 2 2 "hi alice" (Some 1) 0 0.
(** Two users answer comment 1 within the same second. *)
Definition reply_a := Comment.mk 0 "agreed" 1 1 (Some 1) 0 0 0.
Definition reply_b := Comment.mk 0 "same here" 2 1 (Some 1) 0 0 0.
Definition db_thread : DB :=
  store (snd (ReplyToComment reply_b (snd (ReplyToComment reply_a w0)))).

(** The world after a statement that the driver refused: A's upvote of
    post 1, whose lookup failed. *)
Definition after_refusal : World :=
  snd (CastVote (upvote 1 1) (mkWorld db0 100 [true] [])).

(** The two replies as stored. *)
Definition stored_a := Comment.mk 2 "agreed" 1 1 (Some 1) 0 100 100.
Definition stored_b := Comment.mk 3 "same here" 2 1 (Some 1) 0 100 100.
End Scenario.

(** Changing a vote on a post whose stored score is 5. *)
Module Flip.
(** Post 1 with stored score 5; A's upvote on it, cast at time 100. *)
Definition post := Post.mk 1 "hello" "first post" 1 1 5 0 0.
Definition stored_vote := Vote.mk 1 1 (Some 1) None "upvote" 100 100.
Definition w : World :=
  mkWorld (mkDB [Example.alice; Example.bob] [post] [Example.comment1]
             [stored_vote] [] 1 1 0)
          200 [] [].

(** A's request, at time 200: downvote. *)
Definition request := Vote.mk 0 1 (Some 1) None "downvote" 0 0.
End Flip.

(** The error of the karma update for a target without a row. *)
Definition target_not_found_msg (t : target) : string :=
  match t with
  | OnPost _ => "GetPostByID: post not found"
  | OnComment _ => "GetCommentByID: comment not found"
  end.

(** ** Proof tools *)

Ltac by_cases_on_read :=
  intros; cbv beta delta [GetUserByID GetPostByID GetCommentByID
    GetVoteByUserAndPost GetVoteByUserAndComment
    MessageRepository.GetMessageByID];
  cbv zeta;
  destruct (failing _); [reflexivity |];
  match goal with
  | |- context [find ?f ?l] => destruct (find f l); reflexivity
  end.

(** A repository call never brings the foreign keys back. *)
Ltac by_cases_on_call :=
  cbv zeta;
  repeat match goal with
    | |- context [if ?b then _ else _] => destruct b
    | |- context [find ?f ?l] => destruct (find f l)
    end;
  unfold with_store, sent; cbn [snd fst foreign_keys];
  let H := fresh "Hconn" in
  intros H; apply andb_true_iff in H; tauto.

(** While nothing is refused a repository call keeps the connection. *)
Ltac by_cases_on_quiet_call :=
  cbv zeta;
  let Hf := fresh "Hf" in
  intros Hf; unfold failing; rewrite Hf; cbv beta iota;
  repeat match goal with
    | |- context [if ?b then _ else _] => destruct b
    | |- context [find ?f ?l] => destruct (find f l)
    end;
  unfold with_store, sent, failing; cbn [snd fst foreign_keys faults];
  rewrite Hf; (split; [reflexivity | apply andb_true_r]).

(** ** More of the services and repositories *)

(** [GetVote] ([vote_service.go]): both ids given is refused; otherwise the
    lookup chosen by [postID != 0]. *)
Definition GetVote (userID postID commentID : Z) : M (result Vote.t) :=
  fun w =>
  if negb (postID =? 0) && negb (commentID =? 0)
  then (inl "GetVote: vote must be on either a post or a comment"%string, w)
  else
    match (if negb (postID =? 0)
           then GetVoteByUserAndPost userID postID w
           else GetVoteByUserAndComment userID commentID w) with
    | (inl e, w1) => (inl e, w1)
    | (inr vote, w1) => (inr vote, w1)
    end.

(** [GetVote] for the vote of a user on one target. *)
Definition GetVoteOn (userID : Z) (t : target) : M (result Vote.t) :=
  match t with
  | OnPost p => GetVote userID p 0
  | OnComment c => GetVote userID 0 c
  end.

(** [existingComment.Content = comment.Content]. *)
Definition comment_with_Content (c : Comment.t) (content : string)
  : Comment.t :=
  Comment.mk (Comment.ID c) content (Comment.AuthorID c) (Comment.PostID c)
             (Comment.ParentID c) (Comment.Karma c) (Comment.CreatedAt c)
             (Comment.UpdatedAt c).

(** [existingPost.Title = post.Title; existingPost.Content = post.Content]. *)
Definition post_with_Title_Content (p : Post.t) (title content : string)
  : Post.t :=
  Post.mk (Post.ID p) title content (Post.AuthorID p) (Post.SubredditID p)
          (Post.Karma p) (Post.CreatedAt p) (Post.UpdatedAt p).

Module CommentService.
(** [UpdateComment] ([comment_service.go]): content, the stored comment, its
    content replaced, the update. *)
Definition UpdateComment (comment : Comment.t) : M ret := fun w =>
  if (Comment.Content comment =? "")%string
  then (Err "UpdateComment: content is required", w)
  else
    match GetCommentByID (Comment.ID comment) w with
    | (inl _, w1) => (Err "UpdateComment: comment does not exist", w1)
    | (inr existingComment, w1) =>
        let existingComment :=
          comment_with_Content existingComment (Comment.Content comment) in
        match UpdateComment existingComment w1 with
        | (inl e, w2) => (Err e, w2)
        | (inr _, w2) => (OK, w2)
        end
    end.
End CommentService.

Module PostService.
(** [UpdatePost] ([post_service.go]): title and content, the stored post, its
    title and content replaced, the update. *)
Definition UpdatePost (post : Post.t) : M ret := fun w =>
  if (Post.Title post =? "")%string || (Post.Content post =? "")%string
  then (Err "UpdatePost: title and content are required", w)
  else
    match GetPostByID (Post.ID post) w with
    | (inl _, w1) => (Err "UpdatePost: post does not exist", w1)
    | (inr existingPost, w1) =>
        let existingPost :=
          post_with_Title_Content existingPost (Post.Title post)
            (Post.Content post) in
        match UpdatePost existingPost w1 with
        | (inl e, w2) => (Err e, w2)
        | (inr _, w2) => (OK, w2)
        end
    end.
End PostService.

Module MessageService.
(** [GetMessageByID] ([message_service.go]) hands on what the repository
    returns. *)
Definition GetMessageByID (id : Z) : M (result Message.t) := fun w =>
  match MessageRepository.GetMessageByID id w with
  | (inl e, w1) => (inl e, w1)
  | (inr message, w1) => (inr message, w1)
  end.
End MessageService.

(** Non-increasing creation time. *)
Definition newest_first {A : Type} (created_at : A -> time) (rows : list A)
  : Prop :=
  StronglySorted (fun a b => created_at b <= created_at a) rows.

(** [ORDER BY created_at DESC], as [order_by_created_at_asc]. *)
Definition order_by_created_at_desc {A : Type} (created_at : A -> time)
           (selected out : list A) : Prop :=
  Permutation selected out /\ newest_first created_at out.

(** [WHERE post_id = $1 AND parent_id IS NULL]. *)
Definition top_level_comments (d : DB) (postID : Z) : list Comment.t :=
  filter (fun c => (Comment.PostID c =? postID)
                   && is_null (Comment.ParentID c)) (comments d).

(** The row sets a successful [GetCommentsByPost(postID, limit, offset)] of
    the comment repository can return. *)
Definition GetCommentsByPost (d : DB) (postID limit offset : Z)
           (rows : list Comment.t) : Prop :=
  exists sorted,
    order_by_created_at_desc Comment.CreatedAt (top_level_comments d postID)
      sorted
    /\ rows = limit_offset limit offset sorted.

(** [WHERE receiver_id = $1 AND parent_id IS NULL]. *)
Definition inbox (d : DB) (userID : Z) : list Message.t :=
  filter (fun m => (Message.ReceiverID m =? userID)
                   && is_null (Message.ParentID m)) (messages d).

(** The row sets a successful [GetMessagesForUser(userID, limit, offset)] of
    the message repository can return. *)
Definition GetMessagesForUser (d : DB) (userID limit offset : Z)
           (rows : list Message.t) : Prop :=
  exists sorted,
    order_by_created_at_desc Message.CreatedAt (inbox d userID) sorted
    /\ rows = limit_offset limit offset sorted.

(** [WHERE subreddit_id = $1]. *)
Definition posts_of_subreddit (d : DB) (subredditID : Z) : list Post.t :=
  filter (fun p => Post.SubredditID p =? subredditID) (posts d).

(** The row sets a successful [GetPostsBySubreddit] can return. *)
Definition GetPostsBySubreddit (d : DB) (subredditID limit offset : Z)
           (rows : list Post.t) : Prop :=
  exists sorted,
    order_by_created_at_desc Post.CreatedAt (posts_of_subreddit d subredditID)
      sorted
    /\ rows = limit_offset limit offset sorted.

(** The row sets a successful [GetFeedPosts] can return. *)
Definition GetFeedPosts (d : DB) (limit offset : Z) (rows : list Post.t)
  : Prop :=
  exists sorted,
    order_by_created_at_desc Post.CreatedAt (posts d) sorted
    /\ rows = limit_offset limit offset sorted.

(** What an edit must not touch: everything of a comment but its content and
    update time. *)
Definition comment_frame (c : Comment.t)
  : Z * Z * Z * option Z * Z * time :=
  (Comment.ID c, Comment.AuthorID c, Comment.PostID c, Comment.ParentID c,
   Comment.Karma c, Comment.CreatedAt c).

(** Everything of a post but its title, content and update time. *)
Definition post_frame (p : Post.t) : Z * Z * Z * Z * time :=
  (Post.ID p, Post.AuthorID p, Post.SubredditID p, Post.Karma p,
   Post.CreatedAt p).

(** Every vote on a single target points at a stored row (the foreign keys
    of the votes table). *)
Definition votes_have_targets (d : DB) : Prop :=
  forall v t, In v (votes d) -> target_of v = Some t ->
              target_exists d t = true.

(** A thread whose replies were written at different times. *)
Module Thread.
Definition first := Comment.mk 2 "agreed" 1 1 (Some 1) 0 100 100.
Definition second := Comment.mk 3 "same here" 2 1 (Some 1) 0 200 200.
Definition db : DB :=
  mkDB [Example.alice; Example.bob] [Example.post1]
       [Example.comment1; first; second] [] [] 3 0 0.
End Thread.

(** * Properties *)

(** ** The driver *)

Lemma failing_no_faults w : faults w = [] -> failing w = false.
Proof. unfold failing. now intros ->. Qed.

Lemma sent_no_faults c w : faults w = [] -> faults (sent c w) = [].
Proof. unfold sent. simpl. now intros ->. Qed.

Lemma sent_store c w : store (sent c w) = store w.
Proof. reflexivity. Qed.

Lemma sent_foreign_keys c w :
  faults w = [] -> foreign_keys (sent c w) = foreign_keys w.
Proof.
  intros Hf. unfold sent, failing. simpl. rewrite Hf. apply andb_true_r.
Qed.

(** Rows whose references are found pass on every connection. *)
Lemma references_ok_found w : references_ok w true = true.
Proof. unfold references_ok. apply orb_true_r. Qed.

Lemma references_ok_enforced w found :
  foreign_keys w = true -> references_ok w found = found.
Proof. unfold references_ok. now intros ->. Qed.

Lemma references_ok_off w found :
  foreign_keys w = false -> references_ok w found = true.
Proof. unfold references_ok. now intros ->. Qed.

Lemma sent_trace c w : trace (sent c w) = trace w ++ [c].
Proof. reflexivity. Qed.

(** ** Reads leave the database alone *)

Lemma GetUserByID_store id w : store (snd (GetUserByID id w)) = store w.
Proof. by_cases_on_read. Qed.

Lemma GetPostByID_store id w : store (snd (GetPostByID id w)) = store w.
Proof. by_cases_on_read. Qed.

Lemma GetCommentByID_store id w : store (snd (GetCommentByID id w)) = store w.
Proof. by_cases_on_read. Qed.

Lemma GetVoteByUserAndPost_store u p w :
  store (snd (GetVoteByUserAndPost u p w)) = store w.
Proof. by_cases_on_read. Qed.

Lemma GetVoteByUserAndComment_store u c w :
  store (snd (GetVoteByUserAndComment u c w)) = store w.
Proof. by_cases_on_read. Qed.

Lemma GetVoteByUserAndTarget_store u t w :
  store (snd (GetVoteByUserAndTarget u t w)) = store w.
Proof.
  destruct t; simpl.
  - apply GetVoteByUserAndPost_store.
  - apply GetVoteByUserAndComment_store.
Qed.

Lemma GetMessageByID_store id w :
  store (snd (MessageRepository.GetMessageByID id w)) = store w.
Proof. by_cases_on_read. Qed.

(** ** What each write does to the tables *)

Lemma UpdatePost_store p w :
  store (snd (UpdatePost p w)) = store w
  \/ store (snd (UpdatePost p w))
     = set_posts (store w)
         (map (update_post_row p (clock w)) (posts (store w))).
Proof.
  unfold UpdatePost; cbv zeta.
  destruct (failing w); [now left |].
  destruct (post_exists (store w) (Post.ID p)); [now right | now left].
Qed.

Lemma UpdateComment_store c w :
  store (snd (UpdateComment c w)) = store w
  \/ store (snd (UpdateComment c w))
     = set_comments (store w)
         (map (update_comment_row c (clock w)) (comments (store w)))
         (seq_comments (store w)).
Proof.
  unfold UpdateComment; cbv zeta.
  destruct (failing w); [now left |].
  destruct (comment_exists (store w) (Comment.ID c)); [now right | now left].
Qed.

Lemma CreateVote_store v w :
  match fst (CreateVote v w) with
  | inl _ => store (snd (CreateVote v w)) = store w
  | inr row =>
      store (snd (CreateVote v w))
      = set_votes (store w) (votes (store w) ++ [row]) (Vote.ID row)
      /\ Vote.UserID row = Vote.UserID v
      /\ Vote.PostID row = Vote.PostID v
      /\ Vote.CommentID row = Vote.CommentID v
      /\ Vote.VoteType row = Vote.VoteType v
  end.
Proof.
  unfold CreateVote; cbv zeta.
  destruct (failing w); [reflexivity |].
  destruct (negb (vote_type_ok (Vote.VoteType v))); [reflexivity |].
  destruct (existsb (unique_clash v) (votes (store w))); [reflexivity |].
  destruct (references_ok w _); simpl; auto.
Qed.

Lemma UpdateVote_store v w :
  store (snd (UpdateVote v w)) = store w
  \/ store (snd (UpdateVote v w))
     = set_votes (store w)
         (map (update_vote_row v (clock w)) (votes (store w)))
         (seq_votes (store w)).
Proof.
  unfold UpdateVote; cbv zeta.
  destruct (failing w); [now left |].
  destruct (negb (existsb _ (votes (store w)))); [now left |].
  destruct (negb (vote_type_ok (Vote.VoteType v))); [now left | now right].
Qed.

Lemma DeleteVote_store v w :
  store (snd (DeleteVote v w)) = store w
  \/ store (snd (DeleteVote v w))
     = set_votes (store w)
         (filter (fun row => negb (Vote.ID row =? Vote.ID v))
            (votes (store w)))
         (seq_votes (store w)).
Proof.
  unfold DeleteVote; cbv zeta.
  destruct (failing w); [now left |].
  destruct (existsb _ (votes (store w))); [now right | now left].
Qed.

(** ** The stored score is not written by the vote service *)

Lemma same_scores_refl d : same_scores d d.
Proof. intro t. reflexivity. Qed.

Lemma same_scores_trans d1 d2 d3 :
  same_scores d1 d2 -> same_scores d2 d3 -> same_scores d1 d3.
Proof. intros H12 H23 t. now rewrite H23, H12. Qed.

Lemma same_scores_tables d d' :
  posts d' = posts d -> comments d' = comments d -> same_scores d d'.
Proof.
  intros Hp Hc [p | c]; simpl; now rewrite ?Hp, ?Hc.
Qed.

Lemma find_map_observed {A} (key obs : A -> Z) (g : A -> A) id rows :
  (forall x, key (g x) = key x) ->
  (forall x, obs (g x) = obs x) ->
  option_map obs (find (fun x => key x =? id) (map g rows))
  = option_map obs (find (fun x => key x =? id) rows).
Proof.
  intros Hkey Hobs.
  induction rows as [| x rows IH]; simpl; [reflexivity |].
  rewrite Hkey.
  destruct (key x =? id); simpl; [now rewrite Hobs | exact IH].
Qed.

Lemma update_post_row_ID p now row :
  Post.ID (update_post_row p now row) = Post.ID row.
Proof. unfold update_post_row. now destruct (Post.ID row =? Post.ID p). Qed.

Lemma update_post_row_Karma p now row :
  Post.Karma (update_post_row p now row) = Post.Karma row.
Proof. unfold update_post_row. now destruct (Post.ID row =? Post.ID p). Qed.

Lemma update_comment_row_ID c now row :
  Comment.ID (update_comment_row c now row) = Comment.ID row.
Proof.
  unfold update_comment_row. now destruct (Comment.ID row =? Comment.ID c).
Qed.

Lemma update_comment_row_Karma c now row :
  Comment.Karma (update_comment_row c now row) = Comment.Karma row.
Proof.
  unfold update_comment_row. now destruct (Comment.ID row =? Comment.ID c).
Qed.

Lemma UpdatePost_same_scores p w :
  same_scores (store w) (store (snd (UpdatePost p w))).
Proof.
  destruct (UpdatePost_store p w) as [-> | ->];
    [apply same_scores_refl |].
  intros [q | c]; simpl; [| reflexivity].
  apply (find_map_observed Post.ID Post.Karma).
  - apply update_post_row_ID.
  - apply update_post_row_Karma.
Qed.

Lemma UpdateComment_same_scores c w :
  same_scores (store w) (store (snd (UpdateComment c w))).
Proof.
  destruct (UpdateComment_store c w) as [-> | ->];
    [apply same_scores_refl |].
  intros [q | x]; simpl; [reflexivity |].
  apply (find_map_observed Comment.ID Comment.Karma).
  - apply update_comment_row_ID.
  - apply update_comment_row_Karma.
Qed.

Lemma CreateVote_same_scores v w :
  same_scores (store w) (store (snd (CreateVote v w))).
Proof.
  pose proof (CreateVote_store v w) as H.
  destruct (fst (CreateVote v w)).
  - rewrite H. apply same_scores_refl.
  - destruct H as [-> _]. now apply same_scores_tables.
Qed.

Lemma UpdateVote_same_scores v w :
  same_scores (store w) (store (snd (UpdateVote v w))).
Proof.
  destruct (UpdateVote_store v w) as [-> | ->];
    [apply same_scores_refl | now apply same_scores_tables].
Qed.

Lemma DeleteVote_same_scores v w :
  same_scores (store w) (store (snd (DeleteVote v w))).
Proof.
  destruct (DeleteVote_store v w) as [-> | ->];
    [apply same_scores_refl | now apply same_scores_tables].
Qed.

Lemma UpdateKarma_same_scores ty id delta w :
  same_scores (store w) (store (snd (UpdateKarma ty id delta w))).
Proof.
  unfold UpdateKarma.
  destruct (ty =? "post")%string.
  - pose proof (GetPostByID_store id w) as Hget.
    destruct (GetPostByID id w) as [[e | post] w1]; simpl in *.
    + rewrite Hget. apply same_scores_refl.
    + pose proof (UpdatePost_same_scores
                    (Post.with_Karma post (int_add (Post.Karma post) delta))
                    w1) as Hup.
      rewrite Hget in Hup.
      now destruct (UpdatePost _ w1) as [[e | r] w2].
  - destruct (ty =? "comment")%string; [| apply same_scores_refl].
    pose proof (GetCommentByID_store id w) as Hget.
    destruct (GetCommentByID id w) as [[e | c] w1]; simpl in *.
    + rewrite Hget. apply same_scores_refl.
    + pose proof (UpdateComment_same_scores
                    (Comment.with_Karma c (int_add (Comment.Karma c) delta))
                    w1) as Hup.
      rewrite Hget in Hup.
      now destruct (UpdateComment _ w1) as [[e | r] w2].
Qed.

Lemma UpdateKarmaOn_same_scores t delta w :
  same_scores (store w) (store (snd (UpdateKarmaOn t delta w))).
Proof. destruct t; apply UpdateKarma_same_scores. Qed.

Lemma CastVote_same_scores v w :
  same_scores (store w) (store (snd (CastVote v w))).
Proof.
  unfold CastVote.
  destruct (target_of v) as [t |]; [| apply same_scores_refl].
  pose proof (GetVoteByUserAndTarget_store (Vote.UserID v) t w) as Hget.
  destruct (GetVoteByUserAndTarget _ t w) as [[e | x] w1]; simpl in Hget.
  2: { simpl. rewrite Hget. apply same_scores_refl. }
  destruct (negb _ && negb _).
  { simpl. rewrite Hget. apply same_scores_refl. }
  pose proof (CreateVote_same_scores v w1) as Hc. rewrite Hget in Hc.
  destruct (CreateVote v w1) as [[e' | row] w2]; simpl in *; [exact Hc |].
  eapply same_scores_trans; [exact Hc | apply UpdateKarmaOn_same_scores].
Qed.

Lemma ChangeVote_same_scores v w :
  same_scores (store w) (store (snd (ChangeVote v w))).
Proof.
  unfold ChangeVote.
  destruct (negb _ && negb _); [apply same_scores_refl |].
  destruct (target_of v) as [t |]; [| apply same_scores_refl].
  pose proof (GetVoteByUserAndTarget_store (Vote.UserID v) t w) as Hget.
  destruct (GetVoteByUserAndTarget _ t w) as [[e | x] w1]; simpl in Hget.
  { simpl. rewrite Hget. apply same_scores_refl. }
  destruct (Vote.VoteType x =? Vote.VoteType v)%string.
  { simpl. rewrite Hget. apply same_scores_refl. }
  pose proof (UpdateVote_same_scores
                (Vote.with_VoteType x (Vote.VoteType v)) w1) as Hu.
  rewrite Hget in Hu.
  destruct (UpdateVote _ w1) as [[e' | row] w2]; simpl in *; [exact Hu |].
  eapply same_scores_trans; [exact Hu | apply UpdateKarmaOn_same_scores].
Qed.

Lemma RemoveVote_same_scores u p c w :
  same_scores (store w) (store (snd (RemoveVote u p c w))).
Proof.
  unfold RemoveVote.
  assert (Hget : store (snd (if negb (p =? 0)
                             then GetVoteByUserAndPost u p w
                             else GetVoteByUserAndComment u c w)) = store w).
  { destruct (negb (p =? 0));
      [apply GetVoteByUserAndPost_store | apply GetVoteByUserAndComment_store]. }
  destruct (if negb (p =? 0) then _ else _) as [[e | x] w1]; simpl in Hget.
  { simpl. rewrite Hget. apply same_scores_refl. }
  pose proof (DeleteVote_same_scores x w1) as Hd. rewrite Hget in Hd.
  destruct (DeleteVote x w1) as [[e' |] w2]; simpl in *; [exact Hd |].
  destruct (Vote.PostID x) as [q |].
  - eapply same_scores_trans; [exact Hd | apply UpdateKarma_same_scores].
  - destruct (Vote.CommentID x) as [q |]; [| exact Hd].
    eapply same_scores_trans; [exact Hd | apply UpdateKarma_same_scores].
Qed.

(** No vote operation, successful or not, changes a stored score. *)
Lemma run_op_same_scores o w :
  same_scores (store w) (store (snd (run_op o w))).
Proof.
  destruct o; simpl.
  - apply CastVote_same_scores.
  - apply ChangeVote_same_scores.
  - apply RemoveVote_same_scores.
Qed.

(** ** The score scenario *)

(** C1.  The scenario "score 0; A casts +1; B casts +1; A changes to -1;
    B removes" run on the service: all four operations succeed, the scores
    handed to [UpdatePost] are 1, 1, -2 and -1 (each computed from the stored
    0), and the stored score of the post is 0 after every one of them, not
    1, 2, 0, -1. *)
Theorem scenario_stored_score_stays_zero :
  run_observing (OnPost 1) Scenario.votes_on_post1 Example.w0
  = [(OK, Some 0); (OK, Some 0); (OK, Some 0); (OK, Some 0)]
  /\ karma_updates (trace (run_ops Scenario.votes_on_post1 Example.w0))
     = [(OnPost 1, 1); (OnPost 1, 1); (OnPost 1, -2); (OnPost 1, -1)].
Proof. split; vm_compute; reflexivity. Qed.

(** ** No rollback *)

(** The karma update cannot undo a vote write: it never touches the votes. *)
Lemma UpdateKarma_votes ty id delta w :
  votes (store (snd (UpdateKarma ty id delta w))) = votes (store w).
Proof.
  unfold UpdateKarma.
  destruct (ty =? "post")%string.
  - pose proof (GetPostByID_store id w) as Hget.
    destruct (GetPostByID id w) as [[e | post] w1]; simpl in *;
      [now rewrite Hget |].
    rewrite <- Hget.
    destruct (UpdatePost_store
                (Post.with_Karma post (int_add (Post.Karma post) delta)) w1)
      as [H | H];
      destruct (UpdatePost _ w1) as [[e | r] w2]; simpl in *; now rewrite H.
  - destruct (ty =? "comment")%string; [| reflexivity].
    pose proof (GetCommentByID_store id w) as Hget.
    destruct (GetCommentByID id w) as [[e | c] w1]; simpl in *;
      [now rewrite Hget |].
    rewrite <- Hget.
    destruct (UpdateComment_store
                (Comment.with_Karma c (int_add (Comment.Karma c) delta)) w1)
      as [H | H];
      destruct (UpdateComment _ w1) as [[e | r] w2]; simpl in *; now rewrite H.
Qed.

Lemma UpdateKarmaOn_votes t delta w :
  votes (store (snd (UpdateKarmaOn t delta w))) = votes (store w).
Proof. destruct t; apply UpdateKarma_votes. Qed.

(** C2 does not hold as stated: nothing undoes the vote write when the
    karma update fails.  The driver accepts the vote lookup and the vote
    write and refuses the score read.  Cast: the error is returned and the
    inserted vote stays.  Change: the error is returned and the vote stays
    flipped.  Remove: the error is returned and the vote stays deleted. *)
Lemma vote_write_survives_failed_karma_update :
  (let (r, w') := CastVote (Example.upvote 1 1)
                    (Scenario.third_statement_fails Example.db0) in
   r = Err "GetPostByID: driver: bad connection"
   /\ live_votes 1 (OnPost 1) (store w') = [Scenario.alice_vote])
  /\ (let (r, w') := ChangeVote (Example.downvote 1 1)
                       (Scenario.third_statement_fails Scenario.db1) in
      r = Err "GetPostByID: driver: bad connection"
      /\ live_votes 1 (OnPost 1) (store w')
         = [Vote.with_VoteType Scenario.alice_vote "downvote"])
  /\ (let (r, w') := RemoveVote 1 1 0
                       (Scenario.third_statement_fails Scenario.db1) in
      r = Err "GetPostByID: driver: bad connection"
      /\ live_votes 1 (OnPost 1) (store w') = []).
Proof. repeat split; vm_compute; reflexivity. Qed.

(** ** Self-addressed messages *)

(** [SendMessage] refuses a message to oneself before any statement is
    sent. *)
Lemma SendMessage_self_rejected m w :
  Message.Content m <> ""%string ->
  Message.SenderID m = Message.ReceiverID m ->
  SendMessage m w
  = (Err "SendMessage: sender and receiver cannot be the same", w).
Proof.
  intros Hc Hs. unfold SendMessage.
  apply String.eqb_neq in Hc. rewrite Hc.
  apply Z.eqb_eq in Hs. now rewrite Hs.
Qed.

(** C4.  [ReplyToMessage] compares the sender with the receiver the caller
    supplied, and only afterwards replaces the receiver by the parent's
    sender.  A's reply to her own message, addressed to B, is stored with
    sender 1 and receiver 1; B's reply to A's message, wrongly addressed to
    himself, is refused although its derived receiver is A. *)
Theorem reply_to_own_message_is_stored :
  (let (r, w') := ReplyToMessage Scenario.self_reply Scenario.w_mail in
   r = OK
   /\ messages (store w')
      = [Scenario.hello;
         Message.mk 2 1 1 "are you there?" (Some 1) 100 100])
  /\ ReplyToMessage Scenario.misaddressed_reply Scenario.w_mail
     = (Err "ReplyToMessage: sender and receiver cannot be the same",
        Scenario.w_mail).
Proof. split; vm_compute; repeat split; reflexivity. Qed.

(** ** Targets that are neither or both *)

Lemma CastVote_invalid_target vote w :
  target_of vote = None ->
  CastVote vote w
  = (Err "CastVote: vote must be on either a post or a comment", w).
Proof. intros H. unfold CastVote. now rewrite H. Qed.

Lemma ChangeVote_invalid_target vote w :
  vote_type_ok (Vote.VoteType vote) = true ->
  target_of vote = None ->
  ChangeVote vote w
  = (Err "ChangeVote: vote must be on either a post or a comment", w).
Proof.
  intros Hty H. unfold ChangeVote. rewrite H.
  unfold vote_type_ok in Hty.
  now destruct (Vote.VoteType vote =? "upvote")%string,
               (Vote.VoteType vote =? "downvote")%string.
Qed.

(** C6.  [RemoveVote] has no check of its target.  Given both a post id
    and a comment id it removes the caller's vote on the post; given neither
    it sends the comment lookup and reports that no vote was found. *)
Theorem RemoveVote_accepts_both_and_neither :
  (let (r, w') := RemoveVote 1 1 1 (mkWorld Scenario.db1 100 [] []) in
   r = OK
   /\ votes (store w') = []
   /\ trace w' = [QGetVoteByUserAndPost 1 1; QDeleteVote Scenario.alice_vote;
                  QGetPostByID 1;
                  QUpdatePost (Post.with_Karma Example.post1 (-1))])
  /\ (let (r, w') := RemoveVote 1 0 0 (mkWorld Scenario.db1 100 [] []) in
      r = Err "RemoveVote: GetVoteByUserAndComment: vote not found"
      /\ trace w' = [QGetVoteByUserAndComment 1 0]).
Proof. split; vm_compute; repeat split; reflexivity. Qed.

(** ** One vote per user and target *)

Lemma find_none_filter {A} (f : A -> bool) rows :
  find f rows = None <-> filter f rows = [].
Proof.
  induction rows as [| x rows IH]; simpl; [tauto |].
  destruct (f x); [split; discriminate | exact IH].
Qed.

Lemma filter_map_length {A} (f : A -> bool) (g : A -> A) rows :
  (forall x, f (g x) = f x) ->
  List.length (filter f (map g rows)) = List.length (filter f rows).
Proof.
  intros Hfg.
  induction rows as [| x rows IH]; simpl; [reflexivity |].
  rewrite Hfg. destruct (f x); simpl; now rewrite IH.
Qed.

Lemma filter_filter_length {A} (f g : A -> bool) rows :
  (List.length (filter f (filter g rows)) <= List.length (filter f rows))%nat.
Proof.
  induction rows as [| x rows IH]; simpl; [lia |].
  destruct (g x); simpl; destruct (f x); simpl; lia.
Qed.

(** A vote row is the vote of one user on one target. *)
Lemma vote_on_unique u t u' t' row :
  vote_on u t row = true -> vote_on u' t' row = true -> u = u' /\ t = t'.
Proof.
  destruct t as [p | c], t' as [p' | c']; simpl;
    unfold on_post, on_comment, opt_eqb, is_null;
    destruct (Vote.PostID row), (Vote.CommentID row);
    rewrite ?andb_true_iff, ?Z.eqb_eq;
    intros H H'; try (intuition discriminate);
    split; [lia | f_equal; lia | lia | f_equal; lia].
Qed.

Lemma vote_on_target_of vote t row :
  target_of vote = Some t ->
  Vote.UserID row = Vote.UserID vote ->
  Vote.PostID row = Vote.PostID vote ->
  Vote.CommentID row = Vote.CommentID vote ->
  vote_on (Vote.UserID vote) t row = true.
Proof.
  unfold target_of. intros Ht Hu Hp Hc.
  destruct (Vote.PostID vote) as [p |], (Vote.CommentID vote) as [c |];
    inversion Ht; subst t; simpl; unfold on_post, on_comment;
    rewrite Hu, Hp, Hc; simpl; now rewrite !Z.eqb_refl.
Qed.

Lemma update_vote_row_vote_on u t v now row :
  vote_on u t (update_vote_row v now row) = vote_on u t row.
Proof.
  unfold update_vote_row.
  destruct (Vote.ID row =? Vote.ID v); [| reflexivity].
  now destruct t.
Qed.

(** [CastVote] goes on to the insert only when the lookup found nothing. *)
Lemma lookup_not_found u t w e w1 :
  GetVoteByUserAndTarget u t w = (inl e, w1) ->
  negb (e =? "GetVoteByUserAndPost: vote not found")%string
  && negb (e =? "GetVoteByUserAndComment: vote not found")%string = false ->
  find (vote_on u t) (votes (store w)) = None.
Proof.
  destruct t as [p | c]; simpl;
    unfold GetVoteByUserAndPost, GetVoteByUserAndComment; cbv zeta;
    (destruct (failing w);
     [intros H; inversion H; subst; vm_compute; discriminate |]);
    match goal with
    | |- context [find ?f ?l] => destruct (find f l)
    end; intros H; now inversion H.
Qed.

Lemma CastVote_at_most_one vote w :
  at_most_one_vote (store w) ->
  at_most_one_vote (store (snd (CastVote vote w))).
Proof.
  intros Hinv. unfold CastVote.
  destruct (target_of vote) as [t |] eqn:Ht; [| exact Hinv].
  pose proof (GetVoteByUserAndTarget_store (Vote.UserID vote) t w) as Hget.
  destruct (GetVoteByUserAndTarget _ t w) as [[e | x] w1] eqn:Hlook;
    simpl in Hget.
  2: { simpl. now rewrite Hget. }
  destruct (negb _ && negb _) eqn:Hnf.
  { simpl. now rewrite Hget. }
  apply (lookup_not_found _ _ _ _ _ Hlook) in Hnf.
  apply find_none_filter in Hnf.
  pose proof (CreateVote_store vote w1) as Hc.
  destruct (CreateVote vote w1) as [[e' | row] w2]; simpl in *.
  { now rewrite Hc, Hget. }
  destruct Hc as (Hst & Hu & Hp & Hcm & _).
  intros u' t'. unfold live_votes.
  rewrite UpdateKarmaOn_votes, Hst, Hget. simpl.
  rewrite filter_app, length_app. simpl.
  destruct (vote_on u' t' row) eqn:Hrow; simpl.
  - pose proof (vote_on_target_of _ _ _ Ht Hu Hp Hcm) as Hmine.
    destruct (vote_on_unique _ _ _ _ _ Hmine Hrow) as [<- <-].
    rewrite Hnf. simpl. lia.
  - specialize (Hinv u' t'). unfold live_votes in Hinv. lia.
Qed.

Lemma ChangeVote_at_most_one vote w :
  at_most_one_vote (store w) ->
  at_most_one_vote (store (snd (ChangeVote vote w))).
Proof.
  intros Hinv. unfold ChangeVote.
  destruct (negb _ && negb _); [exact Hinv |].
  destruct (target_of vote) as [t |]; [| exact Hinv].
  pose proof (GetVoteByUserAndTarget_store (Vote.UserID vote) t w) as Hget.
  destruct (GetVoteByUserAndTarget _ t w) as [[e | x] w1]; simpl in Hget.
  { simpl. now rewrite Hget. }
  destruct (Vote.VoteType x =? Vote.VoteType vote)%string.
  { simpl. now rewrite Hget. }
  pose proof (UpdateVote_store
                (Vote.with_VoteType x (Vote.VoteType vote)) w1) as Hu.
  rewrite Hget in Hu.
  assert (Hmid : at_most_one_vote (store (snd (UpdateVote
            (Vote.with_VoteType x (Vote.VoteType vote)) w1)))).
  { destruct Hu as [-> | ->]; [exact Hinv |].
    intros u' t'. unfold live_votes. simpl.
    rewrite filter_map_length by apply update_vote_row_vote_on.
    apply Hinv. }
  destruct (UpdateVote _ w1) as [[e' | row] w2]; simpl in *; [exact Hmid |].
  intros u' t'. unfold live_votes. rewrite UpdateKarmaOn_votes. apply Hmid.
Qed.

Lemma RemoveVote_at_most_one u p c w :
  at_most_one_vote (store w) ->
  at_most_one_vote (store (snd (RemoveVote u p c w))).
Proof.
  intros Hinv. unfold RemoveVote.
  assert (Hget : store (snd (if negb (p =? 0)
                             then GetVoteByUserAndPost u p w
                             else GetVoteByUserAndComment u c w)) = store w).
  { destruct (negb (p =? 0));
      [apply GetVoteByUserAndPost_store | apply GetVoteByUserAndComment_store]. }
  destruct (if negb (p =? 0) then _ else _) as [[e | x] w1]; simpl in Hget.
  { simpl. now rewrite Hget. }
  pose proof (DeleteVote_store x w1) as Hd. rewrite Hget in Hd.
  assert (Hmid : at_most_one_vote (store (snd (DeleteVote x w1)))).
  { destruct Hd as [-> | ->]; [exact Hinv |].
    intros u' t'. unfold live_votes. simpl.
    eapply Nat.le_trans; [apply filter_filter_length | apply Hinv]. }
  destruct (DeleteVote x w1) as [[e' |] w2]; simpl in *; [exact Hmid |].
  destruct (Vote.PostID x) as [q |].
  - intros u' t'. unfold live_votes. rewrite UpdateKarma_votes. apply Hmid.
  - destruct (Vote.CommentID x) as [q |]; [| exact Hmid].
    intros u' t'. unfold live_votes. rewrite UpdateKarma_votes. apply Hmid.
Qed.

Lemma run_ops_at_most_one os w :
  at_most_one_vote (store w) -> at_most_one_vote (store (run_ops os w)).
Proof.
  revert w. induction os as [| o os IH]; intros w Hinv; simpl; [exact Hinv |].
  apply IH. destruct o; simpl.
  - now apply CastVote_at_most_one.
  - now apply ChangeVote_at_most_one.
  - now apply RemoveVote_at_most_one.
Qed.

(** ** Runs on a driver that refuses nothing *)

Lemma GetVoteByUserAndTarget_run u t w :
  faults w = [] ->
  GetVoteByUserAndTarget u t w
  = (match find (vote_on u t) (votes (store w)) with
     | Some v => inr v
     | None => inl (lookup_not_found_msg t)
     end, sent (lookup_call u t) w).
Proof.
  intros Hf. apply failing_no_faults in Hf.
  destruct t; simpl;
    unfold GetVoteByUserAndPost, GetVoteByUserAndComment; cbv zeta;
    rewrite Hf;
    match goal with
    | |- context [find ?f ?l] => now destruct (find f l)
    end.
Qed.

Lemma unique_clash_single_target vote t row :
  target_of vote = Some t -> unique_clash vote row = false.
Proof.
  unfold target_of, unique_clash.
  destruct (Vote.PostID vote), (Vote.CommentID vote);
    try discriminate; intros _; apply andb_false_iff; right;
    now destruct (Vote.PostID row), (Vote.CommentID row).
Qed.

Lemma no_unique_clash vote t rows :
  target_of vote = Some t -> existsb (unique_clash vote) rows = false.
Proof.
  intros Ht. induction rows as [| row rows IH]; simpl; [reflexivity |].
  now rewrite (unique_clash_single_target _ _ row Ht).
Qed.

Lemma target_fk_ok d vote t :
  target_of vote = Some t ->
  target_exists d t = true ->
  fk_ok (post_exists d) (Vote.PostID vote)
  && fk_ok (comment_exists d) (Vote.CommentID vote) = true.
Proof.
  unfold target_of.
  destruct (Vote.PostID vote), (Vote.CommentID vote);
    try discriminate; intros Ht; inversion Ht; subst t; simpl;
    intros ->; reflexivity.
Qed.

(** The repository accepts a vote of a valid type by an existing user on an
    existing target. *)
Lemma CreateVote_accepts vote t w :
  faults w = [] ->
  target_of vote = Some t ->
  vote_type_ok (Vote.VoteType vote) = true ->
  user_exists (store w) (Vote.UserID vote) = true ->
  target_exists (store w) t = true ->
  let row := Vote.mk (next_id (seq_votes (store w))
                        (map Vote.ID (votes (store w))))
               (Vote.UserID vote) (Vote.PostID vote) (Vote.CommentID vote)
               (Vote.VoteType vote) (clock w) (clock w) in
  CreateVote vote w
  = (inr row,
     with_store (sent (QCreateVote vote) w)
       (set_votes (store w) (votes (store w) ++ [row]) (Vote.ID row))).
Proof.
  intros Hf Ht Hty Hu Hex row. unfold CreateVote; cbv zeta.
  rewrite (failing_no_faults _ Hf), Hty, (no_unique_clash _ _ _ Ht), Hu.
  simpl.
  pose proof (target_fk_ok _ _ _ Ht Hex) as Hfk.
  apply andb_true_iff in Hfk as [-> ->]. simpl.
  now rewrite references_ok_found.
Qed.

Lemma find_some_exists {A} (f : A -> bool) rows x :
  find f rows = Some x -> existsb f rows = true.
Proof.
  intros H. apply find_some in H as [Hin Hf].
  apply existsb_exists. now exists x.
Qed.

Lemma karma_updates_snoc tr c :
  karma_updates (tr ++ [c]) = karma_updates tr ++ karma_handed c.
Proof.
  unfold karma_updates. rewrite flat_map_app. simpl. now rewrite app_nil_r.
Qed.

Lemma GetPostByID_run id w :
  faults w = [] ->
  GetPostByID id w
  = (match find (fun p => Post.ID p =? id) (posts (store w)) with
     | Some p => inr p
     | None => inl "GetPostByID: post not found"%string
     end, sent (QGetPostByID id) w).
Proof.
  intros Hf. unfold GetPostByID; cbv zeta.
  rewrite (failing_no_faults _ Hf). now destruct (find _ _).
Qed.

Lemma GetCommentByID_run id w :
  faults w = [] ->
  GetCommentByID id w
  = (match find (fun c => Comment.ID c =? id) (comments (store w)) with
     | Some c => inr c
     | None => inl "GetCommentByID: comment not found"%string
     end, sent (QGetCommentByID id) w).
Proof.
  intros Hf. unfold GetCommentByID; cbv zeta.
  rewrite (failing_no_faults _ Hf). now destruct (find _ _).
Qed.

Lemma GetUserByID_run id w :
  faults w = [] ->
  GetUserByID id w
  = (match find (fun u => User.ID u =? id) (users (store w)) with
     | Some u => inr u
     | None => inl "GetUserByID: user not found"%string
     end, sent (QGetUserByID id) w).
Proof.
  intros Hf. unfold GetUserByID; cbv zeta.
  rewrite (failing_no_faults _ Hf). now destruct (find _ _).
Qed.

Lemma UpdatePost_run p w :
  faults w = [] ->
  post_exists (store w) (Post.ID p) = true ->
  exists r,
    UpdatePost p w
    = (inr r,
       with_store (sent (QUpdatePost p) w)
         (set_posts (store w)
            (map (update_post_row p (clock w)) (posts (store w))))).
Proof.
  intros Hf Hex. unfold UpdatePost; cbv zeta.
  rewrite (failing_no_faults _ Hf), Hex. eauto.
Qed.

Lemma UpdateComment_run c w :
  faults w = [] ->
  comment_exists (store w) (Comment.ID c) = true ->
  exists r,
    UpdateComment c w
    = (inr r,
       with_store (sent (QUpdateComment c) w)
         (set_comments (store w)
            (map (update_comment_row c (clock w)) (comments (store w)))
            (seq_comments (store w)))).
Proof.
  intros Hf Hex. unfold UpdateComment; cbv zeta.
  rewrite (failing_no_faults _ Hf), Hex. eauto.
Qed.

(** On an existing target the karma update succeeds and hands the
    repository the stored score plus the delta, once. *)
Lemma UpdateKarmaOn_run t delta w k :
  faults w = [] ->
  karma_of t (store w) = Some k ->
  fst (UpdateKarmaOn t delta w) = OK
  /\ faults (snd (UpdateKarmaOn t delta w)) = []
  /\ clock (snd (UpdateKarmaOn t delta w)) = clock w
  /\ karma_updates (trace (snd (UpdateKarmaOn t delta w)))
     = karma_updates (trace w) ++ [(t, int_add k delta)].
Proof.
  intros Hf Hk.
  destruct t as [p | c]; simpl in *; unfold UpdateKarma; simpl.
  - rewrite (GetPostByID_run _ _ Hf).
    destruct (find (fun x => Post.ID x =? p) (posts (store w)))
      as [post |] eqn:Hfind; [| discriminate].
    inversion Hk; subst k.
    pose proof (find_some _ _ Hfind) as [_ Hid]. apply Z.eqb_eq in Hid.
    destruct (UpdatePost_run
                (Post.with_Karma post (int_add (Post.Karma post) delta))
                (sent (QGetPostByID p) w)) as [r ->].
    + now apply sent_no_faults.
    + simpl. rewrite Hid. apply (find_some_exists _ _ _ Hfind).
    + simpl. rewrite Hf. repeat split.
      rewrite !karma_updates_snoc. simpl. now rewrite app_nil_r, Hid.
  - rewrite (GetCommentByID_run _ _ Hf).
    destruct (find (fun x => Comment.ID x =? c) (comments (store w)))
      as [cm |] eqn:Hfind; [| discriminate].
    inversion Hk; subst k.
    pose proof (find_some _ _ Hfind) as [_ Hid]. apply Z.eqb_eq in Hid.
    destruct (UpdateComment_run
                (Comment.with_Karma cm (int_add (Comment.Karma cm) delta))
                (sent (QGetCommentByID c) w)) as [r ->].
    + now apply sent_no_faults.
    + simpl. rewrite Hid. apply (find_some_exists _ _ _ Hfind).
    + simpl. rewrite Hf. repeat split.
      rewrite !karma_updates_snoc. simpl. now rewrite app_nil_r, Hid.
Qed.

Lemma lookup_not_found_msg_passes t :
  negb (lookup_not_found_msg t =? "GetVoteByUserAndPost: vote not found")%string
  && negb (lookup_not_found_msg t
           =? "GetVoteByUserAndComment: vote not found")%string = false.
Proof. now destruct t. Qed.

(** [CastVote] on a driver that refuses nothing, when the caller has no vote
    on the target yet: the lookup, the insert, then the karma update. *)
Lemma CastVote_run vote t w :
  faults w = [] ->
  target_of vote = Some t ->
  find (vote_on (Vote.UserID vote) t) (votes (store w)) = None ->
  CastVote vote w
  = match CreateVote vote (sent (lookup_call (Vote.UserID vote) t) w) with
    | (inl e, w2) => (Err e, w2)
    | (inr _, w2) =>
        UpdateKarmaOn t
          (if (Vote.VoteType vote =? "upvote")%string then 1 else -1) w2
    end.
Proof.
  intros Hf Ht Hnone. unfold CastVote.
  rewrite Ht, (GetVoteByUserAndTarget_run _ _ _ Hf), Hnone.
  now rewrite lookup_not_found_msg_passes.
Qed.

(** C3.  Starting from a database with at most one live vote per (user,
    target), every sequence of CastVote, ChangeVote and RemoveVote calls,
    whatever they return and whatever the driver refuses, ends in such a
    database.  On a driver that refuses nothing, CastVote on a target the
    user has already voted on fails with the conflict error and changes
    nothing; otherwise, for a vote the repository accepts (valid type,
    existing user and target), the new vote is appended to the votes and is
    the user's one live vote on the target. *)
Theorem one_vote_per_user_and_target
        (w : World) (Hinv : at_most_one_vote (store w)) :
  (forall os, at_most_one_vote (store (run_ops os w)))
  /\ (forall vote t,
         target_of vote = Some t ->
         faults w = [] ->
         (live_votes (Vote.UserID vote) t (store w) <> [] ->
          fst (CastVote vote w)
          = Err "CastVote: user has already voted on this target"
          /\ store (snd (CastVote vote w)) = store w)
         /\ (live_votes (Vote.UserID vote) t (store w) = [] ->
             vote_type_ok (Vote.VoteType vote) = true ->
             user_exists (store w) (Vote.UserID vote) = true ->
             target_exists (store w) t = true ->
             exists row,
               votes (store (snd (CastVote vote w))) = votes (store w) ++ [row]
               /\ Vote.UserID row = Vote.UserID vote
               /\ target_of row = Some t
               /\ Vote.VoteType row = Vote.VoteType vote
               /\ live_votes (Vote.UserID vote) t
                    (store (snd (CastVote vote w))) = [row])).
Proof.
  split; [intros os; now apply run_ops_at_most_one |].
  intros vote t Ht Hf. split.
  - intros Hlive. unfold CastVote.
    rewrite Ht, (GetVoteByUserAndTarget_run _ _ _ Hf).
    destruct (find (vote_on (Vote.UserID vote) t) (votes (store w)))
      eqn:Hfind; [now split |].
    apply find_none_filter in Hfind. now elim Hlive.
  - intros Hlive Hty Hu Hex.
    pose proof Hlive as Hnone. apply find_none_filter in Hnone.
    rewrite (CastVote_run _ _ _ Hf Ht Hnone).
    rewrite (CreateVote_accepts vote t
               (sent (lookup_call (Vote.UserID vote) t) w)
               (sent_no_faults _ _ Hf) Ht Hty Hu Hex).
    eexists. rewrite UpdateKarmaOn_votes. simpl.
    split; [reflexivity |]. split; [reflexivity |].
    split; [exact Ht |]. split; [reflexivity |].
    unfold live_votes in *. rewrite UpdateKarmaOn_votes. simpl.
    rewrite filter_app, Hlive. simpl.
    now rewrite (vote_on_target_of vote t _ Ht).
Qed.

Lemma one_vote_per_user_and_target_witness :
  at_most_one_vote (store (run_ops Scenario.votes_on_post1 Example.w0))
  /\ fst (CastVote (Example.upvote 1 1) (mkWorld Scenario.db1 100 [] []))
     = Err "CastVote: user has already voted on this target"
  /\ exists row,
       votes (store (snd (CastVote (Example.upvote 1 1) Example.w0)))
       = [] ++ [row].
Proof.
  assert (H0 : at_most_one_vote (store Example.w0)).
  { intros u t. simpl. lia. }
  assert (H1 : at_most_one_vote (store (mkWorld Scenario.db1 100 [] []))).
  { intros u t. unfold live_votes. simpl.
    destruct (vote_on u t Scenario.alice_vote); simpl; lia. }
  split; [| split].
  - apply (one_vote_per_user_and_target Example.w0 H0).
  - destruct (one_vote_per_user_and_target _ H1) as [_ H].
    destruct (H (Example.upvote 1 1) (OnPost 1) eq_refl eq_refl) as [H' _].
    apply H'. discriminate.
  - destruct (one_vote_per_user_and_target Example.w0 H0) as [_ H].
    destruct (H (Example.upvote 1 1) (OnPost 1) eq_refl eq_refl) as [_ H'].
    destruct (H' eq_refl eq_refl eq_refl eq_refl) as [row [Hrow _]].
    exists row. exact Hrow.
Defined.

(** ** Changing a vote *)

Lemma find_map_commute {A} (f : A -> bool) (g : A -> A) rows :
  (forall x, f (g x) = f x) ->
  find f (map g rows) = option_map g (find f rows).
Proof.
  intros Hfg. induction rows as [| x rows IH]; simpl; [reflexivity |].
  rewrite Hfg. now destruct (f x).
Qed.

Lemma UpdateVote_run v w :
  faults w = [] ->
  existsb (fun row => Vote.ID row =? Vote.ID v) (votes (store w)) = true ->
  vote_type_ok (Vote.VoteType v) = true ->
  exists r,
    UpdateVote v w
    = (inr r,
       with_store (sent (QUpdateVote v) w)
         (set_votes (store w)
            (map (update_vote_row v (clock w)) (votes (store w)))
            (seq_votes (store w)))).
Proof.
  intros Hf Hex Hty. unfold UpdateVote; cbv zeta.
  rewrite (failing_no_faults _ Hf), Hex, Hty. simpl. eauto.
Qed.

Lemma vote_type_ok_passes ty :
  vote_type_ok ty = true ->
  negb (ty =? "upvote")%string && negb (ty =? "downvote")%string = false.
Proof.
  unfold vote_type_ok.
  now destruct (ty =? "upvote")%string, (ty =? "downvote")%string.
Qed.

Lemma lookup_call_hands_nothing u t : karma_handed (lookup_call u t) = [].
Proof. now destruct t. Qed.

Lemma change_delta_is_difference new old :
  vote_type_ok new = true ->
  vote_type_ok old = true ->
  (old =? new)%string = false ->
  (if (new =? "upvote")%string then 2 else -2)
  = vote_value new - vote_value old.
Proof.
  unfold vote_type_ok, vote_value. intros Hn Ho Hne.
  apply orb_true_iff in Hn as [Hn | Hn], Ho as [Ho | Ho];
    apply String.eqb_eq in Hn, Ho; subst; try discriminate; reflexivity.
Qed.

(** What ChangeVote returns and what it hands to the repository, on a
    driver that refuses nothing, for a requested
    vote of a valid type on a single target.  No vote of the user on the
    target: the not-found error, nothing written, no score handed to the
    repository.  An existing vote of the requested type: the no-op error,
    nothing written, no score handed over.  An existing vote of the other
    type, on a target whose stored score is [k]: success; the user's vote on
    the target is the same row with the requested type; and exactly one score
    is handed to the repository, [k + 2] for a change to upvote and [k - 2]
    for a change to downvote, which is the new value minus the old one. *)
Lemma ChangeVote_flips_by_two
        (vote : Vote.t) (t : target) (w : World)
        (Hf : faults w = [])
        (Hty : vote_type_ok (Vote.VoteType vote) = true)
        (Ht : target_of vote = Some t) :
  match find (vote_on (Vote.UserID vote) t) (votes (store w)) with
  | None =>
      fst (ChangeVote vote w)
      = Err (Errorf "ChangeVote" (lookup_not_found_msg t))
      /\ store (snd (ChangeVote vote w)) = store w
      /\ karma_updates (trace (snd (ChangeVote vote w)))
         = karma_updates (trace w)
  | Some existing =>
      if (Vote.VoteType existing =? Vote.VoteType vote)%string
      then
        fst (ChangeVote vote w)
        = Err "ChangeVote: vote type is already set to the desired value"
        /\ store (snd (ChangeVote vote w)) = store w
        /\ karma_updates (trace (snd (ChangeVote vote w)))
           = karma_updates (trace w)
      else
        forall k, karma_of t (store w) = Some k ->
        let delta :=
          if (Vote.VoteType vote =? "upvote")%string then 2 else -2 in
        fst (ChangeVote vote w) = OK
        /\ (exists row,
               find (vote_on (Vote.UserID vote) t)
                 (votes (store (snd (ChangeVote vote w)))) = Some row
               /\ Vote.ID row = Vote.ID existing
               /\ Vote.VoteType row = Vote.VoteType vote)
        /\ karma_updates (trace (snd (ChangeVote vote w)))
           = karma_updates (trace w) ++ [(t, int_add k delta)]
        /\ (vote_type_ok (Vote.VoteType existing) = true ->
            delta
            = vote_value (Vote.VoteType vote)
              - vote_value (Vote.VoteType existing))
  end.
Proof.
  unfold ChangeVote.
  rewrite (vote_type_ok_passes _ Hty), Ht,
    (GetVoteByUserAndTarget_run _ _ _ Hf).
  destruct (find (vote_on (Vote.UserID vote) t) (votes (store w)))
    as [existing |] eqn:Hfind.
  2: { simpl. rewrite karma_updates_snoc, lookup_call_hands_nothing.
       now rewrite app_nil_r. }
  destruct (Vote.VoteType existing =? Vote.VoteType vote)%string eqn:Hsame.
  { simpl. rewrite karma_updates_snoc, lookup_call_hands_nothing.
    now rewrite app_nil_r. }
  intros k Hk.
  set (delta := if (Vote.VoteType vote =? "upvote")%string then 2 else -2).
  set (w1 := sent (lookup_call (Vote.UserID vote) t) w).
  set (e' := Vote.with_VoteType existing (Vote.VoteType vote)).
  assert (Hf1 : faults w1 = []) by now apply sent_no_faults.
  destruct (UpdateVote_run e' w1 Hf1) as [r Hrun].
  { apply existsb_exists. exists existing. split.
    - now apply find_some in Hfind.
    - simpl. apply Z.eqb_refl. }
  { exact Hty. }
  rewrite Hrun.
  set (w2 := with_store (sent (QUpdateVote e') w1) _).
  assert (Hf2 : faults w2 = [])
    by (apply (sent_no_faults (QUpdateVote e') w1 Hf1)).
  assert (Hk2 : karma_of t (store w2) = Some k) by now destruct t.
  destruct (UpdateKarmaOn_run t delta w2 k Hf2 Hk2) as (Hok & _ & _ & Htr).
  split; [exact Hok |]. split; [| split].
  - rewrite UpdateKarmaOn_votes. subst w2. simpl.
    rewrite find_map_commute by (intro; apply update_vote_row_vote_on).
    rewrite Hfind. simpl. eexists. split; [reflexivity |].
    unfold update_vote_row. simpl. now rewrite Z.eqb_refl.
  - rewrite Htr. subst w2 w1. simpl.
    rewrite !karma_updates_snoc, lookup_call_hands_nothing. simpl.
    now rewrite !app_nil_r.
  - intros Hold. now apply change_delta_is_difference.
Qed.

Lemma ChangeVote_flips_by_two_witness :
  fst (ChangeVote (Example.downvote 1 1) (mkWorld Scenario.db1 100 [] []))
  = OK
  /\ karma_updates
       (trace (snd (ChangeVote (Example.downvote 1 1)
                      (mkWorld Scenario.db1 100 [] []))))
     = [] ++ [(OnPost 1, int_add 0 (-2))].
Proof.
  pose proof (ChangeVote_flips_by_two (Example.downvote 1 1) (OnPost 1)
                (mkWorld Scenario.db1 100 [] []) eq_refl eq_refl eq_refl)
    as H.
  simpl in H. specialize (H 0 eq_refl).
  destruct H as (Hok & _ & Htr & _). split; [exact Hok | exact Htr].
Defined.

(** C5.  ChangeVote, on a driver that refuses nothing, for a user whose
    vote on the target is of the other type than the requested one, "upvote"
    or "downvote", the target having the stored score [k]: the call returns
    nil and the user's vote is the same row with the requested type; the
    struct handed to [UpdatePost] or [UpdateComment] carries [k + 2] for a
    change to upvote and [k - 2] for a change to downvote, once; and the
    stored score of the target is [k] after the call as it was before it.
    No delta is applied to the score.  (A request of the type already stored
    is refused, and so is a request where there is no vote, with nothing
    written: [ChangeVote_flips_by_two].) *)
Theorem ChangeVote_flip_leaves_stored_score
        (vote existing : Vote.t) (t : target) (w : World) (k : Z)
        (Hf : faults w = [])
        (Hty : vote_type_ok (Vote.VoteType vote) = true)
        (Ht : target_of vote = Some t)
        (Hfind : find (vote_on (Vote.UserID vote) t) (votes (store w))
                 = Some existing)
        (Hne : Vote.VoteType existing <> Vote.VoteType vote)
        (Hk : karma_of t (store w) = Some k) :
  fst (ChangeVote vote w) = OK
  /\ (exists row,
         find (vote_on (Vote.UserID vote) t)
           (votes (store (snd (ChangeVote vote w)))) = Some row
         /\ Vote.ID row = Vote.ID existing
         /\ Vote.VoteType row = Vote.VoteType vote)
  /\ karma_updates (trace (snd (ChangeVote vote w)))
     = karma_updates (trace w)
       ++ [(t, int_add k (if (Vote.VoteType vote =? "upvote")%string
                          then 2 else -2))]
  /\ karma_of t (store (snd (ChangeVote vote w))) = Some k.
Proof.
  pose proof (ChangeVote_flips_by_two vote t w Hf Hty Ht) as H.
  rewrite Hfind in H. apply String.eqb_neq in Hne. rewrite Hne in H.
  destruct (H k Hk) as (Hok & Hrow & Htr & _).
  split; [exact Hok |]. split; [exact Hrow |]. split; [exact Htr |].
  now rewrite (ChangeVote_same_scores vote w t).
Qed.

Lemma ChangeVote_flip_leaves_stored_score_witness :
  fst (ChangeVote Flip.request Flip.w) = OK
  /\ votes (store (snd (ChangeVote Flip.request Flip.w)))
     = [Vote.mk 1 1 (Some 1) None "downvote" 100 200]
  /\ karma_updates (trace (snd (ChangeVote Flip.request Flip.w)))
     = [] ++ [(OnPost 1, int_add 5 (-2))]
  /\ karma_of (OnPost 1) (store Flip.w) = Some 5
  /\ karma_of (OnPost 1) (store (snd (ChangeVote Flip.request Flip.w)))
     = Some 5.
Proof.
  assert (Hne : Vote.VoteType Flip.stored_vote <> Vote.VoteType Flip.request)
    by discriminate.
  destruct (ChangeVote_flip_leaves_stored_score
              Flip.request Flip.stored_vote (OnPost 1) Flip.w 5
              eq_refl eq_refl eq_refl eq_refl Hne eq_refl)
    as (Hok & _ & Htr & Hk).
  split; [exact Hok |]. split; [reflexivity |]. split; [exact Htr |].
  split; [reflexivity | exact Hk].
Defined.

(** ** Vote types the service does not check *)

Lemma CreateVote_sent v w :
  faults (snd (CreateVote v w)) = tl (faults w)
  /\ trace (snd (CreateVote v w)) = trace w ++ [QCreateVote v].
Proof.
  unfold CreateVote; cbv zeta.
  destruct (failing w); [now split |].
  destruct (negb (vote_type_ok (Vote.VoteType v))); [now split |].
  destruct (existsb (unique_clash v) (votes (store w))); [now split |].
  now destruct (references_ok w _).
Qed.

(** The karma update only adds to the trace. *)
Lemma UpdateKarma_trace ty id delta w :
  exists more, trace (snd (UpdateKarma ty id delta w)) = trace w ++ more.
Proof.
  unfold UpdateKarma, GetPostByID, UpdatePost, GetCommentByID, UpdateComment;
    cbv zeta.
  destruct (ty =? "post")%string.
  - destruct (failing w); [now exists [QGetPostByID id] |].
    destruct (find _ (posts (store w))) as [post |];
      [| now exists [QGetPostByID id]].
    destruct (failing _);
      [simpl; rewrite <- app_assoc; eexists; reflexivity |].
    destruct (post_exists _ _); simpl; rewrite <- app_assoc;
      eexists; reflexivity.
  - destruct (ty =? "comment")%string;
      [| exists []; simpl; now rewrite app_nil_r].
    destruct (failing w); [now exists [QGetCommentByID id] |].
    destruct (find _ (comments (store w))) as [c |];
      [| now exists [QGetCommentByID id]].
    destruct (failing _);
      [simpl; rewrite <- app_assoc; eexists; reflexivity |].
    destruct (comment_exists _ _); simpl; rewrite <- app_assoc;
      eexists; reflexivity.
Qed.

Lemma UpdateKarmaOn_trace t delta w :
  exists more, trace (snd (UpdateKarmaOn t delta w)) = trace w ++ more.
Proof. destruct t; apply UpdateKarma_trace. Qed.

(** C10.  CastVote, on a driver that refuses nothing and for a user with
    no vote on the target yet, hands the vote to the repository whatever its
    type: the insert is in the trace, and a type outside upvote/downvote is
    refused there, by the CHECK constraint.  Whenever the repository accepts
    a vote whose type is not "upvote", the score handed over is the stored
    score minus one.  ChangeVote refuses any type other than "upvote" and
    "downvote" before it sends a statement. *)
Theorem CastVote_scores_non_upvote_as_downvote
        (vote : Vote.t) (t : target) (w : World)
        (Hf : faults w = [])
        (Ht : target_of vote = Some t)
        (Hnone : live_votes (Vote.UserID vote) t (store w) = []) :
  In (QCreateVote vote) (trace (snd (CastVote vote w)))
  /\ (vote_type_ok (Vote.VoteType vote) = false ->
      fst (CastVote vote w) = Err (Errorf "CreateVote" check_failed))
  /\ (forall row k,
         fst (CreateVote vote (sent (lookup_call (Vote.UserID vote) t) w))
         = inr row ->
         Vote.VoteType vote <> "upvote"%string ->
         karma_of t (store w) = Some k ->
         fst (CastVote vote w) = OK
         /\ karma_updates (trace (snd (CastVote vote w)))
            = karma_updates (trace w) ++ [(t, int_add k (-1))])
  /\ (forall vote' w',
         vote_type_ok (Vote.VoteType vote') = false ->
         ChangeVote vote' w' = (Err "ChangeVote: invalid vote type", w')).
Proof.
  apply find_none_filter in Hnone.
  rewrite (CastVote_run _ _ _ Hf Ht Hnone).
  set (w1 := sent (lookup_call (Vote.UserID vote) t) w).
  assert (Hf1 : faults w1 = []) by now apply sent_no_faults.
  pose proof (CreateVote_sent vote w1) as [Hfs Htr].
  pose proof (CreateVote_store vote w1) as Hst.
  split; [| split; [| split]].
  - destruct (CreateVote vote w1) as [[e | row] w2]; simpl in *.
    + rewrite Htr. apply in_or_app. right. now left.
    + destruct (UpdateKarmaOn_trace t
                  (if (Vote.VoteType vote =? "upvote")%string then 1 else -1)
                  w2) as [more ->].
      rewrite Htr. apply in_or_app. left. apply in_or_app. right. now left.
  - intros Hbad. unfold CreateVote; cbv zeta.
    now rewrite (failing_no_faults _ Hf1), Hbad.
  - intros row k Hacc Hne Hk.
    destruct (CreateVote vote w1) as [[e | row'] w2]; simpl in *;
      [discriminate |].
    apply String.eqb_neq in Hne. rewrite Hne.
    destruct Hst as [Hst _].
    destruct (UpdateKarmaOn_run t (-1) w2 k) as (Hok & _ & _ & Hup).
    + now rewrite Hfs, Hf1.
    + rewrite Hst. now destruct t.
    + split; [exact Hok |].
      rewrite Hup, Htr. subst w1. simpl.
      rewrite !karma_updates_snoc, lookup_call_hands_nothing. simpl.
      now rewrite !app_nil_r.
  - intros vote' w' Hbad. unfold ChangeVote, vote_type_ok in *.
    now destruct (Vote.VoteType vote' =? "upvote")%string,
                 (Vote.VoteType vote' =? "downvote")%string.
Qed.

Lemma CastVote_scores_non_upvote_as_downvote_witness :
  In (QCreateVote (Example.downvote 1 1))
     (trace (snd (CastVote (Example.downvote 1 1) Example.w0)))
  /\ karma_updates (trace (snd (CastVote (Example.downvote 1 1) Example.w0)))
     = [] ++ [(OnPost 1, int_add 0 (-1))].
Proof.
  destruct (CastVote_scores_non_upvote_as_downvote
              (Example.downvote 1 1) (OnPost 1) Example.w0
              eq_refl eq_refl eq_refl) as (Hin & _ & Hacc & _).
  split; [exact Hin |].
  refine (proj2 (Hacc (Vote.mk 1 1 (Some 1) None "downvote" 100 100) 0
                   eq_refl _ eq_refl)).
  discriminate.
Defined.

(** ** Cast, then remove *)

Lemma lookup_found u t w x w1 :
  GetVoteByUserAndTarget u t w = (inr x, w1) ->
  find (vote_on u t) (votes (store w)) = Some x
  /\ w1 = sent (lookup_call u t) w.
Proof.
  destruct t as [p | c]; simpl;
    unfold GetVoteByUserAndPost, GetVoteByUserAndComment; cbv zeta;
    (destruct (failing w); [discriminate |]);
    match goal with
    | |- context [find ?f ?l] => destruct (find f l)
    end; intros H; inversion H; now subst.
Qed.

Lemma DeleteVote_done x w w2 :
  DeleteVote x w = (None, w2) ->
  w2 = with_store (sent (QDeleteVote x) w)
         (set_votes (store w)
            (filter (fun row => negb (Vote.ID row =? Vote.ID x))
               (votes (store w)))
            (seq_votes (store w))).
Proof.
  unfold DeleteVote; cbv zeta.
  destruct (failing w); [discriminate |].
  destruct (existsb _ (votes (store w))); [| discriminate].
  intros H. now inversion H.
Qed.

Lemma UpdateKarmaOn_ok_target t delta w :
  fst (UpdateKarmaOn t delta w) = OK ->
  exists k, karma_of t (store w) = Some k.
Proof.
  destruct t as [p | c]; simpl; unfold UpdateKarma; simpl.
  - unfold GetPostByID; cbv zeta.
    destruct (failing w); [discriminate |].
    destruct (find _ (posts (store w))) as [post |]; [| discriminate].
    intros _. simpl. eauto.
  - unfold GetCommentByID; cbv zeta.
    destruct (failing w); [discriminate |].
    destruct (find _ (comments (store w))) as [cm |]; [| discriminate].
    intros _. simpl. eauto.
Qed.

(** A successful [CastVote] appended the caller's vote, and its target has a
    stored score. *)
Lemma CastVote_ok vote t w :
  target_of vote = Some t ->
  fst (CastVote vote w) = OK ->
  (exists row,
      votes (store (snd (CastVote vote w))) = votes (store w) ++ [row]
      /\ Vote.UserID row = Vote.UserID vote
      /\ Vote.PostID row = Vote.PostID vote
      /\ Vote.CommentID row = Vote.CommentID vote
      /\ Vote.VoteType row = Vote.VoteType vote)
  /\ exists k, karma_of t (store w) = Some k.
Proof.
  intros Ht. unfold CastVote. rewrite Ht.
  pose proof (GetVoteByUserAndTarget_store (Vote.UserID vote) t w) as Hget.
  destruct (GetVoteByUserAndTarget _ t w) as [[e | x] w1]; simpl in Hget;
    [| discriminate].
  destruct (negb _ && negb _); [discriminate |].
  pose proof (CreateVote_store vote w1) as Hc.
  pose proof (CreateVote_same_scores vote w1) as Hsc.
  destruct (CreateVote vote w1) as [[e' | row] w2]; simpl in *;
    [discriminate |].
  destruct Hc as (Hst & Hrow). intros Hok. split.
  - exists row. rewrite UpdateKarmaOn_votes, Hst, Hget. now split.
  - apply UpdateKarmaOn_ok_target in Hok as [k Hk].
    exists k. rewrite <- Hk, <- Hget. symmetry. apply Hsc.
Qed.

Lemma filter_swap {A} (f g : A -> bool) rows :
  filter f (filter g rows) = filter g (filter f rows).
Proof.
  induction rows as [| x rows IH]; simpl; [reflexivity |].
  destruct (g x) eqn:Hg, (f x) eqn:Hf; simpl; rewrite ?Hg, ?Hf, IH;
    reflexivity.
Qed.

Lemma find_last {A} (f : A -> bool) rows x :
  find f rows = None -> f x = true -> find f (rows ++ [x]) = Some x.
Proof.
  intros Hnone Hx. induction rows as [| y rows IH]; simpl in *.
  - now rewrite Hx.
  - destruct (f y); [discriminate | now apply IH].
Qed.

(** [RemoveVote], called as the handler calls it, looks up the caller's vote
    on the target.  Post id 0 is read as "no post". *)
Lemma RemoveVoteOn_unfold u t w :
  t <> OnPost 0 ->
  RemoveVoteOn u t w
  = match GetVoteByUserAndTarget u t w with
    | (inl e, w1) => (Err (Errorf "RemoveVote" e), w1)
    | (inr existingVote, w1) =>
        let delta :=
          if (Vote.VoteType existingVote =? "upvote")%string
          then -1 else 1 in
        match DeleteVote existingVote w1 with
        | (Some e, w2) => (Err e, w2)
        | (None, w2) =>
            match Vote.PostID existingVote, Vote.CommentID existingVote with
            | Some p, _ => UpdateKarma "post" p delta w2
            | None, Some c => UpdateKarma "comment" c delta w2
            | None, None => (Err "RemoveVote: invalid vote target", w2)
            end
        end
    end.
Proof.
  intros Hnz. destruct t as [p | c]; simpl; unfold RemoveVote.
  - assert ((p =? 0) = false) as -> by (apply Z.eqb_neq; congruence).
    reflexivity.
  - reflexivity.
Qed.

(** C7.  A user with no live vote on a target casts a vote successfully
    and then removes it (post ids start at 1; a post id of 0 means "no post"
    to RemoveVote).  If the removal succeeds, the stored score of the target
    is what it was before the cast and the user has no live vote on the
    target; and on a driver that refuses nothing the removal does succeed. *)
Theorem cast_then_remove_restores_score
        (vote : Vote.t) (t : target) (w : World)
        (Ht : target_of vote = Some t)
        (Hid : t <> OnPost 0)
        (Hnone : live_votes (Vote.UserID vote) t (store w) = [])
        (Hcast : fst (CastVote vote w) = OK) :
  let u := Vote.UserID vote in
  let w' := snd (CastVote vote w) in
  (fst (RemoveVoteOn u t w') = OK ->
   karma_of t (store (snd (RemoveVoteOn u t w'))) = karma_of t (store w)
   /\ live_votes u t (store (snd (RemoveVoteOn u t w'))) = [])
  /\ (faults w' = [] -> fst (RemoveVoteOn u t w') = OK).
Proof.
  intros u w'. subst u.
  destruct (CastVote_ok _ _ _ Ht Hcast)
    as [(row & Hvotes & Hu & Hp & Hc & _) (k & Hk)].
  fold w' in Hvotes.
  pose proof (vote_on_target_of _ _ _ Ht Hu Hp Hc) as Hmine.
  assert (Hfind : find (vote_on (Vote.UserID vote) t) (votes (store w')) = Some row).
  { rewrite Hvotes. apply find_last; [| exact Hmine].
    now apply find_none_filter. }
  assert (Hk' : karma_of t (store w') = Some k).
  { rewrite <- Hk. apply CastVote_same_scores. }
  assert (Hkeep : forall w'', same_scores (store w') (store w'') ->
                              karma_of t (store w'') = karma_of t (store w)).
  { intros w'' H. rewrite H. apply CastVote_same_scores. }
  split.
  - intros Hrem. split.
    + apply Hkeep. destruct t; apply RemoveVote_same_scores.
    + revert Hrem. rewrite (RemoveVoteOn_unfold _ _ _ Hid).
      destruct (GetVoteByUserAndTarget (Vote.UserID vote) t w') as [[e | x] w1] eqn:Hlook;
        [discriminate |].
      apply lookup_found in Hlook as [Hx ->].
      rewrite Hfind in Hx. inversion Hx; subst x. cbv zeta.
      destruct (DeleteVote row _) as [[e |] w2] eqn:Hdel; [discriminate |].
      apply DeleteVote_done in Hdel. intros _.
      assert (Hgone : live_votes (Vote.UserID vote) t (store w2) = []).
      { subst w2. unfold live_votes in *. simpl.
        rewrite filter_swap, Hvotes, filter_app, Hnone. simpl.
        rewrite Hmine. simpl. now rewrite Z.eqb_refl. }
      unfold live_votes in *.
      destruct (Vote.PostID row), (Vote.CommentID row);
        rewrite ?UpdateKarma_votes; exact Hgone.
  - intros Hf. rewrite (RemoveVoteOn_unfold _ _ _ Hid).
    rewrite (GetVoteByUserAndTarget_run _ _ _ Hf), Hfind. cbv zeta.
    set (w1 := sent (lookup_call (Vote.UserID vote) t) w').
    unfold DeleteVote; cbv zeta.
    rewrite (failing_no_faults w1 (sent_no_faults _ _ Hf)).
    assert (Hex : existsb (fun r => Vote.ID r =? Vote.ID row)
                    (votes (store w1)) = true).
    { apply existsb_exists. exists row. split; [| apply Z.eqb_refl].
      simpl. rewrite Hvotes. apply in_or_app. right. now left. }
    rewrite Hex.
    set (w2 := with_store _ _).
    set (delta := if (Vote.VoteType row =? "upvote")%string then -1 else 1).
    assert (Hrun : fst (UpdateKarmaOn t delta w2) = OK).
    { apply (UpdateKarmaOn_run t delta w2 k).
      - subst w2 w1. simpl. now rewrite Hf.
      - rewrite <- Hk'. now destruct t. }
    unfold target_of in Ht. rewrite Hp, Hc.
    destruct (Vote.PostID vote), (Vote.CommentID vote);
      inversion Ht; subst t; exact Hrun.
Qed.

Lemma cast_then_remove_restores_score_witness :
  karma_of (OnPost 1)
    (store (snd (RemoveVoteOn 1 (OnPost 1)
                   (snd (CastVote (Example.upvote 1 1) Example.w0)))))
  = karma_of (OnPost 1) (store Example.w0)
  /\ fst (RemoveVoteOn 1 (OnPost 1)
            (snd (CastVote (Example.upvote 1 1) Example.w0))) = OK.
Proof.
  assert (Hid : OnPost 1 <> OnPost 0) by discriminate.
  destruct (cast_then_remove_restores_score
              (Example.upvote 1 1) (OnPost 1) Example.w0
              eq_refl Hid eq_refl eq_refl) as [Hrestore Hruns].
  split.
  - apply Hrestore. reflexivity.
  - apply Hruns. reflexivity.
Defined.

(** ** Replies to comments *)

Lemma existsb_find {A} (f : A -> bool) rows :
  existsb f rows = true -> exists x, find f rows = Some x.
Proof.
  induction rows as [| y rows IH]; simpl; [discriminate |].
  destruct (f y); simpl; eauto.
Qed.

(** Without a parent row, [ReplyToComment] writes nothing, whatever else
    happens. *)
Lemma ReplyToComment_no_parent_no_node comment parentID w :
  Comment.ParentID comment = Some parentID ->
  find (fun c => Comment.ID c =? parentID) (comments (store w)) = None ->
  store (snd (ReplyToComment comment w)) = store w.
Proof.
  intros Hp Hnone. unfold ReplyToComment.
  destruct (Comment.Content comment =? "")%string; [reflexivity |].
  pose proof (GetUserByID_store (Comment.AuthorID comment) w) as Hu.
  destruct (GetUserByID _ w) as [[e | usr] w1]; simpl in Hu; [exact Hu |].
  rewrite Hp. unfold GetCommentByID; cbv zeta.
  destruct (failing w1); [exact Hu |].
  rewrite Hu, Hnone. exact Hu.
Qed.

(** C8.  ReplyToComment on a driver that refuses nothing, with content and
    an existing author.  If the parent id names a stored comment C whose post
    exists, the call succeeds and appends one comment whose post is C's post
    (the post id the caller supplied is not used) and whose parent is C.  If
    no comment has the parent id, the call fails with the parent-not-found
    error and the database is unchanged. *)
Theorem ReplyToComment_inherits_post
        (comment : Comment.t) (parentID : Z) (w : World)
        (Hf : faults w = [])
        (Hcontent : Comment.Content comment <> ""%string)
        (Hauthor : user_exists (store w) (Comment.AuthorID comment) = true)
        (Hparent : Comment.ParentID comment = Some parentID) :
  match find (fun c => Comment.ID c =? parentID) (comments (store w)) with
  | Some parent =>
      post_exists (store w) (Comment.PostID parent) = true ->
      fst (ReplyToComment comment w) = OK
      /\ exists node,
          comments (store (snd (ReplyToComment comment w)))
          = comments (store w) ++ [node]
          /\ Comment.PostID node = Comment.PostID parent
          /\ Comment.ParentID node = Some (Comment.ID parent)
          /\ Comment.AuthorID node = Comment.AuthorID comment
          /\ Comment.Content node = Comment.Content comment
  | None =>
      fst (ReplyToComment comment w)
      = Err "ReplyToComment: parent comment does not exist"
      /\ store (snd (ReplyToComment comment w)) = store w
  end.
Proof.
  unfold ReplyToComment.
  apply String.eqb_neq in Hcontent. rewrite Hcontent.
  rewrite (GetUserByID_run _ _ Hf).
  destruct (existsb_find _ _ Hauthor) as [usr ->].
  rewrite Hparent.
  set (w1 := sent (QGetUserByID (Comment.AuthorID comment)) w).
  assert (Hf1 : faults w1 = []) by now apply sent_no_faults.
  rewrite (GetCommentByID_run _ _ Hf1). simpl.
  destruct (find (fun c => Comment.ID c =? parentID) (comments (store w)))
    as [parent |] eqn:Hfind; [| now split].
  intros Hpost.
  pose proof (find_some _ _ Hfind) as [_ Hid]. apply Z.eqb_eq in Hid.
  unfold CreateComment; cbv zeta.
  rewrite (failing_no_faults _ (sent_no_faults (QGetCommentByID parentID)
                                  w1 Hf1)).
  simpl. rewrite Hauthor, Hpost, Hparent. simpl.
  unfold comment_exists. rewrite (find_some_exists _ _ _ Hfind). simpl.
  rewrite references_ok_found.
  split; [reflexivity |].
  eexists. split; [reflexivity |]. simpl. now rewrite Hid.
Qed.

Lemma ReplyToComment_inherits_post_witness :
  fst (ReplyToComment (Comment.mk 0 "thanks" 1 77 (Some 1) 0 0 0) Example.w0)
  = OK
  /\ exists node,
      comments (store (snd (ReplyToComment
                              (Comment.mk 0 "thanks" 1 77 (Some 1) 0 0 0)
                              Example.w0)))
      = [Example.comment1] ++ [node]
      /\ Comment.PostID node = 1.
Proof.
  assert (Hc : "thanks"%string <> ""%string) by discriminate.
  pose proof (ReplyToComment_inherits_post
                (Comment.mk 0 "thanks" 1 77 (Some 1) 0 0 0) 1 Example.w0
                eq_refl Hc eq_refl eq_refl) as H.
  simpl in H. destruct (H eq_refl) as [Hok [node [Hn [Hp _]]]].
  split; [exact Hok |]. exists node. split; [exact Hn | exact Hp].
Defined.

(** ** Listing replies *)

Section OrderedQueryFacts.
Variable A : Type.
Variable created_at : A -> time.
Variable id : A -> Z.

Lemma in_skipn n (rows : list A) x : In x (skipn n rows) -> In x rows.
Proof.
  intros H. rewrite <- (firstn_skipn n rows). apply in_or_app. now right.
Qed.

Lemma in_firstn n (rows : list A) x : In x (firstn n rows) -> In x rows.
Proof.
  intros H. rewrite <- (firstn_skipn n rows). apply in_or_app. now left.
Qed.

Lemma limit_offset_incl limit offset (rows : list A) x :
  In x (limit_offset limit offset rows) -> In x rows.
Proof.
  unfold limit_offset. intros H.
  destruct (limit <? 0).
  - eapply in_skipn; eauto.
  - apply in_firstn in H. eapply in_skipn; eauto.
Qed.

Lemma limit_offset_length limit offset (rows : list A) :
  0 <= limit ->
  (List.length (limit_offset limit offset rows) <= Z.to_nat limit)%nat.
Proof.
  intros Hl. unfold limit_offset.
  destruct (limit <? 0) eqn:Hneg; [apply Z.ltb_lt in Hneg; lia |].
  apply firstn_le_length.
Qed.

Lemma StronglySorted_skipn (R : A -> A -> Prop) n rows :
  StronglySorted R rows -> StronglySorted R (skipn n rows).
Proof.
  revert rows. induction n as [| n IH]; intros rows Hs; [exact Hs |].
  destruct rows as [| x rows]; [exact Hs |].
  simpl. apply IH. now inversion Hs.
Qed.

Lemma StronglySorted_firstn (R : A -> A -> Prop) n rows :
  StronglySorted R rows -> StronglySorted R (firstn n rows).
Proof.
  revert rows. induction n as [| n IH]; intros rows Hs; [constructor |].
  destruct rows as [| x rows]; [constructor |].
  simpl. inversion Hs; subst. constructor; [now apply IH |].
  apply Forall_forall. intros y Hy. apply in_firstn in Hy.
  eapply Forall_forall; eauto.
Qed.

Lemma limit_offset_sorted (R : A -> A -> Prop) limit offset rows :
  StronglySorted R rows -> StronglySorted R (limit_offset limit offset rows).
Proof.
  intros Hs. unfold limit_offset.
  destruct (limit <? 0).
  - now apply StronglySorted_skipn.
  - now apply StronglySorted_firstn, StronglySorted_skipn.
Qed.

(** The stable sort is one of the arrangements [ORDER BY] allows. *)
Lemma insert_row_perm x rows :
  Permutation (x :: rows) (insert_row created_at x rows).
Proof.
  induction rows as [| y rows IH]; simpl; [apply Permutation_refl |].
  destruct (created_at x <=? created_at y); [apply Permutation_refl |].
  eapply perm_trans; [apply perm_swap | now apply perm_skip].
Qed.

Lemma insert_row_sorted x rows :
  oldest_first created_at rows ->
  oldest_first created_at (insert_row created_at x rows).
Proof.
  unfold oldest_first.
  induction 1 as [| y rows Hs IH Hall]; simpl.
  - constructor; constructor.
  - destruct (created_at x <=? created_at y) eqn:Hle.
    + apply Z.leb_le in Hle. constructor; [now constructor |].
      constructor; [exact Hle |].
      eapply Forall_impl; [| exact Hall]. simpl. intros; lia.
    + apply Z.leb_gt in Hle. constructor; [exact IH |].
      apply Forall_forall. intros z Hz.
      apply (Permutation_in _ (Permutation_sym (insert_row_perm x rows)))
        in Hz.
      destruct Hz as [<- | Hz]; [lia |].
      eapply Forall_forall in Hall; eauto.
Qed.

Lemma sort_rows_orders rows :
  order_by_created_at_asc created_at rows (sort_rows created_at rows).
Proof.
  unfold order_by_created_at_asc.
  induction rows as [| x rows [IHp IHs]]; simpl.
  - split; constructor.
  - split.
    + eapply perm_trans; [apply perm_skip, IHp | apply insert_row_perm].
    + now apply insert_row_sorted.
Qed.

(** With pairwise distinct creation times there is one arrangement. *)
Lemma order_unique (l1 l2 : list A) :
  NoDup (map created_at l1) ->
  oldest_first created_at l1 ->
  oldest_first created_at l2 ->
  Permutation l1 l2 ->
  l1 = l2.
Proof.
  unfold oldest_first. revert l2.
  induction l1 as [| a l1 IH]; intros l2 Hnd Hs1 Hs2 Hp.
  - now apply Permutation_nil in Hp.
  - destruct l2 as [| b l2].
    { apply Permutation_sym, Permutation_nil in Hp. discriminate. }
    inversion Hnd as [| ? ? Hnotin Hnd']; subst.
    inversion Hs1 as [| ? ? Hs1' Hall1]; subst.
    inversion Hs2 as [| ? ? Hs2' Hall2]; subst.
    assert (Hab : a = b).
    { pose proof (Permutation_in a Hp (or_introl eq_refl)) as Ha.
      pose proof (Permutation_in b (Permutation_sym Hp) (or_introl eq_refl))
        as Hb.
      destruct Ha as [Ha | Ha]; [now symmetry |].
      destruct Hb as [Hb | Hb]; [exact Hb |].
      exfalso. apply Hnotin.
      rewrite Forall_forall in Hall1, Hall2.
      pose proof (Hall1 _ Hb). pose proof (Hall2 _ Ha).
      replace (created_at a) with (created_at b) by lia.
      now apply in_map. }
    subst b. f_equal.
    apply IH; auto. eapply Permutation_cons_inv; eauto.
Qed.

Lemma distinct_times_break_no_ties rows :
  NoDup (map created_at rows) ->
  oldest_first created_at rows ->
  oldest_first_then_id created_at id rows.
Proof.
  unfold oldest_first, oldest_first_then_id.
  induction rows as [| a rows IH]; intros Hnd Hs; [constructor |].
  inversion Hnd as [| ? ? Hnotin Hnd']; subst.
  inversion Hs as [| ? ? Hs' Hall]; subst.
  constructor; [now apply IH |].
  rewrite Forall_forall in *. intros b Hb. left.
  pose proof (Hall _ Hb).
  assert (created_at a <> created_at b).
  { intros Heq. apply Hnotin. rewrite Heq. now apply in_map. }
  lia.
Qed.

(** What any answer to an ordered, paginated query over [selected]
    satisfies. *)
Lemma ordered_page_facts selected sorted limit offset :
  order_by_created_at_asc created_at selected sorted ->
  let page := limit_offset limit offset sorted in
  (forall r, In r page -> In r selected)
  /\ oldest_first created_at page
  /\ (0 <= limit -> (List.length page <= Z.to_nat limit)%nat)
  /\ (NoDup (map created_at selected) ->
      page = limit_offset limit offset (sort_rows created_at selected)
      /\ oldest_first_then_id created_at id page).
Proof.
  intros [Hp Hs] page. subst page. repeat split.
  - intros r Hr. apply limit_offset_incl in Hr.
    eapply Permutation_in; [apply Permutation_sym, Hp | exact Hr].
  - now apply limit_offset_sorted.
  - apply limit_offset_length.
  - f_equal.
    destruct (sort_rows_orders selected) as [Hp' Hs'].
    symmetry. apply order_unique; [| exact Hs' | exact Hs |].
    + eapply Permutation_NoDup; [| exact H]. now apply Permutation_map.
    + eapply perm_trans; [apply Permutation_sym, Hp' | exact Hp].
  - apply limit_offset_sorted.
    apply distinct_times_break_no_ties; [| exact Hs].
    eapply Permutation_NoDup; [| exact H].
    now apply Permutation_map.
Qed.

(** The stable sort of rows read in rowid order: oldest first, and rows of
    equal creation time by ascending id. *)
Lemma StronglySorted_weaken (R R' : A -> A -> Prop) rows :
  (forall a b, R a b -> R' a b) ->
  StronglySorted R rows -> StronglySorted R' rows.
Proof.
  intros HR. induction 1 as [| a rows Hs IH Hall]; constructor; [exact IH |].
  eapply Forall_impl; [| exact Hall]. auto.
Qed.

Lemma StronglySorted_filter (R : A -> A -> Prop) (f : A -> bool) rows :
  StronglySorted R rows -> StronglySorted R (filter f rows).
Proof.
  induction 1 as [| a rows Hs IH Hall]; simpl; [constructor |].
  destruct (f a); [| exact IH].
  constructor; [exact IH |].
  apply Forall_forall. intros b Hb. apply filter_In in Hb as [Hb _].
  eapply Forall_forall in Hall; eauto.
Qed.

Lemma StronglySorted_NoDup (R : A -> A -> Prop) rows :
  (forall a, ~ R a a) -> StronglySorted R rows -> NoDup rows.
Proof.
  intros Hirr. induction 1 as [| a rows Hs IH Hall]; constructor;
    [| exact IH].
  intros Hin. eapply Forall_forall in Hall; eauto. now apply Hirr in Hall.
Qed.

Lemma insert_row_then_id x rows :
  StronglySorted
    (fun a b => created_at a < created_at b
                \/ (created_at a = created_at b /\ id a < id b)) rows ->
  Forall (fun y => id x < id y) rows ->
  StronglySorted
    (fun a b => created_at a < created_at b
                \/ (created_at a = created_at b /\ id a < id b))
    (insert_row created_at x rows).
Proof.
  induction 1 as [| y rows Hs IH Hall]; intros Hids; simpl.
  - constructor; constructor.
  - inversion Hids as [| ? ? Hxy Hids']; subst.
    destruct (created_at x <=? created_at y) eqn:Hle.
    + apply Z.leb_le in Hle. constructor; [now constructor |].
      constructor; [lia |].
      rewrite Forall_forall in *. intros z Hz.
      pose proof (Hall _ Hz). pose proof (Hids' _ Hz). lia.
    + apply Z.leb_gt in Hle. constructor; [now apply IH |].
      apply Forall_forall. intros z Hz.
      apply (Permutation_in _ (Permutation_sym (insert_row_perm x rows)))
        in Hz.
      destruct Hz as [<- | Hz]; [lia |].
      eapply Forall_forall in Hall; eauto.
Qed.

Lemma sort_rows_then_id rows :
  rowid_order id rows ->
  StronglySorted
    (fun a b => created_at a < created_at b
                \/ (created_at a = created_at b /\ id a < id b))
    (sort_rows created_at rows).
Proof.
  unfold rowid_order.
  induction 1 as [| x rows Hs IH Hall]; simpl; [constructor |].
  apply insert_row_then_id; [exact IH |].
  apply Forall_forall. intros y Hy.
  destruct (sort_rows_orders rows) as [Hp _].
  apply (Permutation_in _ (Permutation_sym Hp)) in Hy.
  eapply Forall_forall in Hall; eauto.
Qed.

(** What the page that SQLite cuts out of the selected rows of a table
    satisfies. *)
Lemma sorted_page_facts (table : list A) (sel : A -> bool) limit offset :
  rowid_order id table ->
  (forall r,
      In r (limit_offset limit offset
              (sort_rows created_at (filter sel table))) ->
      In r table /\ sel r = true)
  /\ oldest_first_then_id created_at id
       (limit_offset limit offset (sort_rows created_at (filter sel table)))
  /\ NoDup (limit_offset limit offset
              (sort_rows created_at (filter sel table)))
  /\ (0 <= limit ->
      (List.length (limit_offset limit offset
                      (sort_rows created_at (filter sel table)))
       <= Z.to_nat limit)%nat)
  /\ Permutation (filter sel table)
       (limit_offset (-1) 0 (sort_rows created_at (filter sel table))).
Proof.
  intros Htable.
  assert (Hs : StronglySorted
                 (fun a b => created_at a < created_at b
                             \/ (created_at a = created_at b
                                 /\ id a < id b))
                 (limit_offset limit offset
                    (sort_rows created_at (filter sel table)))).
  { apply limit_offset_sorted, sort_rows_then_id.
    now apply StronglySorted_filter. }
  split; [| split; [| split; [| split]]].
  - intros r Hr. apply limit_offset_incl in Hr.
    destruct (sort_rows_orders (filter sel table)) as [Hp _].
    apply (Permutation_in _ (Permutation_sym Hp)) in Hr.
    now apply filter_In in Hr.
  - eapply StronglySorted_weaken; [| exact Hs]. simpl. intros a b H. lia.
  - eapply StronglySorted_NoDup; [| exact Hs]. simpl. intros a H. lia.
  - apply limit_offset_length.
  - apply sort_rows_orders.
Qed.
End OrderedQueryFacts.

Lemma firstn_plus {A} (a b : nat) (rows : list A) :
  firstn (a + b) rows = firstn a rows ++ firstn b (skipn a rows).
Proof.
  revert rows. induction a as [| a IH]; intros rows; [reflexivity |].
  destruct rows as [| x rows]; simpl.
  - now rewrite firstn_nil.
  - now rewrite IH.
Qed.

Lemma skipn_plus {A} (a b : nat) (rows : list A) :
  skipn (a + b) rows = skipn b (skipn a rows).
Proof.
  revert rows. induction a as [| a IH]; intros rows; [reflexivity |].
  destruct rows as [| x rows]; simpl.
  - now rewrite skipn_nil.
  - apply IH.
Qed.

(** Two consecutive pages of one arrangement are the double page. *)
Lemma pages_compose {A} (limit limit' offset : Z) (rows : list A) :
  0 <= limit -> 0 <= limit' -> 0 <= offset ->
  limit_offset limit offset rows
  ++ limit_offset limit' (offset + limit) rows
  = limit_offset (limit + limit') offset rows.
Proof.
  intros Hl Hl' Ho. unfold limit_offset.
  assert ((limit <? 0) = false) as -> by (apply Z.ltb_ge; lia).
  assert ((limit' <? 0) = false) as -> by (apply Z.ltb_ge; lia).
  assert ((limit + limit' <? 0) = false) as -> by (apply Z.ltb_ge; lia).
  rewrite !Z2Nat.inj_add by lia.
  now rewrite skipn_plus, firstn_plus.
Qed.

Lemma opt_eqb_eq a b : opt_eqb a b = true -> a = Some b.
Proof.
  destruct a as [x |]; simpl; [| discriminate].
  intros H. apply Z.eqb_eq in H. now subst.
Qed.

(** C9.  The rows GetReplies returns, for comments and for messages, in
    a database whose tables are in rowid order.  Every row returned is a row
    of the table whose parent is [parentID]: a direct child, no deeper
    descendant and no row under another parent.  The rows come oldest first,
    and rows of equal creation time by ascending id.  No row is returned
    twice, and at most [limit] rows are returned when [limit] is not
    negative.  Pagination is stable: every page is the slice that [limit] and
    [offset] cut out of the one full listing of the children, so that two
    consecutive pages put together are the page of both; the full listing
    holds exactly the direct children.  And the rows returned are among the
    answers that the text of the statement allows. *)
Theorem GetReplies_oldest_first_ties_by_id
        (d : DB) (parentID limit offset : Z)
        (Hc : rowid_order Comment.ID (comments d))
        (Hm : rowid_order Message.ID (messages d)) :
  ((forall r,
       In r (CommentRepository.GetReplies_rows d parentID limit offset) ->
       In r (comments d) /\ Comment.ParentID r = Some parentID)
   /\ oldest_first_then_id Comment.CreatedAt Comment.ID
        (CommentRepository.GetReplies_rows d parentID limit offset)
   /\ NoDup (CommentRepository.GetReplies_rows d parentID limit offset)
   /\ (0 <= limit ->
       (List.length (CommentRepository.GetReplies_rows d parentID limit offset)
        <= Z.to_nat limit)%nat)
   /\ CommentRepository.GetReplies_rows d parentID limit offset
      = limit_offset limit offset
          (CommentRepository.GetReplies_rows d parentID (-1) 0)
   /\ Permutation (CommentRepository.children d parentID)
        (CommentRepository.GetReplies_rows d parentID (-1) 0)
   /\ (forall next,
          0 <= limit -> 0 <= next -> 0 <= offset ->
          CommentRepository.GetReplies_rows d parentID limit offset
          ++ CommentRepository.GetReplies_rows d parentID next
               (offset + limit)
          = CommentRepository.GetReplies_rows d parentID (limit + next)
              offset)
   /\ CommentRepository.GetReplies d parentID limit offset
        (CommentRepository.GetReplies_rows d parentID limit offset))
  /\ ((forall r,
          In r (MessageRepository.GetReplies_rows d parentID limit offset) ->
          In r (messages d) /\ Message.ParentID r = Some parentID)
      /\ oldest_first_then_id Message.CreatedAt Message.ID
           (MessageRepository.GetReplies_rows d parentID limit offset)
      /\ NoDup (MessageRepository.GetReplies_rows d parentID limit offset)
      /\ (0 <= limit ->
          (List.length
             (MessageRepository.GetReplies_rows d parentID limit offset)
           <= Z.to_nat limit)%nat)
      /\ MessageRepository.GetReplies_rows d parentID limit offset
         = limit_offset limit offset
             (MessageRepository.GetReplies_rows d parentID (-1) 0)
      /\ Permutation (MessageRepository.children d parentID)
           (MessageRepository.GetReplies_rows d parentID (-1) 0)
      /\ (forall next,
             0 <= limit -> 0 <= next -> 0 <= offset ->
             MessageRepository.GetReplies_rows d parentID limit offset
             ++ MessageRepository.GetReplies_rows d parentID next
                  (offset + limit)
             = MessageRepository.GetReplies_rows d parentID (limit + next)
                 offset)
      /\ MessageRepository.GetReplies d parentID limit offset
           (MessageRepository.GetReplies_rows d parentID limit offset)).
Proof.
  split.
  - destruct (sorted_page_facts _ Comment.CreatedAt Comment.ID (comments d)
                (fun c => opt_eqb (Comment.ParentID c) parentID)
                limit offset Hc) as (Hin & Hs & Hnd & Hlen & Hperm).
    split; [| split; [| split; [| split; [| split; [| split; [| split]]]]]].
    + intros r Hr. apply Hin in Hr as [Hr Hp].
      split; [exact Hr | now apply opt_eqb_eq].
    + exact Hs.
    + exact Hnd.
    + exact Hlen.
    + reflexivity.
    + exact Hperm.
    + intros next Hl Hn Ho. now apply pages_compose.
    + eexists. split; [apply sort_rows_orders | reflexivity].
  - destruct (sorted_page_facts _ Message.CreatedAt Message.ID (messages d)
                (fun m => opt_eqb (Message.ParentID m) parentID)
                limit offset Hm) as (Hin & Hs & Hnd & Hlen & Hperm).
    split; [| split; [| split; [| split; [| split; [| split; [| split]]]]]].
    + intros r Hr. apply Hin in Hr as [Hr Hp].
      split; [exact Hr | now apply opt_eqb_eq].
    + exact Hs.
    + exact Hnd.
    + exact Hlen.
    + reflexivity.
    + exact Hperm.
    + intros next Hl Hn Ho. now apply pages_compose.
    + eexists. split; [apply sort_rows_orders | reflexivity].
Qed.

Lemma GetReplies_oldest_first_ties_by_id_witness :
  CommentRepository.GetReplies_rows Scenario.db_thread 1 10 0
  = [Scenario.stored_a; Scenario.stored_b]
  /\ CommentRepository.GetReplies_rows Scenario.db_thread 1 1 0
     = [Scenario.stored_a]
  /\ CommentRepository.GetReplies_rows Scenario.db_thread 1 1 1
     = [Scenario.stored_b]
  /\ oldest_first_then_id Comment.CreatedAt Comment.ID
       [Scenario.stored_a; Scenario.stored_b]
  /\ [Scenario.stored_a] ++ [Scenario.stored_b]
     = CommentRepository.GetReplies_rows Scenario.db_thread 1 (1 + 1) 0.
Proof.
  assert (Hc : rowid_order Comment.ID (comments Scenario.db_thread)).
  { repeat constructor; simpl; lia. }
  assert (Hm : rowid_order Message.ID (messages Scenario.db_thread)).
  { constructor. }
  destruct (GetReplies_oldest_first_ties_by_id Scenario.db_thread 1 10 0
              Hc Hm) as [(_ & Hs & _) _].
  destruct (GetReplies_oldest_first_ties_by_id Scenario.db_thread 1 1 0
              Hc Hm) as [(_ & _ & _ & _ & _ & _ & Hjoin & _) _].
  split; [reflexivity |]. split; [reflexivity |]. split; [reflexivity |].
  split; [exact Hs |].
  apply (Hjoin 1); lia.
Defined.

(** The writes of the model keep the tables in rowid order. *)
Lemma rowid_order_snoc {A} (id : A -> Z) rows row :
  rowid_order id rows ->
  (forall r, In r rows -> id r < id row) ->
  rowid_order id (rows ++ [row]).
Proof.
  unfold rowid_order. intros Hs Hnew.
  induction Hs as [| a rows Hs IH Hall]; simpl.
  - constructor; constructor.
  - constructor.
    + apply IH. intros r Hr. apply Hnew. now right.
    + apply Forall_app. split; [exact Hall |].
      constructor; [| constructor]. apply Hnew. now left.
Qed.

Lemma CreateComment_rowid_order c w :
  rowid_order Comment.ID (comments (store w)) ->
  rowid_order Comment.ID (comments (store (snd (CreateComment c w)))).
Proof.
  intros Hs. unfold CreateComment; cbv zeta.
  destruct (failing w); [exact Hs |].
  destruct (references_ok w _); [| exact Hs].
  simpl. apply rowid_order_snoc; [exact Hs |].
  intros r Hr. simpl. unfold next_id.
  assert (Comment.ID r <= max_id (map Comment.ID (comments (store w)))).
  { clear - Hr. induction (comments (store w)) as [| x rows IH];
      [contradiction |].
    simpl. destruct Hr as [-> | Hr]; [lia |]. specialize (IH Hr). lia. }
  lia.
Qed.

Lemma SendMessage_rowid_order m w :
  rowid_order Message.ID (messages (store w)) ->
  rowid_order Message.ID
    (messages (store (snd (MessageRepository.SendMessage m w)))).
Proof.
  intros Hs. unfold MessageRepository.SendMessage; cbv zeta.
  destruct (failing w); [exact Hs |].
  destruct (references_ok w _); [| exact Hs].
  simpl. apply rowid_order_snoc; [exact Hs |].
  intros r Hr. simpl. unfold next_id.
  assert (Message.ID r <= max_id (map Message.ID (messages (store w)))).
  { clear - Hr. induction (messages (store w)) as [| x rows IH];
      [contradiction |].
    simpl. destruct Hr as [-> | Hr]; [lia |]. specialize (IH Hr). lia. }
  lia.
Qed.

Lemma UpdateComment_rowid_order c w :
  rowid_order Comment.ID (comments (store w)) ->
  rowid_order Comment.ID (comments (store (snd (UpdateComment c w)))).
Proof.
  intros Hs. unfold UpdateComment; cbv zeta.
  destruct (failing w); [exact Hs |].
  destruct (comment_exists (store w) (Comment.ID c)); [| exact Hs].
  simpl. unfold rowid_order in *.
  assert (Hid : forall r, Comment.ID (update_comment_row c (clock w) r)
                          = Comment.ID r).
  { intros r. unfold update_comment_row.
    now destruct (Comment.ID r =? Comment.ID c). }
  induction Hs as [| a rows Hs IH Hall]; simpl; constructor; [exact IH |].
  apply Forall_forall. intros b Hb. apply in_map_iff in Hb as (b0 & <- & Hb0).
  rewrite !Hid. eapply Forall_forall in Hall; eauto.
Qed.

(** ** The vote write is kept *)

Lemma UpdateVote_done v w r w2 :
  UpdateVote v w = (inr r, w2) ->
  w2 = with_store (sent (QUpdateVote v) w)
         (set_votes (store w)
            (map (update_vote_row v (clock w)) (votes (store w)))
            (seq_votes (store w))).
Proof.
  unfold UpdateVote; cbv zeta.
  destruct (failing w); [discriminate |].
  destruct (negb (existsb _ (votes (store w)))); [discriminate |].
  destruct (negb (vote_type_ok (Vote.VoteType v))); [discriminate |].
  intros H. now inversion H.
Qed.

(** C2, amended.  The vote write and the karma update are separate,
    consecutive repository calls.  Once the vote write of CastVote,
    ChangeVote or RemoveVote has succeeded, the operation returns whatever the
    karma update returns, and the votes table it leaves is the written one
    (the row appended, retyped or deleted) whether the karma update succeeded
    or failed: there is no rollback. *)
Theorem vote_write_kept_whatever_karma_update_returns (w : World) :
  (forall vote t w1 row w2,
      target_of vote = Some t ->
      GetVoteByUserAndTarget (Vote.UserID vote) t w
      = (inl (lookup_not_found_msg t), w1) ->
      CreateVote vote w1 = (inr row, w2) ->
      CastVote vote w
      = UpdateKarmaOn t
          (if (Vote.VoteType vote =? "upvote")%string then 1 else -1) w2
      /\ votes (store (snd (CastVote vote w))) = votes (store w) ++ [row])
  /\ (forall vote t existing w1 r w2,
         vote_type_ok (Vote.VoteType vote) = true ->
         target_of vote = Some t ->
         GetVoteByUserAndTarget (Vote.UserID vote) t w = (inr existing, w1) ->
         Vote.VoteType existing <> Vote.VoteType vote ->
         UpdateVote (Vote.with_VoteType existing (Vote.VoteType vote)) w1
         = (inr r, w2) ->
         ChangeVote vote w
         = UpdateKarmaOn t
             (if (Vote.VoteType vote =? "upvote")%string then 2 else -2) w2
         /\ votes (store (snd (ChangeVote vote w)))
            = map (update_vote_row
                     (Vote.with_VoteType existing (Vote.VoteType vote))
                     (clock w))
                (votes (store w)))
  /\ (forall u t existing w1 w2,
         t <> OnPost 0 ->
         GetVoteByUserAndTarget u t w = (inr existing, w1) ->
         DeleteVote existing w1 = (None, w2) ->
         RemoveVoteOn u t w
         = UpdateKarmaOn t
             (if (Vote.VoteType existing =? "upvote")%string then -1 else 1)
             w2
         /\ votes (store (snd (RemoveVoteOn u t w)))
            = filter (fun row => negb (Vote.ID row =? Vote.ID existing))
                (votes (store w))).
Proof.
  split; [| split].
  - intros vote t w1 row w2 Ht Hlook Hcreate.
    assert (Hrun : CastVote vote w
                   = UpdateKarmaOn t
                       (if (Vote.VoteType vote =? "upvote")%string
                        then 1 else -1) w2).
    { unfold CastVote.
      now rewrite Ht, Hlook, lookup_not_found_msg_passes, Hcreate. }
    split; [exact Hrun |].
    rewrite Hrun, UpdateKarmaOn_votes.
    pose proof (CreateVote_store vote w1) as Hst.
    rewrite Hcreate in Hst. simpl in Hst. destruct Hst as [-> _]. simpl.
    pose proof (GetVoteByUserAndTarget_store (Vote.UserID vote) t w) as Hs.
    rewrite Hlook in Hs. simpl in Hs. now rewrite Hs.
  - intros vote t existing w1 r w2 Hty Ht Hlook Hne Hupd.
    assert (Hrun : ChangeVote vote w
                   = UpdateKarmaOn t
                       (if (Vote.VoteType vote =? "upvote")%string
                        then 2 else -2) w2).
    { unfold ChangeVote.
      rewrite (vote_type_ok_passes _ Hty), Ht, Hlook.
      apply String.eqb_neq in Hne. now rewrite Hne, Hupd. }
    split; [exact Hrun |].
    rewrite Hrun, UpdateKarmaOn_votes.
    apply UpdateVote_done in Hupd. subst w2. simpl.
    apply lookup_found in Hlook as [_ ->]. reflexivity.
  - intros u t existing w1 w2 Hnz Hlook Hdel.
    pose proof (lookup_found _ _ _ _ _ Hlook) as [Hfind Hw1].
    assert (Hon : vote_on u t existing = true)
      by now apply find_some in Hfind.
    assert (Hrun : RemoveVoteOn u t w
                   = UpdateKarmaOn t
                       (if (Vote.VoteType existing =? "upvote")%string
                        then -1 else 1) w2).
    { rewrite (RemoveVoteOn_unfold _ _ _ Hnz), Hlook. cbv zeta.
      rewrite Hdel.
      destruct t as [p | c]; simpl in Hon |- *;
        unfold on_post, on_comment in Hon;
        apply andb_true_iff in Hon as [Hon Hnull];
        apply andb_true_iff in Hon as [_ Hon];
        apply opt_eqb_eq in Hon; rewrite Hon; [reflexivity |].
      now destruct (Vote.PostID existing). }
    split; [exact Hrun |].
    rewrite Hrun, UpdateKarmaOn_votes.
    apply DeleteVote_done in Hdel. subst w2 w1. reflexivity.
Qed.

Lemma vote_write_kept_whatever_karma_update_returns_witness :
  fst (CastVote (Example.upvote 1 1)
         (Scenario.third_statement_fails Example.db0))
  = Err "GetPostByID: driver: bad connection"
  /\ votes (store (snd (CastVote (Example.upvote 1 1)
                          (Scenario.third_statement_fails Example.db0))))
     = [] ++ [Scenario.alice_vote].
Proof.
  destruct (vote_write_kept_whatever_karma_update_returns
              (Scenario.third_statement_fails Example.db0)) as [Hcast _].
  destruct (Hcast (Example.upvote 1 1) (OnPost 1)
              (snd (GetVoteByUserAndTarget 1 (OnPost 1)
                      (Scenario.third_statement_fails Example.db0)))
              Scenario.alice_vote
              (snd (CreateVote (Example.upvote 1 1)
                      (snd (GetVoteByUserAndTarget 1 (OnPost 1)
                              (Scenario.third_statement_fails Example.db0)))))
              eq_refl eq_refl eq_refl) as [Hrun Hvotes].
  split; [| exact Hvotes].
  rewrite Hrun. reflexivity.
Defined.

(** * Further properties of the services *)

(** ** Scores over sequences of vote operations *)

(** X1.  Whatever sequence of CastVote, ChangeVote and RemoveVote calls
    runs, with whatever results and driver refusals, the stored score of
    every post and comment is what it was before. *)
Theorem vote_ops_never_write_a_score (os : list vote_op) (w : World)
        (t : target) :
  karma_of t (store (run_ops os w)) = karma_of t (store w).
Proof.
  revert w. induction os as [| o os IH]; intros w; simpl; [reflexivity |].
  rewrite IH. apply run_op_same_scores.
Qed.

(** ** Repeating a vote operation *)

Lemma find_in {A} (f : A -> bool) rows x :
  In x rows -> f x = true -> exists y, find f rows = Some y.
Proof.
  intros Hin Hx. apply existsb_find. apply existsb_exists. now exists x.
Qed.

(** X2.  After a successful CastVote by a user on a target, a further
    CastVote by that user on that target (of whatever type), sent to a driver
    that refuses nothing, fails with the conflict error and leaves the
    database as it is. *)
Theorem CastVote_twice_conflicts
        (vote vote' : Vote.t) (t : target) (w : World)
        (Ht : target_of vote = Some t)
        (Ht' : target_of vote' = Some t)
        (Hu : Vote.UserID vote' = Vote.UserID vote)
        (Hok : fst (CastVote vote w) = OK)
        (Hf : faults (snd (CastVote vote w)) = []) :
  fst (CastVote vote' (snd (CastVote vote w)))
  = Err "CastVote: user has already voted on this target"
  /\ store (snd (CastVote vote' (snd (CastVote vote w))))
     = store (snd (CastVote vote w)).
Proof.
  destruct (CastVote_ok _ _ _ Ht Hok) as [(row & Hv & Hru & Hrp & Hrc & _) _].
  pose proof (vote_on_target_of _ _ _ Ht Hru Hrp Hrc) as Hmine.
  destruct (find_in (vote_on (Vote.UserID vote) t)
              (votes (store (snd (CastVote vote w)))) row) as [y Hy].
  { rewrite Hv. apply in_or_app. right. now left. }
  { exact Hmine. }
  unfold CastVote at 1 3.
  rewrite Ht', Hu, (GetVoteByUserAndTarget_run _ _ _ Hf), Hy. now split.
Qed.

Lemma CastVote_twice_conflicts_witness :
  fst (CastVote (Example.downvote 1 1)
         (snd (CastVote (Example.upvote 1 1) Example.w0)))
  = Err "CastVote: user has already voted on this target".
Proof.
  apply (CastVote_twice_conflicts (Example.upvote 1 1) (Example.downvote 1 1)
           (OnPost 1) Example.w0); reflexivity.
Defined.

(** A successful [ChangeVote] found the caller's vote and retyped it. *)
Lemma ChangeVote_ok vote t w :
  target_of vote = Some t ->
  fst (ChangeVote vote w) = OK ->
  vote_type_ok (Vote.VoteType vote) = true
  /\ exists existing,
      find (vote_on (Vote.UserID vote) t) (votes (store w)) = Some existing
      /\ votes (store (snd (ChangeVote vote w)))
         = map (update_vote_row
                  (Vote.with_VoteType existing (Vote.VoteType vote))
                  (clock w))
             (votes (store w)).
Proof.
  intros Ht. unfold ChangeVote.
  destruct (negb _ && negb _) eqn:Hty; [discriminate |].
  assert (Hok : vote_type_ok (Vote.VoteType vote) = true).
  { unfold vote_type_ok.
    destruct (Vote.VoteType vote =? "upvote")%string,
             (Vote.VoteType vote =? "downvote")%string;
      (reflexivity || discriminate). }
  rewrite Ht.
  destruct (GetVoteByUserAndTarget _ t w) as [[e | x] w1] eqn:Hlook;
    [discriminate |].
  destruct (Vote.VoteType x =? Vote.VoteType vote)%string; [discriminate |].
  destruct (UpdateVote _ w1) as [[e | r] w2] eqn:Hupd; [discriminate |].
  intros _. split; [exact Hok |].
  apply lookup_found in Hlook as [Hfind ->].
  exists x. split; [exact Hfind |].
  rewrite UpdateKarmaOn_votes.
  apply UpdateVote_done in Hupd. now subst w2.
Qed.

(** X3.  After a successful ChangeVote, the same ChangeVote again, sent to
    a driver that refuses nothing, fails with the "already set" error and
    leaves the database as it is. *)
Theorem ChangeVote_twice_is_refused
        (vote : Vote.t) (t : target) (w : World)
        (Ht : target_of vote = Some t)
        (Hok : fst (ChangeVote vote w) = OK)
        (Hf : faults (snd (ChangeVote vote w)) = []) :
  fst (ChangeVote vote (snd (ChangeVote vote w)))
  = Err "ChangeVote: vote type is already set to the desired value"
  /\ store (snd (ChangeVote vote (snd (ChangeVote vote w))))
     = store (snd (ChangeVote vote w)).
Proof.
  destruct (ChangeVote_ok _ _ _ Ht Hok) as (Hty & existing & Hfind & Hv).
  assert (Hnow : find (vote_on (Vote.UserID vote) t)
                   (votes (store (snd (ChangeVote vote w))))
                 = Some (update_vote_row
                           (Vote.with_VoteType existing (Vote.VoteType vote))
                           (clock w) existing)).
  { rewrite Hv.
    rewrite find_map_commute by (intro; apply update_vote_row_vote_on).
    now rewrite Hfind. }
  unfold ChangeVote at 1 3.
  rewrite (vote_type_ok_passes _ Hty), Ht,
    (GetVoteByUserAndTarget_run _ _ _ Hf), Hnow.
  unfold update_vote_row. simpl. rewrite Z.eqb_refl. simpl.
  rewrite String.eqb_refl. now split.
Qed.

Lemma ChangeVote_twice_is_refused_witness :
  fst (ChangeVote (Example.downvote 1 1)
         (snd (ChangeVote (Example.downvote 1 1)
                 (mkWorld Scenario.db1 100 [] []))))
  = Err "ChangeVote: vote type is already set to the desired value".
Proof.
  apply (ChangeVote_twice_is_refused (Example.downvote 1 1) (OnPost 1)
           (mkWorld Scenario.db1 100 [] [])); reflexivity.
Defined.

(** A successful [RemoveVote] found the caller's vote and deleted the rows
    with its id. *)
Lemma RemoveVoteOn_ok u t w :
  t <> OnPost 0 ->
  fst (RemoveVoteOn u t w) = OK ->
  exists existing,
    find (vote_on u t) (votes (store w)) = Some existing
    /\ votes (store (snd (RemoveVoteOn u t w)))
       = filter (fun row => negb (Vote.ID row =? Vote.ID existing))
           (votes (store w)).
Proof.
  intros Hnz. rewrite (RemoveVoteOn_unfold _ _ _ Hnz).
  destruct (GetVoteByUserAndTarget u t w) as [[e | x] w1] eqn:Hlook;
    [discriminate |].
  cbv zeta.
  destruct (DeleteVote x w1) as [[e |] w2] eqn:Hdel; [discriminate |].
  intros _. apply lookup_found in Hlook as [Hfind ->].
  apply DeleteVote_done in Hdel.
  exists x. split; [exact Hfind |].
  assert (Hv : votes (store w2)
               = filter (fun row => negb (Vote.ID row =? Vote.ID x))
                   (votes (store w))) by now subst w2.
  destruct (Vote.PostID x), (Vote.CommentID x);
    rewrite ?UpdateKarma_votes; exact Hv.
Qed.

Lemma find_single {A} (f : A -> bool) rows x :
  find f rows = Some x ->
  (List.length (filter f rows) <= 1)%nat ->
  filter f rows = [x].
Proof.
  induction rows as [| y rows IH]; simpl; [discriminate |].
  destruct (f y) eqn:Hy.
  - intros H Hlen. inversion H; subst y. simpl in Hlen.
    destruct (filter f rows); [reflexivity | simpl in Hlen; lia].
  - exact IH.
Qed.

(** X4.  In a database with at most one live vote per (user, target):
    after a successful RemoveVote (called for a target, post ids starting at
    1), the same RemoveVote again, sent to a driver that refuses nothing,
    fails with the lookup's not-found error and leaves the database as it
    is. *)
Theorem RemoveVote_twice_finds_nothing
        (u : Z) (t : target) (w : World)
        (Hinv : at_most_one_vote (store w))
        (Hnz : t <> OnPost 0)
        (Hok : fst (RemoveVoteOn u t w) = OK)
        (Hf : faults (snd (RemoveVoteOn u t w)) = []) :
  fst (RemoveVoteOn u t (snd (RemoveVoteOn u t w)))
  = Err (Errorf "RemoveVote" (lookup_not_found_msg t))
  /\ store (snd (RemoveVoteOn u t (snd (RemoveVoteOn u t w))))
     = store (snd (RemoveVoteOn u t w)).
Proof.
  destruct (RemoveVoteOn_ok _ _ _ Hnz Hok) as (x & Hfind & Hv).
  assert (Hnone : find (vote_on u t)
                    (votes (store (snd (RemoveVoteOn u t w)))) = None).
  { apply find_none_filter. rewrite Hv, filter_swap.
    rewrite (find_single _ _ _ Hfind (Hinv u t)). simpl.
    now rewrite Z.eqb_refl. }
  rewrite (RemoveVoteOn_unfold u t (snd (RemoveVoteOn u t w)) Hnz).
  rewrite (GetVoteByUserAndTarget_run _ _ _ Hf), Hnone. now split.
Qed.

Lemma RemoveVote_twice_finds_nothing_witness :
  fst (RemoveVoteOn 1 (OnPost 1)
         (snd (RemoveVoteOn 1 (OnPost 1) (mkWorld Scenario.db1 100 [] []))))
  = Err (Errorf "RemoveVote" (lookup_not_found_msg (OnPost 1))).
Proof.
  assert (Hinv : at_most_one_vote
                   (store (mkWorld Scenario.db1 100 [] []))).
  { intros u t. unfold live_votes. simpl.
    destruct (vote_on u t Scenario.alice_vote); simpl; lia. }
  assert (Hnz : OnPost 1 <> OnPost 0) by discriminate.
  apply (RemoveVote_twice_finds_nothing 1 (OnPost 1)
           (mkWorld Scenario.db1 100 [] []) Hinv Hnz); reflexivity.
Defined.

(** ** Reading a vote back *)

Lemma GetVoteOn_unfold u t w :
  t <> OnPost 0 ->
  GetVoteOn u t w = GetVoteByUserAndTarget u t w.
Proof.
  intros Hnz. destruct t as [p | c]; simpl; unfold GetVote.
  - assert ((p =? 0) = false) as -> by (apply Z.eqb_neq; congruence).
    simpl. now destruct (GetVoteByUserAndPost u p w) as [[e | v] w1].
  - simpl. now destruct (GetVoteByUserAndComment u c w) as [[e | v] w1].
Qed.

(** X5.  GetVote after CastVote: when a user without a live vote on a
    target has cast one successfully, GetVote for that user and target, sent
    to a driver that refuses nothing, returns a vote of that user on that
    target with the type that was cast, and reads only.  GetVote with both a
    post id and a comment id is refused before any statement is sent. *)
Theorem GetVote_returns_the_cast_vote
        (vote : Vote.t) (t : target) (w : World)
        (Ht : target_of vote = Some t)
        (Hnz : t <> OnPost 0)
        (Hnone : live_votes (Vote.UserID vote) t (store w) = [])
        (Hok : fst (CastVote vote w) = OK)
        (Hf : faults (snd (CastVote vote w)) = []) :
  (exists row,
      fst (GetVoteOn (Vote.UserID vote) t (snd (CastVote vote w))) = inr row
      /\ Vote.UserID row = Vote.UserID vote
      /\ target_of row = Some t
      /\ Vote.VoteType row = Vote.VoteType vote)
  /\ store (snd (GetVoteOn (Vote.UserID vote) t (snd (CastVote vote w))))
     = store (snd (CastVote vote w))
  /\ (forall u p c w',
         p <> 0 -> c <> 0 ->
         GetVote u p c w'
         = (inl "GetVote: vote must be on either a post or a comment"%string,
            w')).
Proof.
  destruct (CastVote_ok _ _ _ Ht Hok)
    as [(row & Hv & Hru & Hrp & Hrc & Hrt) _].
  pose proof (vote_on_target_of _ _ _ Ht Hru Hrp Hrc) as Hmine.
  assert (Hfind : find (vote_on (Vote.UserID vote) t)
                    (votes (store (snd (CastVote vote w)))) = Some row).
  { rewrite Hv. apply find_last; [| exact Hmine].
    now apply find_none_filter. }
  rewrite (GetVoteOn_unfold _ _ _ Hnz), (GetVoteByUserAndTarget_run _ _ _ Hf).
  rewrite Hfind. split; [| split].
  - exists row. repeat split; auto.
    unfold target_of in *. now rewrite Hrp, Hrc.
  - reflexivity.
  - intros u p c w' Hp Hc. unfold GetVote.
    apply Z.eqb_neq in Hp, Hc. now rewrite Hp, Hc.
Qed.

Lemma GetVote_returns_the_cast_vote_witness :
  exists row,
    fst (GetVoteOn 1 (OnPost 1)
           (snd (CastVote (Example.downvote 1 1) Example.w0))) = inr row
    /\ Vote.VoteType row = "downvote"%string.
Proof.
  assert (Hnz : OnPost 1 <> OnPost 0) by discriminate.
  destruct (GetVote_returns_the_cast_vote (Example.downvote 1 1) (OnPost 1)
              Example.w0 eq_refl Hnz eq_refl eq_refl eq_refl)
    as [(row & Hget & _ & _ & Hty) _].
  exists row. split; [exact Hget | exact Hty].
Defined.

(** ** Adding comments *)

Lemma max_id_upper ids x : In x ids -> x <= max_id ids.
Proof.
  induction ids as [| y ids IH]; simpl; [tauto |].
  intros [-> | Hin]; [lia |]. specialize (IH Hin). lia.
Qed.

Lemma next_id_fresh seq ids x : In x ids -> x < next_id seq ids.
Proof.
  intros Hin. apply max_id_upper in Hin. unfold next_id. lia.
Qed.

Lemma CreateComment_accepts c w :
  faults w = [] ->
  user_exists (store w) (Comment.AuthorID c) = true ->
  post_exists (store w) (Comment.PostID c) = true ->
  fk_ok (comment_exists (store w)) (Comment.ParentID c) = true ->
  let id := next_id (seq_comments (store w))
              (map Comment.ID (comments (store w))) in
  CreateComment c w
  = (inr (Comment.mk id (Comment.Content c) (Comment.AuthorID c)
            (Comment.PostID c) (Comment.ParentID c) (Comment.Karma c)
            (clock w) (clock w)),
     with_store (sent (QCreateComment c) w)
       (set_comments (store w)
          (comments (store w)
           ++ [Comment.mk id (Comment.Content c) (Comment.AuthorID c)
                 (Comment.PostID c) (Comment.ParentID c) 0
                 (clock w) (clock w)])
          id)).
Proof.
  intros Hf Hu Hp Hfk id. unfold CreateComment; cbv zeta.
  rewrite (failing_no_faults _ Hf), Hu, Hp, Hfk. simpl.
  now rewrite references_ok_found.
Qed.

(** X6.  AddComment on a driver that refuses nothing, with content, an
    existing author, an existing post and, if a parent id is supplied, an
    existing parent: the call succeeds and the database changes by exactly
    one appended comment.  That comment has the caller's content, author,
    post and parent id (the parent id is stored as supplied, it is not
    cleared), score 0 whatever score the caller's struct carried, the current
    time as creation and update time, and an id larger than the id of every
    comment stored before. *)
Theorem AddComment_appends_one_comment
        (comment : Comment.t) (w : World)
        (Hf : faults w = [])
        (Hcontent : Comment.Content comment <> ""%string)
        (Hauthor : user_exists (store w) (Comment.AuthorID comment) = true)
        (Hpost : post_exists (store w) (Comment.PostID comment) = true)
        (Hparent : fk_ok (comment_exists (store w))
                     (Comment.ParentID comment) = true) :
  fst (AddComment comment w) = OK
  /\ exists id,
      store (snd (AddComment comment w))
      = set_comments (store w)
          (comments (store w)
           ++ [Comment.mk id (Comment.Content comment)
                 (Comment.AuthorID comment) (Comment.PostID comment)
                 (Comment.ParentID comment) 0 (clock w) (clock w)])
          id
      /\ forall c, In c (comments (store w)) -> Comment.ID c < id.
Proof.
  unfold AddComment.
  apply String.eqb_neq in Hcontent. rewrite Hcontent.
  rewrite (GetUserByID_run _ _ Hf).
  destruct (existsb_find _ _ Hauthor) as [usr ->].
  set (w1 := sent (QGetUserByID (Comment.AuthorID comment)) w).
  assert (Hf1 : faults w1 = []) by now apply sent_no_faults.
  rewrite (GetPostByID_run _ _ Hf1).
  destruct (existsb_find _ _ Hpost) as [post Hfind].
  change (posts (store w1)) with (posts (store w)). rewrite Hfind.
  set (w2 := sent (QGetPostByID (Comment.PostID comment)) w1).
  assert (Hf2 : faults w2 = []) by now apply sent_no_faults.
  rewrite (CreateComment_accepts comment w2 Hf2 Hauthor Hpost Hparent).
  split; [reflexivity |].
  eexists. split; [reflexivity |].
  intros c Hc. apply next_id_fresh. now apply in_map.
Qed.

Lemma AddComment_appends_one_comment_witness :
  fst (AddComment (Comment.mk 0 "first" 2 1 None 55 0 0) Example.w0) = OK.
Proof.
  assert (Hc : "first"%string <> ""%string) by discriminate.
  apply (AddComment_appends_one_comment
           (Comment.mk 0 "first" 2 1 None 55 0 0) Example.w0
           eq_refl Hc eq_refl eq_refl eq_refl).
Defined.

(** ** Failed thread operations write nothing *)

Lemma CreateComment_failed c w e w' :
  CreateComment c w = (inl e, w') -> store w' = store w.
Proof.
  unfold CreateComment; cbv zeta.
  destruct (failing w); [intros H; now inversion H |].
  destruct (references_ok w _);
    [discriminate | intros H; now inversion H].
Qed.

Lemma SendMessage_failed m w e w' :
  MessageRepository.SendMessage m w = (inl e, w') -> store w' = store w.
Proof.
  unfold MessageRepository.SendMessage; cbv zeta.
  destruct (failing w); [intros H; now inversion H |].
  destruct (references_ok w _);
    [discriminate | intros H; now inversion H].
Qed.

(** X7.  AddComment and ReplyToComment are all-or-nothing: whatever the
    driver refuses, a call that does not return nil (an error, or the panic
    on a nil parent id) leaves the database exactly as it was. *)
Theorem failed_comment_call_writes_nothing (comment : Comment.t) (w : World) :
  (fst (AddComment comment w) <> OK ->
   store (snd (AddComment comment w)) = store w)
  /\ (fst (ReplyToComment comment w) <> OK ->
      store (snd (ReplyToComment comment w)) = store w).
Proof.
  split.
  - unfold AddComment.
    destruct (Comment.Content comment =? "")%string; [reflexivity |].
    pose proof (GetUserByID_store (Comment.AuthorID comment) w) as Hu.
    destruct (GetUserByID _ w) as [[e | usr] w1]; simpl in Hu;
      [intros _; exact Hu |].
    pose proof (GetPostByID_store (Comment.PostID comment) w1) as Hp.
    destruct (GetPostByID _ w1) as [[e | post] w2]; simpl in Hp;
      [intros _; simpl; now rewrite Hp |].
    destruct (CreateComment comment w2) as [[e | r] w3] eqn:Hc;
      [| intros H; now elim H].
    intros _. simpl. apply CreateComment_failed in Hc.
    now rewrite Hc, Hp.
  - unfold ReplyToComment.
    destruct (Comment.Content comment =? "")%string; [reflexivity |].
    pose proof (GetUserByID_store (Comment.AuthorID comment) w) as Hu.
    destruct (GetUserByID _ w) as [[e | usr] w1]; simpl in Hu;
      [intros _; exact Hu |].
    destruct (Comment.ParentID comment) as [parentID |];
      [| intros _; exact Hu].
    pose proof (GetCommentByID_store parentID w1) as Hp.
    destruct (GetCommentByID parentID w1) as [[e | parent] w2]; simpl in Hp;
      [intros _; simpl; now rewrite Hp |].
    destruct (CreateComment _ w2) as [[e | r] w3] eqn:Hc;
      [| intros H; now elim H].
    intros _. simpl. apply CreateComment_failed in Hc.
    now rewrite Hc, Hp.
Qed.

(** X8.  SendMessage and ReplyToMessage are all-or-nothing: whatever the
    driver refuses, a call that does not return nil leaves the database
    exactly as it was. *)
Theorem failed_message_call_writes_nothing (message : Message.t) (w : World) :
  (fst (SendMessage message w) <> OK ->
   store (snd (SendMessage message w)) = store w)
  /\ (fst (ReplyToMessage message w) <> OK ->
      store (snd (ReplyToMessage message w)) = store w).
Proof.
  split.
  - unfold SendMessage.
    destruct (Message.Content message =? "")%string; [reflexivity |].
    destruct (Message.SenderID message =? Message.ReceiverID message);
      [reflexivity |].
    pose proof (GetUserByID_store (Message.SenderID message) w) as Hu.
    destruct (GetUserByID _ w) as [[e | usr] w1]; simpl in Hu;
      [intros _; exact Hu |].
    pose proof (GetUserByID_store (Message.ReceiverID message) w1) as Hr.
    destruct (GetUserByID _ w1) as [[e | rcv] w2]; simpl in Hr;
      [intros _; simpl; now rewrite Hr |].
    destruct (MessageRepository.SendMessage message w2) as [[e | r] w3]
      eqn:Hs; [| intros H; now elim H].
    intros _. simpl. apply SendMessage_failed in Hs.
    now rewrite Hs, Hr.
  - unfold ReplyToMessage.
    destruct (Message.Content message =? "")%string; [reflexivity |].
    destruct (Message.SenderID message =? Message.ReceiverID message);
      [reflexivity |].
    pose proof (GetUserByID_store (Message.SenderID message) w) as Hu.
    destruct (GetUserByID _ w) as [[e | usr] w1]; simpl in Hu;
      [intros _; exact Hu |].
    destruct (Message.ParentID message) as [parentID |];
      [| intros _; exact Hu].
    pose proof (GetMessageByID_store parentID w1) as Hp.
    destruct (MessageRepository.GetMessageByID parentID w1)
      as [[e | parent] w2]; simpl in Hp;
      [intros _; simpl; now rewrite Hp |].
    destruct (MessageRepository.SendMessage _ w2) as [[e | r] w3] eqn:Hs;
      [| intros H; now elim H].
    intros _. simpl. apply SendMessage_failed in Hs.
    now rewrite Hs, Hp.
Qed.

Lemma failed_comment_call_writes_nothing_witness :
  store (snd (AddComment (Comment.mk 0 "lost" 1 9 None 0 0 0) Example.w0))
  = store Example.w0.
Proof.
  apply (failed_comment_call_writes_nothing
           (Comment.mk 0 "lost" 1 9 None 0 0 0) Example.w0).
  discriminate.
Defined.

Lemma failed_message_call_writes_nothing_witness :
  store (snd (SendMessage (Message.mk 0 1 9 "hi" None 0 0) Example.w0))
  = store Example.w0.
Proof.
  apply (failed_message_call_writes_nothing
           (Message.mk 0 1 9 "hi" None 0 0) Example.w0).
  discriminate.
Defined.

(** ** Editing comments and posts *)

Lemma update_comment_row_frame c now row :
  comment_frame (update_comment_row c now row) = comment_frame row.
Proof.
  unfold update_comment_row. now destruct (Comment.ID row =? Comment.ID c).
Qed.

Lemma update_post_row_frame p now row :
  post_frame (update_post_row p now row) = post_frame row.
Proof.
  unfold update_post_row. now destruct (Post.ID row =? Post.ID p).
Qed.

Lemma set_comments_same d : set_comments d (comments d) (seq_comments d) = d.
Proof. now destruct d. Qed.

Lemma set_posts_same d : set_posts d (posts d) = d.
Proof. now destruct d. Qed.

(** X9.  UpdateComment of the comment service.  Whatever happens, the
    database afterwards differs from the one before at most in the comments
    table, and there every row keeps its id, author, post, parent, score and
    creation time, in the same order.  With empty content the call is refused
    before any statement.  On a driver that refuses nothing and with content:
    if a comment has the id, the call succeeds and exactly the rows with that
    id get the new content and the current time as update time; if none has,
    the call fails with "comment does not exist" and nothing changes. *)
Theorem UpdateComment_edits_content_only (comment : Comment.t) (w : World) :
  (exists rows,
      store (snd (CommentService.UpdateComment comment w))
      = set_comments (store w) rows (seq_comments (store w))
      /\ map comment_frame rows = map comment_frame (comments (store w)))
  /\ (Comment.Content comment = ""%string ->
      CommentService.UpdateComment comment w
      = (Err "UpdateComment: content is required", w))
  /\ (faults w = [] ->
      Comment.Content comment <> ""%string ->
      if comment_exists (store w) (Comment.ID comment)
      then
        fst (CommentService.UpdateComment comment w) = OK
        /\ comments (store (snd (CommentService.UpdateComment comment w)))
           = map (fun row =>
                    if Comment.ID row =? Comment.ID comment
                    then Comment.mk (Comment.ID row) (Comment.Content comment)
                           (Comment.AuthorID row) (Comment.PostID row)
                           (Comment.ParentID row) (Comment.Karma row)
                           (Comment.CreatedAt row) (clock w)
                    else row)
               (comments (store w))
      else
        fst (CommentService.UpdateComment comment w)
        = Err "UpdateComment: comment does not exist"
        /\ store (snd (CommentService.UpdateComment comment w)) = store w).
Proof.
  split; [| split].
  - unfold CommentService.UpdateComment.
    destruct (Comment.Content comment =? "")%string.
    { exists (comments (store w)). now rewrite set_comments_same. }
    pose proof (GetCommentByID_store (Comment.ID comment) w) as Hg.
    destruct (GetCommentByID _ w) as [[e | existing] w1]; simpl in Hg.
    { exists (comments (store w)). simpl. now rewrite Hg, set_comments_same. }
    cbv zeta.
    destruct (UpdateComment_store
                (comment_with_Content existing (Comment.Content comment)) w1)
      as [H | H];
      destruct (UpdateComment _ w1) as [[e | r] w2]; simpl in *;
      rewrite H, Hg.
    + exists (comments (store w)). now rewrite set_comments_same.
    + exists (comments (store w)). now rewrite set_comments_same.
    + eexists. split; [reflexivity |].
      rewrite map_map. apply map_ext. intros row.
      apply update_comment_row_frame.
    + eexists. split; [reflexivity |].
      rewrite map_map. apply map_ext. intros row.
      apply update_comment_row_frame.
  - intros Hempty. unfold CommentService.UpdateComment.
    now rewrite Hempty.
  - intros Hf Hcontent. unfold CommentService.UpdateComment.
    apply String.eqb_neq in Hcontent. rewrite Hcontent.
    rewrite (GetCommentByID_run _ _ Hf).
    destruct (comment_exists (store w) (Comment.ID comment)) eqn:Hex.
    + destruct (existsb_find _ _ Hex) as [existing Hfind]. rewrite Hfind.
      pose proof (find_some _ _ Hfind) as [_ Hid]. apply Z.eqb_eq in Hid.
      cbv zeta.
      destruct (UpdateComment_run
                  (comment_with_Content existing (Comment.Content comment))
                  (sent (QGetCommentByID (Comment.ID comment)) w))
        as [r ->].
      * now apply sent_no_faults.
      * simpl. now rewrite Hid.
      * simpl. split; [reflexivity |].
        apply map_ext. intros row. unfold update_comment_row. simpl.
        now rewrite Hid.
    + destruct (find _ (comments (store w))) as [existing |] eqn:Hfind;
        [| now split].
      apply find_some_exists in Hfind. unfold comment_exists in Hex.
      congruence.
Qed.

Lemma UpdateComment_edits_content_only_witness :
  fst (CommentService.UpdateComment (Comment.mk 1 "nicer" 0 0 None 0 0 0)
         Example.w0) = OK.
Proof.
  assert (Hc : "nicer"%string <> ""%string) by discriminate.
  destruct (UpdateComment_edits_content_only
              (Comment.mk 1 "nicer" 0 0 None 0 0 0) Example.w0)
    as (_ & _ & H).
  exact (proj1 (H eq_refl Hc)).
Defined.

(** X10.  UpdatePost of the post service.  Whatever happens, the database
    afterwards differs from the one before at most in the posts table, and
    there every row keeps its id, author, subreddit, score and creation time,
    in the same order.  With an empty title or empty content the call is
    refused before any statement.  On a driver that refuses nothing and with
    both: if a post has the id, the call succeeds and exactly the rows with
    that id get the new title and content and the current time as update
    time; if none has, the call fails with "post does not exist" and nothing
    changes. *)
Theorem UpdatePost_edits_title_and_content_only (post : Post.t) (w : World) :
  (exists rows,
      store (snd (PostService.UpdatePost post w)) = set_posts (store w) rows
      /\ map post_frame rows = map post_frame (posts (store w)))
  /\ (Post.Title post = ""%string \/ Post.Content post = ""%string ->
      PostService.UpdatePost post w
      = (Err "UpdatePost: title and content are required", w))
  /\ (faults w = [] ->
      Post.Title post <> ""%string ->
      Post.Content post <> ""%string ->
      if post_exists (store w) (Post.ID post)
      then
        fst (PostService.UpdatePost post w) = OK
        /\ posts (store (snd (PostService.UpdatePost post w)))
           = map (fun row =>
                    if Post.ID row =? Post.ID post
                    then Post.mk (Post.ID row) (Post.Title post)
                           (Post.Content post) (Post.AuthorID row)
                           (Post.SubredditID row) (Post.Karma row)
                           (Post.CreatedAt row) (clock w)
                    else row)
               (posts (store w))
      else
        fst (PostService.UpdatePost post w)
        = Err "UpdatePost: post does not exist"
        /\ store (snd (PostService.UpdatePost post w)) = store w).
Proof.
  split; [| split].
  - unfold PostService.UpdatePost.
    destruct ((Post.Title post =? "")%string || (Post.Content post =? "")%string).
    { exists (posts (store w)). now rewrite set_posts_same. }
    pose proof (GetPostByID_store (Post.ID post) w) as Hg.
    destruct (GetPostByID _ w) as [[e | existing] w1]; simpl in Hg.
    { exists (posts (store w)). simpl. now rewrite Hg, set_posts_same. }
    cbv zeta.
    destruct (UpdatePost_store
                (post_with_Title_Content existing (Post.Title post)
                   (Post.Content post)) w1) as [H | H];
      destruct (UpdatePost _ w1) as [[e | r] w2]; simpl in *;
      rewrite H, Hg.
    + exists (posts (store w)). now rewrite set_posts_same.
    + exists (posts (store w)). now rewrite set_posts_same.
    + eexists. split; [reflexivity |].
      rewrite map_map. apply map_ext. intros row. apply update_post_row_frame.
    + eexists. split; [reflexivity |].
      rewrite map_map. apply map_ext. intros row. apply update_post_row_frame.
  - intros Hempty. unfold PostService.UpdatePost.
    destruct Hempty as [-> | ->]; simpl; [reflexivity |].
    now rewrite orb_true_r.
  - intros Hf Ht Hc. unfold PostService.UpdatePost.
    apply String.eqb_neq in Ht, Hc. rewrite Ht, Hc. simpl.
    rewrite (GetPostByID_run _ _ Hf).
    destruct (post_exists (store w) (Post.ID post)) eqn:Hex.
    + destruct (existsb_find _ _ Hex) as [existing Hfind]. rewrite Hfind.
      pose proof (find_some _ _ Hfind) as [_ Hid]. apply Z.eqb_eq in Hid.
      cbv zeta.
      destruct (UpdatePost_run
                  (post_with_Title_Content existing (Post.Title post)
                     (Post.Content post))
                  (sent (QGetPostByID (Post.ID post)) w)) as [r ->].
      * now apply sent_no_faults.
      * simpl. now rewrite Hid.
      * simpl. split; [reflexivity |].
        apply map_ext. intros row. unfold update_post_row. simpl.
        now rewrite Hid.
    + destruct (find _ (posts (store w))) as [existing |] eqn:Hfind;
        [| now split].
      apply find_some_exists in Hfind. unfold post_exists in Hex.
      congruence.
Qed.

Lemma UpdatePost_edits_title_and_content_only_witness :
  fst (PostService.UpdatePost (Post.mk 1 "hi" "edited" 0 0 0 0 0) Example.w0)
  = OK.
Proof.
  assert (Ht : "hi"%string <> ""%string) by discriminate.
  assert (Hc : "edited"%string <> ""%string) by discriminate.
  destruct (UpdatePost_edits_title_and_content_only
              (Post.mk 1 "hi" "edited" 0 0 0 0 0) Example.w0) as (_ & _ & H).
  exact (proj1 (H eq_refl Ht Hc)).
Defined.

(** ** Sending and answering messages *)

Lemma SendMessage_accepts m w :
  faults w = [] ->
  user_exists (store w) (Message.SenderID m) = true ->
  user_exists (store w) (Message.ReceiverID m) = true ->
  fk_ok (message_exists (store w)) (Message.ParentID m) = true ->
  let row := Message.mk (next_id (seq_messages (store w))
                           (map Message.ID (messages (store w))))
               (Message.SenderID m) (Message.ReceiverID m)
               (Message.Content m) (Message.ParentID m) (clock w) (clock w) in
  MessageRepository.SendMessage m w
  = (inr row,
     with_store (sent (QSendMessage m) w)
       (set_messages (store w) (messages (store w) ++ [row])
          (Message.ID row))).
Proof.
  intros Hf Hs Hr Hfk row. unfold MessageRepository.SendMessage; cbv zeta.
  rewrite (failing_no_faults _ Hf), Hs, Hr, Hfk. simpl.
  now rewrite references_ok_found.
Qed.

Lemma find_fresh_message rows row :
  (forall m, In m rows -> Message.ID m < Message.ID row) ->
  find (fun m => Message.ID m =? Message.ID row) (rows ++ [row]) = Some row.
Proof.
  intros Hfresh. apply find_last; [| apply Z.eqb_refl].
  destruct (find _ rows) as [m |] eqn:Hfind; [| reflexivity].
  apply find_some in Hfind as [Hin Heq]. apply Z.eqb_eq in Heq.
  specialize (Hfresh _ Hin). lia.
Qed.

Lemma MessageService_GetMessageByID_run id w :
  faults w = [] ->
  MessageService.GetMessageByID id w
  = (match find (fun m => Message.ID m =? id) (messages (store w)) with
     | Some m => inr m
     | None => inl "GetMessageByID: message not found"%string
     end, sent (QGetMessageByID id) w).
Proof.
  intros Hf.
  unfold MessageService.GetMessageByID, MessageRepository.GetMessageByID.
  cbv zeta. rewrite (failing_no_faults _ Hf). now destruct (find _ _).
Qed.

(** X11.  SendMessage, then GetMessageByID.  On a driver that refuses
    nothing, a message with content from an existing user to another
    existing user (and, if a parent id is supplied, an existing parent) is
    accepted and given an id larger than every earlier message id; looking
    that id up afterwards returns the message with the sender, receiver,
    content and parent id that were sent and the current time as creation
    and update time. *)
Theorem SendMessage_then_GetMessageByID
        (message : Message.t) (w : World)
        (Hf : faults w = [])
        (Hcontent : Message.Content message <> ""%string)
        (Hother : Message.SenderID message <> Message.ReceiverID message)
        (Hsender : user_exists (store w) (Message.SenderID message) = true)
        (Hreceiver : user_exists (store w) (Message.ReceiverID message) = true)
        (Hparent : fk_ok (message_exists (store w))
                     (Message.ParentID message) = true) :
  let id := next_id (seq_messages (store w))
              (map Message.ID (messages (store w))) in
  fst (SendMessage message w) = OK
  /\ (forall m, In m (messages (store w)) -> Message.ID m < id)
  /\ fst (MessageService.GetMessageByID id (snd (SendMessage message w)))
     = inr (Message.mk id (Message.SenderID message)
              (Message.ReceiverID message) (Message.Content message)
              (Message.ParentID message) (clock w) (clock w)).
Proof.
  intros id.
  assert (Hfresh : forall m, In m (messages (store w)) -> Message.ID m < id).
  { intros m Hm. apply next_id_fresh. now apply in_map. }
  unfold SendMessage.
  apply String.eqb_neq in Hcontent. rewrite Hcontent.
  apply Z.eqb_neq in Hother. rewrite Hother.
  rewrite (GetUserByID_run _ _ Hf).
  destruct (existsb_find _ _ Hsender) as [usr ->].
  set (w1 := sent (QGetUserByID (Message.SenderID message)) w).
  assert (Hf1 : faults w1 = []) by now apply sent_no_faults.
  rewrite (GetUserByID_run _ _ Hf1).
  destruct (existsb_find _ _ Hreceiver) as [rcv Hrcv].
  change (users (store w1)) with (users (store w)). rewrite Hrcv.
  set (w2 := sent (QGetUserByID (Message.ReceiverID message)) w1).
  assert (Hf2 : faults w2 = []) by now apply sent_no_faults.
  rewrite (SendMessage_accepts message w2 Hf2 Hsender Hreceiver Hparent).
  cbn [fst snd].
  split; [reflexivity |]. split; [exact Hfresh |].
  set (row := Message.mk _ _ _ _ _ _ _).
  set (w3 := with_store _ _).
  assert (Hf3 : faults w3 = [])
    by (apply (sent_no_faults (QSendMessage message) w2 Hf2)).
  rewrite (MessageService_GetMessageByID_run _ _ Hf3).
  change (messages (store w3)) with (messages (store w) ++ [row]).
  change id with (Message.ID row).
  now rewrite (find_fresh_message (messages (store w)) row Hfresh).
Qed.

Lemma SendMessage_then_GetMessageByID_witness :
  fst (MessageService.GetMessageByID 2
         (snd (SendMessage (Message.mk 0 2 1 "hello alice" None 0 0)
                 Scenario.w_mail)))
  = inr (Message.mk 2 2 1 "hello alice" None 100 100).
Proof.
  assert (Hc : "hello alice"%string <> ""%string) by discriminate.
  assert (Ho : 2 <> 1) by discriminate.
  exact (proj2 (proj2 (SendMessage_then_GetMessageByID
                         (Message.mk 0 2 1 "hello alice" None 0 0)
                         Scenario.w_mail eq_refl Hc Ho eq_refl eq_refl
                         eq_refl))).
Defined.

(** X12.  ReplyToMessage on a driver that refuses nothing, with content,
    an existing sender who did not name himself as receiver, and an existing
    parent message (whose sender is a user): the call succeeds and appends
    one message whose receiver is the sender of the parent, whatever receiver
    the caller supplied, and whose parent is the given id.  The reply is in
    every unlimited answer of GetReplies for the parent, and in no answer of
    GetMessagesForUser for any user: a reply never shows up in an inbox. *)
Theorem ReplyToMessage_goes_to_parent_sender
        (message parent : Message.t) (parentID : Z) (w : World)
        (Hf : faults w = [])
        (Hcontent : Message.Content message <> ""%string)
        (Hother : Message.SenderID message <> Message.ReceiverID message)
        (Hsender : user_exists (store w) (Message.SenderID message) = true)
        (Hpid : Message.ParentID message = Some parentID)
        (Hparent : find (fun m => Message.ID m =? parentID)
                     (messages (store w)) = Some parent)
        (Hto : user_exists (store w) (Message.SenderID parent) = true) :
  fst (ReplyToMessage message w) = OK
  /\ exists reply,
      messages (store (snd (ReplyToMessage message w)))
      = messages (store w) ++ [reply]
      /\ Message.SenderID reply = Message.SenderID message
      /\ Message.ReceiverID reply = Message.SenderID parent
      /\ Message.ParentID reply = Some parentID
      /\ Message.Content reply = Message.Content message
      /\ (forall limit offset rows,
             limit < 0 -> offset <= 0 ->
             MessageRepository.GetReplies
               (store (snd (ReplyToMessage message w)))
               parentID limit offset rows ->
             In reply rows)
      /\ (forall userID limit offset rows,
             GetMessagesForUser (store (snd (ReplyToMessage message w)))
               userID limit offset rows ->
             ~ In reply rows).
Proof.
  unfold ReplyToMessage.
  apply String.eqb_neq in Hcontent. rewrite Hcontent.
  apply Z.eqb_neq in Hother. rewrite Hother.
  rewrite (GetUserByID_run _ _ Hf).
  destruct (existsb_find _ _ Hsender) as [usr ->].
  rewrite Hpid.
  set (w1 := sent (QGetUserByID (Message.SenderID message)) w).
  assert (Hf1 : faults w1 = []) by now apply sent_no_faults.
  unfold MessageRepository.GetMessageByID at 1 2 3; cbv zeta.
  rewrite (failing_no_faults _ Hf1).
  change (messages (store w1)) with (messages (store w)). rewrite Hparent.
  set (w2 := sent (QGetMessageByID parentID) w1).
  assert (Hf2 : faults w2 = []) by now apply sent_no_faults.
  rewrite (SendMessage_accepts
             (Message.with_ReceiverID message (Message.SenderID parent))
             w2 Hf2 Hsender Hto).
  2: { simpl. rewrite Hpid. simpl.
       apply (find_some_exists _ _ _ Hparent). }
  simpl. split; [reflexivity |].
  eexists. split; [reflexivity |].
  simpl. repeat split; auto.
  - intros limit offset rows Hl Ho [sorted [[Hperm _] ->]].
    unfold limit_offset.
    apply Z.ltb_lt in Hl. rewrite Hl.
    replace (Z.to_nat offset) with 0%nat by lia. simpl.
    eapply Permutation_in; [exact Hperm |].
    unfold MessageRepository.children. apply filter_In. simpl. split.
    + apply in_or_app. right. now left.
    + rewrite Hpid. simpl. apply Z.eqb_refl.
  - intros userID limit offset rows [sorted [[Hperm _] ->]] Hin.
    apply limit_offset_incl in Hin.
    apply (Permutation_in _ (Permutation_sym Hperm)) in Hin.
    unfold inbox in Hin. apply filter_In in Hin as [_ Hsel].
    simpl in Hsel. rewrite Hpid in Hsel. simpl in Hsel.
    now rewrite andb_false_r in Hsel.
Qed.

Lemma ReplyToMessage_goes_to_parent_sender_witness :
  fst (ReplyToMessage (Message.mk 0 2 9 "hi alice" (Some 1) 0 0)
         Scenario.w_mail) = OK.
Proof.
  assert (Hc : "hi alice"%string <> ""%string) by discriminate.
  assert (Ho : 2 <> 9) by discriminate.
  exact (proj1 (ReplyToMessage_goes_to_parent_sender
                  (Message.mk 0 2 9 "hi alice" (Some 1) 0 0) Scenario.hello
                  1 Scenario.w_mail eq_refl Hc Ho eq_refl eq_refl eq_refl
                  eq_refl)).
Defined.

(** ** Newest-first listings *)

Lemma newest_first_of_negated {A} (created_at : A -> time) rows :
  oldest_first (fun x => - created_at x) rows -> newest_first created_at rows.
Proof.
  unfold oldest_first, newest_first.
  induction 1 as [| x rows Hs IH Hall]; constructor; [exact IH |].
  eapply Forall_impl; [| exact Hall]. simpl. intros; lia.
Qed.

(** Some answer always exists: the rows sorted by descending time. *)
Lemma order_by_created_at_desc_exists {A} (created_at : A -> time) selected :
  order_by_created_at_desc created_at selected
    (sort_rows (fun x => - created_at x) selected).
Proof.
  destruct (sort_rows_orders A (fun x => - created_at x) selected)
    as [Hp Hs].
  split; [exact Hp | now apply newest_first_of_negated].
Qed.

Lemma newest_page_facts {A} (created_at : A -> time) selected sorted
      limit offset :
  order_by_created_at_desc created_at selected sorted ->
  (forall r, In r (limit_offset limit offset sorted) -> In r selected)
  /\ newest_first created_at (limit_offset limit offset sorted)
  /\ (0 <= limit ->
      (List.length (limit_offset limit offset sorted) <= Z.to_nat limit)%nat).
Proof.
  intros [Hp Hs]. repeat split.
  - intros r Hr. apply limit_offset_incl in Hr.
    eapply Permutation_in; [apply Permutation_sym, Hp | exact Hr].
  - now apply limit_offset_sorted.
  - apply limit_offset_length.
Qed.

(** X13.  Every answer of GetCommentsByPost consists of stored comments
    of that post that have no parent (replies are never listed), newest
    first, at most [limit] of them when [limit] is not negative; every answer
    of GetMessagesForUser consists of stored messages to that user that have
    no parent, newest first, at most [limit] of them; and both queries always
    have an answer. *)
Theorem top_level_listings_newest_first
        (d : DB) (key limit offset : Z) :
  (forall rows,
      GetCommentsByPost d key limit offset rows ->
      (forall c, In c rows ->
                 In c (comments d) /\ Comment.PostID c = key
                 /\ Comment.ParentID c = None)
      /\ newest_first Comment.CreatedAt rows
      /\ (0 <= limit -> (List.length rows <= Z.to_nat limit)%nat))
  /\ (exists rows, GetCommentsByPost d key limit offset rows)
  /\ (forall rows,
         GetMessagesForUser d key limit offset rows ->
         (forall m, In m rows ->
                    In m (messages d) /\ Message.ReceiverID m = key
                    /\ Message.ParentID m = None)
         /\ newest_first Message.CreatedAt rows
         /\ (0 <= limit -> (List.length rows <= Z.to_nat limit)%nat))
  /\ (exists rows, GetMessagesForUser d key limit offset rows).
Proof.
  split; [| split; [| split]].
  - intros rows [sorted [Hord ->]].
    destruct (newest_page_facts _ _ _ limit offset Hord) as (Hin & Hs & Hlen).
    split; [| now split].
    intros c Hc. apply Hin in Hc. unfold top_level_comments in Hc.
    apply filter_In in Hc as [Hc Hsel].
    apply andb_true_iff in Hsel as [Hp Hn]. apply Z.eqb_eq in Hp.
    repeat split; auto. now destruct (Comment.ParentID c).
  - eexists. eexists. split;
      [apply order_by_created_at_desc_exists | reflexivity].
  - intros rows [sorted [Hord ->]].
    destruct (newest_page_facts _ _ _ limit offset Hord) as (Hin & Hs & Hlen).
    split; [| now split].
    intros m Hm. apply Hin in Hm. unfold inbox in Hm.
    apply filter_In in Hm as [Hm Hsel].
    apply andb_true_iff in Hsel as [Hp Hn]. apply Z.eqb_eq in Hp.
    repeat split; auto. now destruct (Message.ParentID m).
  - eexists. eexists. split;
      [apply order_by_created_at_desc_exists | reflexivity].
Qed.

Lemma top_level_listings_newest_first_witness :
  newest_first Comment.CreatedAt [Example.comment1]
  /\ (List.length [Example.comment1] <= Z.to_nat 10)%nat.
Proof.
  destruct (top_level_listings_newest_first Example.db0 1 10 0) as [H _].
  destruct (H [Example.comment1]) as (_ & Hs & Hlen).
  - exists [Example.comment1]. split; [| reflexivity].
    split; [apply Permutation_refl | repeat constructor].
  - split; [exact Hs | apply Hlen; discriminate].
Defined.

(** X14.  Every answer of GetPostsBySubreddit consists of stored posts of
    that subreddit and every answer of GetFeedPosts of stored posts, newest
    first, at most [limit] of them when [limit] is not negative; both queries
    always have an answer. *)
Theorem post_listings_newest_first
        (d : DB) (subredditID limit offset : Z) :
  (forall rows,
      GetPostsBySubreddit d subredditID limit offset rows ->
      (forall p, In p rows ->
                 In p (posts d) /\ Post.SubredditID p = subredditID)
      /\ newest_first Post.CreatedAt rows
      /\ (0 <= limit -> (List.length rows <= Z.to_nat limit)%nat))
  /\ (exists rows, GetPostsBySubreddit d subredditID limit offset rows)
  /\ (forall rows,
         GetFeedPosts d limit offset rows ->
         (forall p, In p rows -> In p (posts d))
         /\ newest_first Post.CreatedAt rows
         /\ (0 <= limit -> (List.length rows <= Z.to_nat limit)%nat))
  /\ (exists rows, GetFeedPosts d limit offset rows).
Proof.
  split; [| split; [| split]].
  - intros rows [sorted [Hord ->]].
    destruct (newest_page_facts _ _ _ limit offset Hord) as (Hin & Hs & Hlen).
    split; [| now split].
    intros p Hp. apply Hin in Hp. unfold posts_of_subreddit in Hp.
    apply filter_In in Hp as [Hp Hsel]. apply Z.eqb_eq in Hsel. now split.
  - eexists. eexists. split;
      [apply order_by_created_at_desc_exists | reflexivity].
  - intros rows [sorted [Hord ->]].
    now destruct (newest_page_facts _ _ _ limit offset Hord)
      as (Hin & Hs & Hlen).
  - eexists. eexists. split;
      [apply order_by_created_at_desc_exists | reflexivity].
Qed.

Lemma post_listings_newest_first_witness :
  newest_first Post.CreatedAt [Example.post1]
  /\ (List.length [Example.post1] <= Z.to_nat 10)%nat.
Proof.
  destruct (post_listings_newest_first Example.db0 1 10 0) as (_ & _ & H & _).
  destruct (H [Example.post1]) as (_ & Hs & Hlen).
  - exists [Example.post1]. split; [| reflexivity].
    split; [apply Permutation_refl | repeat constructor].
  - split; [exact Hs | apply Hlen; discriminate].
Defined.

(** ** Each comment is listed in one place *)

(** X15.  A stored comment without a parent is in every unlimited answer
    of GetCommentsByPost for its post.  A stored comment with a parent is in
    every unlimited answer of GetReplies for that parent and in no answer of
    GetCommentsByPost, for any post, limit and offset. *)
Theorem comment_listed_in_one_place (d : DB) (c : Comment.t)
        (Hc : In c (comments d)) :
  match Comment.ParentID c with
  | None =>
      forall limit offset rows,
        limit < 0 -> offset <= 0 ->
        GetCommentsByPost d (Comment.PostID c) limit offset rows ->
        In c rows
  | Some parentID =>
      (forall limit offset rows,
          limit < 0 -> offset <= 0 ->
          CommentRepository.GetReplies d parentID limit offset rows ->
          In c rows)
      /\ (forall postID limit offset rows,
             GetCommentsByPost d postID limit offset rows -> ~ In c rows)
  end.
Proof.
  destruct (Comment.ParentID c) as [parentID |] eqn:Hp.
  - split.
    + intros limit offset rows Hl Ho [sorted [[Hperm _] ->]].
      unfold limit_offset. apply Z.ltb_lt in Hl. rewrite Hl.
      replace (Z.to_nat offset) with 0%nat by lia. simpl.
      eapply Permutation_in; [exact Hperm |].
      unfold CommentRepository.children. apply filter_In.
      split; [exact Hc |]. rewrite Hp. simpl. apply Z.eqb_refl.
    + intros postID limit offset rows [sorted [[Hperm _] ->]] Hin.
      apply limit_offset_incl in Hin.
      apply (Permutation_in _ (Permutation_sym Hperm)) in Hin.
      unfold top_level_comments in Hin. apply filter_In in Hin as [_ Hsel].
      rewrite Hp in Hsel. simpl in Hsel. now rewrite andb_false_r in Hsel.
  - intros limit offset rows Hl Ho [sorted [[Hperm _] ->]].
    unfold limit_offset. apply Z.ltb_lt in Hl. rewrite Hl.
    replace (Z.to_nat offset) with 0%nat by lia. simpl.
    eapply Permutation_in; [exact Hperm |].
    unfold top_level_comments. apply filter_In.
    split; [exact Hc |]. rewrite Hp. simpl. now rewrite Z.eqb_refl.
Qed.

Lemma comment_listed_in_one_place_witness :
  In Example.comment1 [Example.comment1].
Proof.
  assert (Hin : In Example.comment1 (comments Example.db0)) by now left.
  apply (comment_listed_in_one_place Example.db0 Example.comment1 Hin
           (-1) 0 [Example.comment1]); [reflexivity | discriminate |].
  exists [Example.comment1]. split; [| reflexivity].
  split; [apply Permutation_refl | repeat constructor].
Defined.

(** ** Pages follow one another *)

(** X16.  Paging through replies whose creation times are pairwise
    distinct: for non-negative limits and offset, an answer of GetReplies for
    (limit, offset) followed by an answer for (limit', offset + limit) is the
    answer for (limit + limit', offset); no reply is skipped or repeated at
    the page boundary.  For comments and for messages. *)
Theorem consecutive_reply_pages_join
        (d : DB) (parentID limit limit' offset : Z)
        (Hl : 0 <= limit) (Hl' : 0 <= limit') (Ho : 0 <= offset) :
  (NoDup (map Comment.CreatedAt (CommentRepository.children d parentID)) ->
   forall page page',
     CommentRepository.GetReplies d parentID limit offset page ->
     CommentRepository.GetReplies d parentID limit' (offset + limit) page' ->
     CommentRepository.GetReplies d parentID (limit + limit') offset
       (page ++ page')
     /\ forall both,
         CommentRepository.GetReplies d parentID (limit + limit') offset both ->
         both = page ++ page')
  /\ (NoDup (map Message.CreatedAt (MessageRepository.children d parentID)) ->
      forall page page',
        MessageRepository.GetReplies d parentID limit offset page ->
        MessageRepository.GetReplies d parentID limit' (offset + limit) page' ->
        MessageRepository.GetReplies d parentID (limit + limit') offset
          (page ++ page')
        /\ forall both,
            MessageRepository.GetReplies d parentID (limit + limit') offset
              both ->
            both = page ++ page').
Proof.
  split.
  - intros Hnd page page' [s1 [Ho1 ->]] [s2 [Ho2 ->]].
    destruct (ordered_page_facts _ Comment.CreatedAt Comment.ID _ _
                limit offset Ho1) as (_ & _ & _ & Hu1).
    destruct (ordered_page_facts _ Comment.CreatedAt Comment.ID _ _
                limit' (offset + limit) Ho2) as (_ & _ & _ & Hu2).
    destruct (Hu1 Hnd) as [-> _]. destruct (Hu2 Hnd) as [-> _].
    rewrite (pages_compose _ _ _ _ Hl Hl' Ho). split.
    + eexists. split; [apply sort_rows_orders | reflexivity].
    + intros both [s3 [Ho3 ->]].
      destruct (ordered_page_facts _ Comment.CreatedAt Comment.ID _ _
                  (limit + limit') offset Ho3) as (_ & _ & _ & Hu3).
      now destruct (Hu3 Hnd) as [-> _].
  - intros Hnd page page' [s1 [Ho1 ->]] [s2 [Ho2 ->]].
    destruct (ordered_page_facts _ Message.CreatedAt Message.ID _ _
                limit offset Ho1) as (_ & _ & _ & Hu1).
    destruct (ordered_page_facts _ Message.CreatedAt Message.ID _ _
                limit' (offset + limit) Ho2) as (_ & _ & _ & Hu2).
    destruct (Hu1 Hnd) as [-> _]. destruct (Hu2 Hnd) as [-> _].
    rewrite (pages_compose _ _ _ _ Hl Hl' Ho). split.
    + eexists. split; [apply sort_rows_orders | reflexivity].
    + intros both [s3 [Ho3 ->]].
      destruct (ordered_page_facts _ Message.CreatedAt Message.ID _ _
                  (limit + limit') offset Ho3) as (_ & _ & _ & Hu3).
      now destruct (Hu3 Hnd) as [-> _].
Qed.

Lemma consecutive_reply_pages_join_witness :
  CommentRepository.GetReplies Thread.db 1 (1 + 1) 0
    ([Thread.first] ++ [Thread.second]).
Proof.
  assert (H0 : 0 <= 0) by lia. assert (H1 : 0 <= 1) by lia.
  assert (Hord : order_by_created_at_asc Comment.CreatedAt
                   (CommentRepository.children Thread.db 1)
                   [Thread.first; Thread.second]).
  { split; [apply Permutation_refl | repeat constructor; simpl; lia]. }
  destruct (consecutive_reply_pages_join Thread.db 1 1 1 0 H1 H1 H0)
    as [H _].
  apply H.
  - simpl. repeat constructor; simpl; intuition discriminate.
  - exists [Thread.first; Thread.second]. now split.
  - exists [Thread.first; Thread.second]. now split.
Defined.

(** ** Votes and the rows they point at *)

Lemma target_exists_karma d t :
  target_exists d t = true <-> exists k, karma_of t d = Some k.
Proof.
  destruct t as [p | c]; simpl; unfold post_exists, comment_exists; split.
  - intros H. destruct (existsb_find _ _ H) as [x ->]. simpl. eauto.
  - intros [k Hk]. destruct (find _ (posts d)) eqn:Hf; [| discriminate].
    eapply find_some_exists; eauto.
  - intros H. destruct (existsb_find _ _ H) as [x ->]. simpl. eauto.
  - intros [k Hk]. destruct (find _ (comments d)) eqn:Hf; [| discriminate].
    eapply find_some_exists; eauto.
Qed.

Lemma target_exists_same_scores d d' t :
  same_scores d d' -> target_exists d t = true -> target_exists d' t = true.
Proof.
  intros Hs H. apply target_exists_karma in H as [k Hk].
  apply target_exists_karma. exists k. now rewrite Hs.
Qed.

(** *** The connection *)

(** A refused statement leaves the pool without the prepared connection. *)
Lemma refused_statement_drops_foreign_keys c w :
  failing w = true -> foreign_keys (sent c w) = false.
Proof. unfold sent. simpl. intros ->. apply andb_false_r. Qed.

(** No statement brings the foreign keys back. *)
Lemma GetPostByID_conn id w :
  foreign_keys (snd (GetPostByID id w)) = true -> foreign_keys w = true.
Proof. unfold GetPostByID. by_cases_on_call. Qed.

Lemma GetCommentByID_conn id w :
  foreign_keys (snd (GetCommentByID id w)) = true -> foreign_keys w = true.
Proof. unfold GetCommentByID. by_cases_on_call. Qed.

Lemma UpdatePost_conn p w :
  foreign_keys (snd (UpdatePost p w)) = true -> foreign_keys w = true.
Proof. unfold UpdatePost. by_cases_on_call. Qed.

Lemma UpdateComment_conn c w :
  foreign_keys (snd (UpdateComment c w)) = true -> foreign_keys w = true.
Proof. unfold UpdateComment. by_cases_on_call. Qed.

Lemma GetVoteByUserAndTarget_conn u t w :
  foreign_keys (snd (GetVoteByUserAndTarget u t w)) = true ->
  foreign_keys w = true.
Proof.
  destruct t; simpl; unfold GetVoteByUserAndPost, GetVoteByUserAndComment;
    by_cases_on_call.
Qed.

Lemma CreateVote_conn v w :
  foreign_keys (snd (CreateVote v w)) = true -> foreign_keys w = true.
Proof. unfold CreateVote. by_cases_on_call. Qed.

Lemma UpdateVote_conn v w :
  foreign_keys (snd (UpdateVote v w)) = true -> foreign_keys w = true.
Proof. unfold UpdateVote. by_cases_on_call. Qed.

Lemma DeleteVote_conn v w :
  foreign_keys (snd (DeleteVote v w)) = true -> foreign_keys w = true.
Proof. unfold DeleteVote. by_cases_on_call. Qed.

Lemma UpdateKarma_conn ty id delta w :
  foreign_keys (snd (UpdateKarma ty id delta w)) = true ->
  foreign_keys w = true.
Proof.
  unfold UpdateKarma.
  destruct (ty =? "post")%string.
  - pose proof (GetPostByID_conn id w) as H1.
    destruct (GetPostByID id w) as [[e | post] w1]; simpl in *; [exact H1 |].
    pose proof (UpdatePost_conn
                  (Post.with_Karma post (int_add (Post.Karma post) delta)) w1)
      as H2.
    destruct (UpdatePost _ w1) as [[e | r] w2]; simpl in *; auto.
  - destruct (ty =? "comment")%string; [| auto].
    pose proof (GetCommentByID_conn id w) as H1.
    destruct (GetCommentByID id w) as [[e | c] w1]; simpl in *; [exact H1 |].
    pose proof (UpdateComment_conn
                  (Comment.with_Karma c (int_add (Comment.Karma c) delta)) w1)
      as H2.
    destruct (UpdateComment _ w1) as [[e | r] w2]; simpl in *; auto.
Qed.

Lemma UpdateKarmaOn_conn t delta w :
  foreign_keys (snd (UpdateKarmaOn t delta w)) = true -> foreign_keys w = true.
Proof. destruct t; apply UpdateKarma_conn. Qed.

Lemma CastVote_conn vote w :
  foreign_keys (snd (CastVote vote w)) = true -> foreign_keys w = true.
Proof.
  unfold CastVote.
  destruct (target_of vote) as [t |]; [| auto].
  pose proof (GetVoteByUserAndTarget_conn (Vote.UserID vote) t w) as H1.
  destruct (GetVoteByUserAndTarget _ t w) as [[e | x] w1]; simpl in H1 |- *;
    [| exact H1].
  destruct (negb _ && negb _); [exact H1 |].
  pose proof (CreateVote_conn vote w1) as H2.
  destruct (CreateVote vote w1) as [[e' | row] w2]; simpl in H2 |- *;
    [auto |].
  intros H. apply H1, H2. eapply UpdateKarmaOn_conn; eauto.
Qed.

Lemma ChangeVote_conn vote w :
  foreign_keys (snd (ChangeVote vote w)) = true -> foreign_keys w = true.
Proof.
  unfold ChangeVote.
  destruct (negb _ && negb _); [auto |].
  destruct (target_of vote) as [t |]; [| auto].
  pose proof (GetVoteByUserAndTarget_conn (Vote.UserID vote) t w) as H1.
  destruct (GetVoteByUserAndTarget _ t w) as [[e | x] w1]; simpl in H1 |- *;
    [exact H1 |].
  destruct (Vote.VoteType x =? Vote.VoteType vote)%string; [exact H1 |].
  pose proof (UpdateVote_conn
                (Vote.with_VoteType x (Vote.VoteType vote)) w1) as H2.
  destruct (UpdateVote _ w1) as [[e' | r] w2]; simpl in H2 |- *; [auto |].
  intros H. apply H1, H2. eapply UpdateKarmaOn_conn; eauto.
Qed.

Lemma RemoveVote_conn u p c w :
  foreign_keys (snd (RemoveVote u p c w)) = true -> foreign_keys w = true.
Proof.
  unfold RemoveVote.
  assert (H1 : foreign_keys (snd (if negb (p =? 0)
                                  then GetVoteByUserAndPost u p w
                                  else GetVoteByUserAndComment u c w)) = true
               -> foreign_keys w = true).
  { destruct (negb (p =? 0));
      [apply (GetVoteByUserAndTarget_conn u (OnPost p))
      | apply (GetVoteByUserAndTarget_conn u (OnComment c))]. }
  destruct (if negb (p =? 0) then _ else _) as [[e | x] w1]; simpl in H1 |- *;
    [exact H1 |].
  pose proof (DeleteVote_conn x w1) as H2.
  destruct (DeleteVote x w1) as [[e' |] w2]; simpl in H2 |- *; [auto |].
  intros H. apply H1, H2.
  destruct (Vote.PostID x), (Vote.CommentID x);
    first [eapply UpdateKarma_conn; exact H | exact H].
Qed.

Lemma run_op_conn o w :
  foreign_keys (snd (run_op o w)) = true -> foreign_keys w = true.
Proof.
  destruct o; simpl;
    [apply CastVote_conn | apply ChangeVote_conn | apply RemoveVote_conn].
Qed.

Lemma run_ops_conn os w :
  foreign_keys (run_ops os w) = true -> foreign_keys w = true.
Proof.
  revert w. induction os as [| o os IH]; intros w H; simpl in *; [exact H |].
  apply (run_op_conn o), IH, H.
Qed.

(** While nothing is refused the connection stays the same. *)
Lemma GetPostByID_quiet id w :
  faults w = [] ->
  faults (snd (GetPostByID id w)) = []
  /\ foreign_keys (snd (GetPostByID id w)) = foreign_keys w.
Proof. unfold GetPostByID. by_cases_on_quiet_call. Qed.

Lemma GetCommentByID_quiet id w :
  faults w = [] ->
  faults (snd (GetCommentByID id w)) = []
  /\ foreign_keys (snd (GetCommentByID id w)) = foreign_keys w.
Proof. unfold GetCommentByID. by_cases_on_quiet_call. Qed.

Lemma UpdatePost_quiet p w :
  faults w = [] ->
  faults (snd (UpdatePost p w)) = []
  /\ foreign_keys (snd (UpdatePost p w)) = foreign_keys w.
Proof. unfold UpdatePost. by_cases_on_quiet_call. Qed.

Lemma UpdateComment_quiet c w :
  faults w = [] ->
  faults (snd (UpdateComment c w)) = []
  /\ foreign_keys (snd (UpdateComment c w)) = foreign_keys w.
Proof. unfold UpdateComment. by_cases_on_quiet_call. Qed.

Lemma GetVoteByUserAndTarget_quiet u t w :
  faults w = [] ->
  faults (snd (GetVoteByUserAndTarget u t w)) = []
  /\ foreign_keys (snd (GetVoteByUserAndTarget u t w)) = foreign_keys w.
Proof.
  destruct t; simpl; unfold GetVoteByUserAndPost, GetVoteByUserAndComment;
    by_cases_on_quiet_call.
Qed.

Lemma CreateVote_quiet v w :
  faults w = [] ->
  faults (snd (CreateVote v w)) = []
  /\ foreign_keys (snd (CreateVote v w)) = foreign_keys w.
Proof. unfold CreateVote. by_cases_on_quiet_call. Qed.

Lemma UpdateVote_quiet v w :
  faults w = [] ->
  faults (snd (UpdateVote v w)) = []
  /\ foreign_keys (snd (UpdateVote v w)) = foreign_keys w.
Proof. unfold UpdateVote. by_cases_on_quiet_call. Qed.

Lemma DeleteVote_quiet v w :
  faults w = [] ->
  faults (snd (DeleteVote v w)) = []
  /\ foreign_keys (snd (DeleteVote v w)) = foreign_keys w.
Proof. unfold DeleteVote. by_cases_on_quiet_call. Qed.

Lemma UpdateKarma_quiet ty id delta w :
  faults w = [] ->
  faults (snd (UpdateKarma ty id delta w)) = []
  /\ foreign_keys (snd (UpdateKarma ty id delta w)) = foreign_keys w.
Proof.
  intros Hf. unfold UpdateKarma.
  destruct (ty =? "post")%string.
  - destruct (GetPostByID_quiet id w Hf) as [Hf1 Hk1].
    destruct (GetPostByID id w) as [[e | post] w1]; simpl in *; [now split |].
    destruct (UpdatePost_quiet
                (Post.with_Karma post (int_add (Post.Karma post) delta))
                w1 Hf1) as [Hf2 Hk2].
    destruct (UpdatePost _ w1) as [[e | r] w2]; simpl in *;
      split; congruence.
  - destruct (ty =? "comment")%string; [| now split].
    destruct (GetCommentByID_quiet id w Hf) as [Hf1 Hk1].
    destruct (GetCommentByID id w) as [[e | c] w1]; simpl in *; [now split |].
    destruct (UpdateComment_quiet
                (Comment.with_Karma c (int_add (Comment.Karma c) delta))
                w1 Hf1) as [Hf2 Hk2].
    destruct (UpdateComment _ w1) as [[e | r] w2]; simpl in *;
      split; congruence.
Qed.

Lemma UpdateKarmaOn_quiet t delta w :
  faults w = [] ->
  faults (snd (UpdateKarmaOn t delta w)) = []
  /\ foreign_keys (snd (UpdateKarmaOn t delta w)) = foreign_keys w.
Proof. destruct t; apply UpdateKarma_quiet. Qed.

Lemma CastVote_quiet vote w :
  faults w = [] ->
  faults (snd (CastVote vote w)) = []
  /\ foreign_keys (snd (CastVote vote w)) = foreign_keys w.
Proof.
  intros Hf. unfold CastVote.
  destruct (target_of vote) as [t |]; [| now split].
  destruct (GetVoteByUserAndTarget_quiet (Vote.UserID vote) t w Hf)
    as [Hf1 Hk1].
  destruct (GetVoteByUserAndTarget _ t w) as [[e | x] w1]; simpl in *;
    [| now split].
  destruct (negb _ && negb _); [now split |].
  destruct (CreateVote_quiet vote w1 Hf1) as [Hf2 Hk2].
  destruct (CreateVote vote w1) as [[e' | row] w2]; simpl in *;
    [split; congruence |].
  destruct (UpdateKarmaOn_quiet t
              (if (Vote.VoteType vote =? "upvote")%string then 1 else -1)
              w2 Hf2) as [Hf3 Hk3].
  split; congruence.
Qed.

Lemma ChangeVote_quiet vote w :
  faults w = [] ->
  faults (snd (ChangeVote vote w)) = []
  /\ foreign_keys (snd (ChangeVote vote w)) = foreign_keys w.
Proof.
  intros Hf. unfold ChangeVote.
  destruct (negb _ && negb _); [now split |].
  destruct (target_of vote) as [t |]; [| now split].
  destruct (GetVoteByUserAndTarget_quiet (Vote.UserID vote) t w Hf)
    as [Hf1 Hk1].
  destruct (GetVoteByUserAndTarget _ t w) as [[e | x] w1]; simpl in *;
    [now split |].
  destruct (Vote.VoteType x =? Vote.VoteType vote)%string; [now split |].
  destruct (UpdateVote_quiet
              (Vote.with_VoteType x (Vote.VoteType vote)) w1 Hf1)
    as [Hf2 Hk2].
  destruct (UpdateVote _ w1) as [[e' | r] w2]; simpl in *;
    [split; congruence |].
  destruct (UpdateKarmaOn_quiet t
              (if (Vote.VoteType vote =? "upvote")%string then 2 else -2)
              w2 Hf2) as [Hf3 Hk3].
  split; congruence.
Qed.

Lemma RemoveVote_quiet u p c w :
  faults w = [] ->
  faults (snd (RemoveVote u p c w)) = []
  /\ foreign_keys (snd (RemoveVote u p c w)) = foreign_keys w.
Proof.
  intros Hf. unfold RemoveVote.
  assert (H1 : faults (snd (if negb (p =? 0)
                            then GetVoteByUserAndPost u p w
                            else GetVoteByUserAndComment u c w)) = []
               /\ foreign_keys (snd (if negb (p =? 0)
                                     then GetVoteByUserAndPost u p w
                                     else GetVoteByUserAndComment u c w))
                  = foreign_keys w).
  { destruct (negb (p =? 0));
      [apply (GetVoteByUserAndTarget_quiet u (OnPost p) w Hf)
      | apply (GetVoteByUserAndTarget_quiet u (OnComment c) w Hf)]. }
  destruct H1 as [Hf1 Hk1].
  destruct (if negb (p =? 0) then _ else _) as [[e | x] w1]; simpl in *;
    [now split |].
  destruct (DeleteVote_quiet x w1 Hf1) as [Hf2 Hk2].
  destruct (DeleteVote x w1) as [[e' |] w2]; simpl in *;
    [split; congruence |].
  set (delta := if (Vote.VoteType x =? "upvote")%string then -1 else 1).
  destruct (Vote.PostID x) as [p' |], (Vote.CommentID x) as [c' |];
    try (destruct (UpdateKarma_quiet "post" p' delta w2 Hf2) as [Hf3 Hk3]);
    try (destruct (UpdateKarma_quiet "comment" c' delta w2 Hf2)
           as [Hf4 Hk4]);
    simpl; split; congruence.
Qed.

Lemma run_ops_quiet os w :
  faults w = [] ->
  faults (run_ops os w) = []
  /\ foreign_keys (run_ops os w) = foreign_keys w.
Proof.
  revert w. induction os as [| o os IH]; intros w Hf; simpl; [now split |].
  assert (H : faults (snd (run_op o w)) = []
              /\ foreign_keys (snd (run_op o w)) = foreign_keys w).
  { destruct o; simpl;
      [apply CastVote_quiet | apply ChangeVote_quiet | apply RemoveVote_quiet];
      exact Hf. }
  destruct H as [Hf1 Hk1]. destruct (IH _ Hf1) as [Hf2 Hk2].
  split; congruence.
Qed.

(** A vote lookup that came back empty was not refused. *)
Lemma lookup_not_found_conn u t w e w1 :
  GetVoteByUserAndTarget u t w = (inl e, w1) ->
  negb (e =? "GetVoteByUserAndPost: vote not found")%string
  && negb (e =? "GetVoteByUserAndComment: vote not found")%string = false ->
  foreign_keys w1 = foreign_keys w.
Proof.
  destruct t as [p | c]; simpl;
    unfold GetVoteByUserAndPost, GetVoteByUserAndComment; cbv zeta;
    (destruct (failing w) eqn:Hfl;
     [intros H; inversion H; subst; vm_compute; discriminate |]);
    match goal with
    | |- context [find ?f ?l] => destruct (find f l)
    end; intros H; inversion H; subst; intros _;
    unfold sent; simpl; rewrite Hfl; apply andb_true_r.
Qed.

(** *** What the insert checks *)

(** What the insert checked when it succeeded: the type on every
    connection, the references on one that enforces the foreign keys. *)
Lemma CreateVote_checked v w row :
  fst (CreateVote v w) = inr row ->
  vote_type_ok (Vote.VoteType v) = true
  /\ (foreign_keys w = true ->
      user_exists (store w) (Vote.UserID v) = true
      /\ fk_ok (post_exists (store w)) (Vote.PostID v) = true
      /\ fk_ok (comment_exists (store w)) (Vote.CommentID v) = true).
Proof.
  unfold CreateVote; cbv zeta.
  destruct (failing w); [discriminate |].
  destruct (vote_type_ok (Vote.VoteType v)); [| discriminate]. simpl.
  destruct (existsb (unique_clash v) (votes (store w))); [discriminate |].
  destruct (references_ok w _) eqn:Href; [| discriminate].
  intros _. split; [reflexivity |]. intros Hfk.
  rewrite (references_ok_enforced _ _ Hfk) in Href.
  apply andb_true_iff in Href as [Href Hc].
  apply andb_true_iff in Href as [Hu Hp]. auto.
Qed.

Lemma fk_target_exists d v t :
  target_of v = Some t ->
  fk_ok (post_exists d) (Vote.PostID v) = true ->
  fk_ok (comment_exists d) (Vote.CommentID v) = true ->
  target_exists d t = true.
Proof.
  unfold target_of.
  destruct (Vote.PostID v), (Vote.CommentID v); try discriminate;
    intros H; inversion H; subst t; simpl; auto.
Qed.

(** The votes table after [CastVote], whatever the call returned: as
    before, or with one checked row appended. *)
Lemma CastVote_votes vote w :
  votes (store (snd (CastVote vote w))) = votes (store w)
  \/ exists t row,
      target_of vote = Some t
      /\ votes (store (snd (CastVote vote w))) = votes (store w) ++ [row]
      /\ find (vote_on (Vote.UserID vote) t) (votes (store w)) = None
      /\ Vote.UserID row = Vote.UserID vote
      /\ Vote.PostID row = Vote.PostID vote
      /\ Vote.CommentID row = Vote.CommentID vote
      /\ Vote.VoteType row = Vote.VoteType vote
      /\ vote_type_ok (Vote.VoteType vote) = true
      /\ (foreign_keys w = true ->
          user_exists (store w) (Vote.UserID vote) = true
          /\ target_exists (store w) t = true).
Proof.
  unfold CastVote.
  destruct (target_of vote) as [t |] eqn:Ht; [| now left].
  pose proof (GetVoteByUserAndTarget_store (Vote.UserID vote) t w) as Hget.
  destruct (GetVoteByUserAndTarget _ t w) as [[e | x] w1] eqn:Hlook;
    simpl in Hget.
  2: { left. simpl. now rewrite Hget. }
  destruct (negb _ && negb _) eqn:Hnf.
  { left. simpl. now rewrite Hget. }
  pose proof (lookup_not_found_conn _ _ _ _ _ Hlook Hnf) as Hconn.
  apply (lookup_not_found _ _ _ _ _ Hlook) in Hnf.
  pose proof (CreateVote_store vote w1) as Hc.
  pose proof (CreateVote_checked vote w1) as Hchk.
  destruct (CreateVote vote w1) as [[e' | row] w2]; simpl in *.
  { left. now rewrite Hc, Hget. }
  destruct Hc as (Hst & Hu & Hp & Hcm & Hty).
  destruct (Hchk row eq_refl) as (Hok & Hrefs).
  right. exists t, row. rewrite UpdateKarmaOn_votes, Hst.
  rewrite Hget in *. simpl.
  repeat split; auto.
  - rewrite <- Hconn in H. now apply Hrefs in H.
  - rewrite <- Hconn in H. apply Hrefs in H as (_ & Hfp & Hfc).
    eapply fk_target_exists; eauto.
Qed.

(** X17.  What CastVote can add to the votes table.  Whatever the driver
    refuses and whatever the call returns, CastVote either leaves the votes
    table as it was or appends exactly one row, and it appends only when the
    vote names a single target, its type is "upvote" or "downvote" and the
    user had no vote on that target; the appended row has the user, target
    and type of the request.  If the call started on a connection that
    enforces the foreign keys, the user and the target of the appended row
    exist as well. *)
Theorem CastVote_stores_only_checked_votes (vote : Vote.t) (w : World) :
  votes (store (snd (CastVote vote w))) <> votes (store w) ->
  exists t row,
    target_of vote = Some t
    /\ votes (store (snd (CastVote vote w))) = votes (store w) ++ [row]
    /\ live_votes (Vote.UserID vote) t (store w) = []
    /\ vote_type_ok (Vote.VoteType vote) = true
    /\ (foreign_keys w = true ->
        user_exists (store w) (Vote.UserID vote) = true
        /\ target_exists (store w) t = true)
    /\ Vote.UserID row = Vote.UserID vote
    /\ target_of row = Some t
    /\ Vote.VoteType row = Vote.VoteType vote.
Proof.
  intros Hchanged.
  destruct (CastVote_votes vote w)
    as [Hsame | (t & row & Ht & Hv & Hnone & Hu & Hp & Hc & Hty & Hok
                 & Hrefs)]; [now elim Hchanged |].
  exists t, row.
  split; [exact Ht |]. split; [exact Hv |].
  split; [now apply find_none_filter |].
  split; [exact Hok |]. split; [exact Hrefs |].
  split; [exact Hu |]. split; [| exact Hty].
  unfold target_of in *. now rewrite Hp, Hc.
Qed.

Lemma CastVote_stores_only_checked_votes_witness :
  exists t row,
    target_of (Example.upvote 1 1) = Some t
    /\ votes (store (snd (CastVote (Example.upvote 1 1) Example.w0)))
       = votes (store Example.w0) ++ [row]
    /\ target_exists (store Example.w0) t = true.
Proof.
  destruct (CastVote_stores_only_checked_votes (Example.upvote 1 1)
              Example.w0) as (t & row & Ht & Hv & _ & _ & Hrefs & _).
  - discriminate.
  - exists t, row. split; [exact Ht |]. split; [exact Hv |].
    now apply Hrefs.
Defined.

Lemma vote_on_target u t row :
  vote_on u t row = true -> target_of row = Some t.
Proof.
  destruct t as [p | c]; simpl; unfold on_post, on_comment, target_of;
    intros H; apply andb_true_iff in H as [H Hnull];
    apply andb_true_iff in H as [_ H]; apply opt_eqb_eq in H; rewrite H.
  - now destruct (Vote.CommentID row).
  - now destruct (Vote.PostID row).
Qed.

Lemma update_vote_row_target v now row :
  target_of (update_vote_row v now row) = target_of row.
Proof.
  unfold update_vote_row. now destruct (Vote.ID row =? Vote.ID v).
Qed.

Lemma ChangeVote_votes vote w :
  votes (store (snd (ChangeVote vote w))) = votes (store w)
  \/ exists v now,
      votes (store (snd (ChangeVote vote w)))
      = map (update_vote_row v now) (votes (store w)).
Proof.
  unfold ChangeVote.
  destruct (negb _ && negb _); [now left |].
  destruct (target_of vote) as [t |]; [| now left].
  pose proof (GetVoteByUserAndTarget_store (Vote.UserID vote) t w) as Hget.
  destruct (GetVoteByUserAndTarget _ t w) as [[e | x] w1]; simpl in Hget.
  { left. simpl. now rewrite Hget. }
  destruct (Vote.VoteType x =? Vote.VoteType vote)%string.
  { left. simpl. now rewrite Hget. }
  destruct (UpdateVote_store
              (Vote.with_VoteType x (Vote.VoteType vote)) w1) as [H | H];
    destruct (UpdateVote _ w1) as [[e' | r] w2]; simpl in *;
    rewrite ?UpdateKarmaOn_votes, H, Hget;
    try (now left); right; eexists; eexists; reflexivity.
Qed.

Lemma RemoveVote_votes u p c w :
  incl (votes (store (snd (RemoveVote u p c w)))) (votes (store w)).
Proof.
  unfold RemoveVote.
  assert (Hget : store (snd (if negb (p =? 0)
                             then GetVoteByUserAndPost u p w
                             else GetVoteByUserAndComment u c w)) = store w).
  { destruct (negb (p =? 0));
      [apply GetVoteByUserAndPost_store | apply GetVoteByUserAndComment_store]. }
  destruct (if negb (p =? 0) then _ else _) as [[e | x] w1]; simpl in Hget.
  { simpl. rewrite Hget. apply incl_refl. }
  assert (Hd : incl (votes (store (snd (DeleteVote x w1))))
                 (votes (store w))).
  { destruct (DeleteVote_store x w1) as [H | H]; rewrite H, Hget;
      [apply incl_refl |].
    simpl. intros v Hv. now apply filter_In in Hv. }
  destruct (DeleteVote x w1) as [[e' |] w2]; simpl in *; [exact Hd |].
  destruct (Vote.PostID x), (Vote.CommentID x);
    rewrite ?UpdateKarma_votes; exact Hd.
Qed.

Lemma run_op_keeps_targets o w :
  foreign_keys w = true ->
  votes_have_targets (store w) ->
  votes_have_targets (store (snd (run_op o w))).
Proof.
  intros Hfk Hint v t Hv Ht.
  apply (target_exists_same_scores (store w)); [apply run_op_same_scores |].
  destruct o as [vote | vote | u p c]; simpl in Hv.
  - destruct (CastVote_votes vote w)
      as [Hsame | (t' & row & Ht' & Hvs & _ & _ & Hp & Hc & _ & _ & Hrefs)].
    + rewrite Hsame in Hv. eauto.
    + rewrite Hvs in Hv. apply in_app_or in Hv as [Hv | [<- | []]]; eauto.
      unfold target_of in Ht, Ht'. rewrite Hp, Hc in Ht.
      rewrite Ht' in Ht. inversion Ht; subst. now apply Hrefs.
  - destruct (ChangeVote_votes vote w) as [Hsame | (x & now & Hvs)].
    + rewrite Hsame in Hv. eauto.
    + rewrite Hvs in Hv. apply in_map_iff in Hv as (v0 & <- & Hv0).
      rewrite update_vote_row_target in Ht. eauto.
  - apply RemoveVote_votes in Hv. eauto.
Qed.

(** X18.  Votes keep pointing at stored rows as long as the foreign keys
    are enforced.  If every vote on a single target points at a stored post
    or comment, that is still so after any sequence of CastVote, ChangeVote
    and RemoveVote calls that ends on a connection enforcing the foreign
    keys, whatever the calls return; and a sequence that starts on such a
    connection ends on it when the driver refuses nothing. *)
Theorem votes_keep_their_targets (os : list vote_op) (w : World)
        (Hint : votes_have_targets (store w)) :
  (foreign_keys (run_ops os w) = true ->
   votes_have_targets (store (run_ops os w)))
  /\ (foreign_keys w = true -> faults w = [] ->
      foreign_keys (run_ops os w) = true
      /\ votes_have_targets (store (run_ops os w))).
Proof.
  assert (Hkeep : forall os w,
             votes_have_targets (store w) ->
             foreign_keys (run_ops os w) = true ->
             votes_have_targets (store (run_ops os w))).
  { clear. induction os as [| o os IH]; intros w Hint Hfk; simpl in *;
      [exact Hint |].
    apply IH; [| exact Hfk].
    apply run_op_keeps_targets; [| exact Hint].
    apply (run_op_conn o). now apply (run_ops_conn os). }
  split.
  - now apply Hkeep.
  - intros Hfk Hf. destruct (run_ops_quiet os w Hf) as [_ Hk].
    rewrite Hfk in Hk. split; [exact Hk |]. now apply Hkeep.
Qed.

Lemma votes_keep_their_targets_witness :
  foreign_keys
    (run_ops [Change (Example.downvote 1 1); Cast (Example.upvote 2 1)]
       (mkWorld Scenario.db1 100 [] [])) = true
  /\ votes_have_targets
       (store (run_ops
                 [Change (Example.downvote 1 1); Cast (Example.upvote 2 1)]
                 (mkWorld Scenario.db1 100 [] []))).
Proof.
  assert (Hint : votes_have_targets
                   (store (mkWorld Scenario.db1 100 [] []))).
  { intros v t [<- | []] Ht. inversion Ht. reflexivity. }
  destruct (votes_keep_their_targets
              [Change (Example.downvote 1 1); Cast (Example.upvote 2 1)]
              (mkWorld Scenario.db1 100 [] []) Hint) as [_ H].
  apply H; reflexivity.
Defined.

(** X19.  When the vote operations succeed.  In a database whose votes
    point at stored rows and on a driver that refuses nothing: RemoveVote
    (called for a target, post ids starting at 1) returns nil whenever the
    user has a vote on the target; ChangeVote returns nil whenever the
    requested type is "upvote" or "downvote" and the user has a vote of the
    other type on the target; CastVote returns nil whenever the type is
    "upvote" or "downvote", the user and the target exist and the user has no
    vote on the target.  So without a driver failure none of them stops
    between its vote write and its karma update. *)
Theorem vote_operations_succeed
        (w : World)
        (Hint : votes_have_targets (store w))
        (Hf : faults w = []) :
  (forall u t existing,
      t <> OnPost 0 ->
      find (vote_on u t) (votes (store w)) = Some existing ->
      fst (RemoveVoteOn u t w) = OK)
  /\ (forall vote t existing,
         vote_type_ok (Vote.VoteType vote) = true ->
         target_of vote = Some t ->
         find (vote_on (Vote.UserID vote) t) (votes (store w))
         = Some existing ->
         Vote.VoteType existing <> Vote.VoteType vote ->
         fst (ChangeVote vote w) = OK)
  /\ (forall vote t,
         target_of vote = Some t ->
         vote_type_ok (Vote.VoteType vote) = true ->
         user_exists (store w) (Vote.UserID vote) = true ->
         target_exists (store w) t = true ->
         live_votes (Vote.UserID vote) t (store w) = [] ->
         fst (CastVote vote w) = OK).
Proof.
  split; [| split].
  - intros u t x Hnz Hfind.
    pose proof (find_some _ _ Hfind) as [Hin Hon].
    pose proof (vote_on_target _ _ _ Hon) as Htx.
    destruct (proj1 (target_exists_karma _ _) (Hint _ _ Hin Htx)) as [k Hk].
    rewrite (RemoveVoteOn_unfold _ _ _ Hnz),
      (GetVoteByUserAndTarget_run _ _ _ Hf), Hfind. cbv zeta.
    set (w1 := sent (lookup_call u t) w).
    unfold DeleteVote; cbv zeta.
    rewrite (failing_no_faults w1 (sent_no_faults _ _ Hf)).
    assert (Hex : existsb (fun r => Vote.ID r =? Vote.ID x)
                    (votes (store w1)) = true).
    { apply existsb_exists. exists x. split; [exact Hin | apply Z.eqb_refl]. }
    rewrite Hex.
    set (w2 := with_store _ _).
    set (delta := if (Vote.VoteType x =? "upvote")%string then -1 else 1).
    assert (Hrun : fst (UpdateKarmaOn t delta w2) = OK).
    { apply (UpdateKarmaOn_run t delta w2 k).
      - subst w2 w1. simpl. now rewrite Hf.
      - rewrite <- Hk. now destruct t. }
    unfold target_of in Htx.
    destruct (Vote.PostID x), (Vote.CommentID x);
      inversion Htx; subst t; exact Hrun.
  - intros vote t x Hty Ht Hfind Hne.
    pose proof (find_some _ _ Hfind) as [Hin Hon].
    pose proof (vote_on_target _ _ _ Hon) as Htx.
    destruct (proj1 (target_exists_karma _ _) (Hint _ _ Hin Htx)) as [k Hk].
    unfold ChangeVote.
    rewrite (vote_type_ok_passes _ Hty), Ht,
      (GetVoteByUserAndTarget_run _ _ _ Hf), Hfind.
    apply String.eqb_neq in Hne. rewrite Hne.
    set (w1 := sent (lookup_call (Vote.UserID vote) t) w).
    assert (Hf1 : faults w1 = []) by now apply sent_no_faults.
    destruct (UpdateVote_run
                (Vote.with_VoteType x (Vote.VoteType vote)) w1 Hf1)
      as [r ->].
    + apply existsb_exists. exists x. split; [exact Hin | apply Z.eqb_refl].
    + exact Hty.
    + apply (UpdateKarmaOn_run t _ _ k).
      * apply (sent_no_faults
                 (QUpdateVote (Vote.with_VoteType x (Vote.VoteType vote)))
                 w1 Hf1).
      * rewrite <- Hk. now destruct t.
  - intros vote t Ht Hty Hu Hex Hnone.
    destruct (proj1 (target_exists_karma _ _) Hex) as [k Hk].
    apply find_none_filter in Hnone.
    rewrite (CastVote_run _ _ _ Hf Ht Hnone).
    rewrite (CreateVote_accepts vote t
               (sent (lookup_call (Vote.UserID vote) t) w)
               (sent_no_faults _ _ Hf) Ht Hty Hu Hex).
    apply (UpdateKarmaOn_run t _ _ k).
    + simpl. now rewrite Hf.
    + rewrite <- Hk. now destruct t.
Qed.

Lemma vote_operations_succeed_witness :
  fst (RemoveVoteOn 1 (OnPost 1) (mkWorld Scenario.db1 100 [] [])) = OK.
Proof.
  assert (Hint : votes_have_targets
                   (store (mkWorld Scenario.db1 100 [] []))).
  { intros v t [<- | []] Ht. inversion Ht. reflexivity. }
  assert (Hnz : OnPost 1 <> OnPost 0) by discriminate.
  destruct (vote_operations_succeed (mkWorld Scenario.db1 100 [] [])
              Hint eq_refl) as [H _].
  apply (H 1 (OnPost 1) Scenario.alice_vote Hnz eq_refl).
Defined.

(** ** Other users' votes *)

Lemma unique_id_row (rows : list Vote.t) a b :
  NoDup (map Vote.ID rows) ->
  In a rows -> In b rows -> Vote.ID a = Vote.ID b -> a = b.
Proof.
  induction rows as [| x rows IH]; simpl; [tauto |].
  intros Hnd Ha Hb Heq. inversion Hnd as [| ? ? Hnotin Hnd']; subst.
  destruct Ha as [<- | Ha], Hb as [<- | Hb]; auto.
  - exfalso. apply Hnotin. rewrite Heq. now apply in_map.
  - exfalso. apply Hnotin. rewrite <- Heq. now apply in_map.
Qed.

Lemma filter_same_on {A} (f : A -> bool) (g : A -> A) rows :
  (forall r, In r rows -> f r = true \/ f (g r) = true -> g r = r) ->
  filter f (map g rows) = filter f rows.
Proof.
  induction rows as [| x rows IH]; intros H; simpl; [reflexivity |].
  assert (Hrest : filter f (map g rows) = filter f rows).
  { apply IH. intros r Hr. apply H. now right. }
  destruct (f (g x)) eqn:Hgx.
  - rewrite (H x (or_introl eq_refl) (or_intror Hgx)) in Hgx |- *.
    now rewrite Hgx, Hrest.
  - destruct (f x) eqn:Hx; [| exact Hrest].
    rewrite (H x (or_introl eq_refl) (or_introl Hx)) in Hgx. congruence.
Qed.

Lemma filter_keeps_on {A} (f g : A -> bool) rows :
  (forall r, In r rows -> f r = true -> g r = true) ->
  filter f (filter g rows) = filter f rows.
Proof.
  induction rows as [| x rows IH]; intros H; simpl; [reflexivity |].
  assert (Hrest : filter f (filter g rows) = filter f rows).
  { apply IH. intros r Hr. apply H. now right. }
  destruct (g x) eqn:Hg; simpl.
  - now rewrite Hrest.
  - destruct (f x) eqn:Hx; [| exact Hrest].
    rewrite (H x (or_introl eq_refl) Hx) in Hg. discriminate.
Qed.

Lemma UpdateVote_failed v w e w' :
  UpdateVote v w = (inl e, w') -> store w' = store w.
Proof.
  unfold UpdateVote; cbv zeta.
  destruct (failing w); [intros H; now inversion H |].
  destruct (negb (existsb _ _)); [intros H; now inversion H |].
  destruct (negb (vote_type_ok _)); [intros H; now inversion H |].
  discriminate.
Qed.

(** The votes table after [ChangeVote], whatever the call returned. *)
Lemma ChangeVote_votes_found vote t w :
  target_of vote = Some t ->
  votes (store (snd (ChangeVote vote w))) = votes (store w)
  \/ exists x,
      find (vote_on (Vote.UserID vote) t) (votes (store w)) = Some x
      /\ votes (store (snd (ChangeVote vote w)))
         = map (update_vote_row
                  (Vote.with_VoteType x (Vote.VoteType vote)) (clock w))
             (votes (store w)).
Proof.
  intros Ht. unfold ChangeVote.
  destruct (negb _ && negb _); [now left |].
  rewrite Ht.
  destruct (GetVoteByUserAndTarget _ t w) as [[e | x] w1] eqn:Hlook.
  { left. pose proof (GetVoteByUserAndTarget_store (Vote.UserID vote) t w)
      as Hget. rewrite Hlook in Hget. exact (f_equal votes Hget). }
  apply lookup_found in Hlook as [Hfind ->].
  destruct (Vote.VoteType x =? Vote.VoteType vote)%string; [now left |].
  destruct (UpdateVote _ _) as [[e' | r] w2] eqn:Hupd.
  - left. simpl. apply UpdateVote_failed in Hupd. now rewrite Hupd.
  - right. exists x. split; [exact Hfind |].
    rewrite UpdateKarmaOn_votes.
    apply UpdateVote_done in Hupd. now subst w2.
Qed.

Lemma DeleteVote_failed x w e w' :
  DeleteVote x w = (Some e, w') -> store w' = store w.
Proof.
  unfold DeleteVote; cbv zeta.
  destruct (failing w); [intros H; now inversion H |].
  destruct (existsb _ _); [discriminate | intros H; now inversion H].
Qed.

(** The votes table after [RemoveVote], whatever the call returned. *)
Lemma RemoveVoteOn_votes_found u t w :
  t <> OnPost 0 ->
  votes (store (snd (RemoveVoteOn u t w))) = votes (store w)
  \/ exists x,
      find (vote_on u t) (votes (store w)) = Some x
      /\ votes (store (snd (RemoveVoteOn u t w)))
         = filter (fun row => negb (Vote.ID row =? Vote.ID x))
             (votes (store w)).
Proof.
  intros Hnz. rewrite (RemoveVoteOn_unfold _ _ _ Hnz).
  destruct (GetVoteByUserAndTarget u t w) as [[e | x] w1] eqn:Hlook.
  { left. pose proof (GetVoteByUserAndTarget_store u t w) as Hget.
    rewrite Hlook in Hget. exact (f_equal votes Hget). }
  apply lookup_found in Hlook as [Hfind ->]. cbv zeta.
  destruct (DeleteVote x _) as [[e |] w2] eqn:Hdel.
  - left. simpl. apply DeleteVote_failed in Hdel. now rewrite Hdel.
  - right. exists x. split; [exact Hfind |].
    apply DeleteVote_done in Hdel.
    assert (Hv : votes (store w2)
                 = filter (fun row => negb (Vote.ID row =? Vote.ID x))
                     (votes (store w))) by now subst w2.
    destruct (Vote.PostID x), (Vote.CommentID x);
      rewrite ?UpdateKarma_votes; exact Hv.
Qed.

(** X20.  A vote operation touches only the caller's vote on the target.
    In a votes table with unique ids, for a user and target other than the
    caller's: the votes of that user on that target are the same rows before
    and after a CastVote, ChangeVote or RemoveVote of the caller, whatever
    the call returns and whatever the driver refuses. *)
Theorem other_votes_untouched
        (w : World) (u u' : Z) (t t' : target)
        (Hpk : NoDup (map Vote.ID (votes (store w))))
        (Hother : u' <> u \/ t' <> t) :
  (forall vote,
      Vote.UserID vote = u -> target_of vote = Some t ->
      live_votes u' t' (store (snd (CastVote vote w)))
      = live_votes u' t' (store w)
      /\ live_votes u' t' (store (snd (ChangeVote vote w)))
         = live_votes u' t' (store w))
  /\ (t <> OnPost 0 ->
      live_votes u' t' (store (snd (RemoveVoteOn u t w)))
      = live_votes u' t' (store w)).
Proof.
  assert (Hdiff : forall row, vote_on u t row = true ->
                              vote_on u' t' row = false).
  { intros row Hrow. destruct (vote_on u' t' row) eqn:H'; [| reflexivity].
    destruct (vote_on_unique _ _ _ _ _ Hrow H') as [-> ->].
    destruct Hother as [H | H]; now elim H. }
  split.
  - intros vote Hu Ht. unfold live_votes. split.
    + destruct (CastVote_votes vote w)
        as [-> | (t0 & row & Ht0 & -> & _ & Hru & Hrp & Hrc & _)];
        [reflexivity |].
      rewrite Ht in Ht0. inversion Ht0; subst t0.
      rewrite filter_app. simpl.
      pose proof (vote_on_target_of _ _ _ Ht Hru Hrp Hrc) as Hmine.
      rewrite Hu in Hmine. rewrite (Hdiff _ Hmine). apply app_nil_r.
    + destruct (ChangeVote_votes_found vote t w Ht) as [-> | (x & Hfind & ->)];
        [reflexivity |].
      rewrite Hu in Hfind. pose proof (find_some _ _ Hfind) as [Hin Hon].
      apply filter_same_on. intros r Hr Hsel.
      rewrite update_vote_row_vote_on in Hsel.
      assert (Hr' : vote_on u' t' r = true) by tauto.
      unfold update_vote_row. simpl.
      destruct (Vote.ID r =? Vote.ID x) eqn:Heq; [| reflexivity].
      apply Z.eqb_eq in Heq.
      pose proof (unique_id_row _ _ _ Hpk Hr Hin Heq) as ->.
      rewrite (Hdiff _ Hon) in Hr'. discriminate.
  - intros Hnz. unfold live_votes.
    destruct (RemoveVoteOn_votes_found u t w Hnz) as [-> | (x & Hfind & ->)];
      [reflexivity |].
    pose proof (find_some _ _ Hfind) as [Hin Hon].
    apply filter_keeps_on. intros r Hr Hsel.
    destruct (Vote.ID r =? Vote.ID x) eqn:Heq; [| reflexivity].
    apply Z.eqb_eq in Heq.
    pose proof (unique_id_row _ _ _ Hpk Hr Hin Heq) as ->.
    rewrite (Hdiff _ Hon) in Hsel. discriminate.
Qed.

Lemma other_votes_untouched_witness :
  live_votes 1 (OnPost 1)
    (store (snd (RemoveVoteOn 2 (OnPost 1) (mkWorld Scenario.db1 100 [] []))))
  = live_votes 1 (OnPost 1) (store (mkWorld Scenario.db1 100 [] [])).
Proof.
  assert (Hpk : NoDup (map Vote.ID
                         (votes (store (mkWorld Scenario.db1 100 [] []))))).
  { simpl. repeat constructor. intros []. }
  assert (Hother : 1 <> 2 \/ OnPost 1 <> OnPost 1) by (left; discriminate).
  assert (Hnz : OnPost 1 <> OnPost 0) by discriminate.
  destruct (other_votes_untouched (mkWorld Scenario.db1 100 [] [])
              2 1 (OnPost 1) (OnPost 1) Hpk Hother) as [_ H].
  exact (H Hnz).
Defined.

(** ** After a refused statement *)

(** What the karma update returns for a target that has no row. *)
Lemma UpdateKarmaOn_missing t delta w :
  faults w = [] ->
  target_exists (store w) t = false ->
  fst (UpdateKarmaOn t delta w) = Err (target_not_found_msg t)
  /\ store (snd (UpdateKarmaOn t delta w)) = store w.
Proof.
  intros Hf Hex.
  assert (Hnone : karma_of t (store w) = None).
  { destruct (karma_of t (store w)) as [k |] eqn:Hk; [| reflexivity].
    assert (target_exists (store w) t = true)
      by (apply target_exists_karma; eauto).
    congruence. }
  destruct t as [p | c]; simpl in *; unfold UpdateKarma; simpl.
  - rewrite (GetPostByID_run _ _ Hf).
    destruct (find (fun x => Post.ID x =? p) (posts (store w)));
      [discriminate | now split].
  - rewrite (GetCommentByID_run _ _ Hf).
    destruct (find (fun x => Comment.ID x =? c) (comments (store w)));
      [discriminate | now split].
Qed.

(** X21.  On a connection that does not enforce the foreign keys the
    insert of a vote looks at no other table.  Such a connection is what the
    pool hands out once the driver has refused a statement.  On it, and with
    nothing refused any more, CastVote of a vote of type "upvote" or
    "downvote" on a single target on which the user has no vote appends the
    vote, whether or not the user and the target exist; when the target does
    not exist the call returns the not-found error of the karma update and
    the vote stays, pointing at no row. *)
Theorem CastVote_without_foreign_keys
        (vote : Vote.t) (t : target) (w : World)
        (Hfk : foreign_keys w = false)
        (Hf : faults w = [])
        (Ht : target_of vote = Some t)
        (Hty : vote_type_ok (Vote.VoteType vote) = true)
        (Hnone : live_votes (Vote.UserID vote) t (store w) = []) :
  exists row,
    votes (store (snd (CastVote vote w))) = votes (store w) ++ [row]
    /\ Vote.UserID row = Vote.UserID vote
    /\ target_of row = Some t
    /\ Vote.VoteType row = Vote.VoteType vote
    /\ (target_exists (store w) t = false ->
        fst (CastVote vote w) = Err (target_not_found_msg t)
        /\ ~ votes_have_targets (store (snd (CastVote vote w)))).
Proof.
  pose proof (CastVote_same_scores vote w) as Hscores.
  apply find_none_filter in Hnone.
  rewrite (CastVote_run _ _ _ Hf Ht Hnone) in *.
  set (w1 := sent (lookup_call (Vote.UserID vote) t) w) in *.
  assert (Hf1 : faults w1 = []) by now apply sent_no_faults.
  assert (Hfk1 : foreign_keys w1 = false).
  { subst w1. now rewrite sent_foreign_keys. }
  set (row := Vote.mk (next_id (seq_votes (store w1))
                         (map Vote.ID (votes (store w1))))
                (Vote.UserID vote) (Vote.PostID vote) (Vote.CommentID vote)
                (Vote.VoteType vote) (clock w1) (clock w1)).
  assert (Hrun : CreateVote vote w1
                 = (inr row,
                    with_store (sent (QCreateVote vote) w1)
                      (set_votes (store w1) (votes (store w1) ++ [row])
                         (Vote.ID row)))).
  { unfold CreateVote; cbv zeta.
    rewrite (failing_no_faults _ Hf1), Hty, (no_unique_clash _ _ _ Ht). simpl.
    now rewrite (references_ok_off _ _ Hfk1). }
  rewrite Hrun in *.
  set (w2 := with_store _ _) in *.
  set (delta := if (Vote.VoteType vote =? "upvote")%string then 1 else -1)
    in *.
  assert (Hvotes : votes (store (snd (UpdateKarmaOn t delta w2)))
                   = votes (store w) ++ [row]).
  { now rewrite UpdateKarmaOn_votes. }
  exists row. split; [exact Hvotes |].
  split; [reflexivity |]. split; [exact Ht |]. split; [reflexivity |].
  intros Hmissing.
  assert (Hf2 : faults w2 = [])
    by (apply (sent_no_faults (QCreateVote vote) w1 Hf1)).
  destruct (UpdateKarmaOn_missing t delta w2 Hf2) as [Herr Hst].
  { destruct t; exact Hmissing. }
  split; [exact Herr |].
  intros Hint.
  assert (Hex : target_exists (store (snd (UpdateKarmaOn t delta w2))) t
                = true).
  { apply (Hint row); [| exact Ht].
    rewrite Hvotes. apply in_or_app. right. now left. }
  apply target_exists_karma in Hex as [k Hk].
  rewrite Hscores in Hk.
  assert (target_exists (store w) t = true)
    by (apply target_exists_karma; eauto).
  congruence.
Qed.

Lemma CastVote_without_foreign_keys_witness :
  foreign_keys Scenario.after_refusal = false
  /\ exists row,
      votes (store (snd (CastVote (Example.upvote 1 9)
                           Scenario.after_refusal)))
      = [] ++ [row]
      /\ target_of row = Some (OnPost 9)
      /\ fst (CastVote (Example.upvote 1 9) Scenario.after_refusal)
         = Err "GetPostByID: post not found".
Proof.
  split; [reflexivity |].
  destruct (CastVote_without_foreign_keys (Example.upvote 1 9) (OnPost 9)
              Scenario.after_refusal eq_refl eq_refl eq_refl eq_refl eq_refl)
    as (row & Hv & _ & Ht & _ & Hmissing).
  exists row. split; [exact Hv |]. split; [exact Ht |].
  now apply Hmissing.
Defined.
